(** * Real-time sentiment pipeline: a shallow embedding and its properties

    The development follows the Python sources of the collection and
    processing pipeline:

    - [src/utils/error_handler.py]            (retry classification)
    - [src/data_collection/twitter_collector.py] (fetch loop with backoff)
    - [src/sentiment_analysis/sentiment_analyzer.py] (heuristic scoring)
    - [src/streaming/data_processor.py]       (Spark cleaning stage)
    - [src/database/mongodb_client.py]        (storage writes)
    - [src/streaming/real_time_pipeline.py]   (cycle, scheduler loop, stop)

    Python dictionaries are finite maps from strings to Python values,
    exceptions are explicit results, and every call into a third-party
    library (tweepy, Spark, MongoDB, TextBlob, the clock) is an oracle read
    from an environment, so that each function below is the source function
    run against an arbitrary behaviour of the outside world. *)

From Stdlib Require Import Ascii String QArith Qabs Qminmax Lqa.
From stdpp Require Import gmap strings list pretty.

Open Scope Z_scope.

(** ** Python values, dictionaries and exceptions *)

(** The values that occur in the payload dictionaries. A [datetime] is the
    clock reading it denotes. *)
Inductive pyval :=
  | PNone
  | PStr (s : string)
  | PInt (n : Z)
  | PTime (t : Z)
  | PList (l : list string).

#[global] Instance pyval_eq_dec : EqDecision pyval.
Proof. solve_decision. Defined.

(** A payload is a Python [dict] with string keys. *)
Abbreviation payload := (gmap string pyval).

(** [d.get(k, default)] and [d.get(k)]. A key bound to [None] is present:
    [get] then returns [None], not the default. *)
Definition dict_get (d : payload) (k : string) (default : pyval) : pyval :=
  match d !! k with
  | Some v => v
  | None => default
  end.

(** Truth value of a Python object, as tested by [if x:] and [x or y]. *)
Definition truthy (v : pyval) : bool :=
  match v with
  | PNone => false
  | PStr s => negb (String.eqb s "")
  | PInt n => negb (n =? 0)
  | PTime _ => true
  | PList l => match l with [] => false | _ => true end
  end.

(** [x or y]. *)
Definition py_or (x y : pyval) : pyval := if truthy x then x else y.

(** An exception: whether it is an instance of [tweepy.TooManyRequests],
    the name of its class and [str(error)]. Every exception modelled here is
    an instance of [Exception]. *)
Record exn := Exn {
  exn_rate_limited : bool;
  exn_name : string;
  exn_msg : string
}.

(** The outcome of a call: a value, or an exception that propagates. *)
Inductive outcome (A : Type) :=
  | Returns (a : A)
  | Raises (e : exn).
Arguments Returns {A} a.
Arguments Raises {A} e.

(** ** Strings: [str.lower] and [term in s]

    Messages are strings over the code points U+0000..U+00FF. On this range
    [str.lower] maps A-Z and the capital letters U+00C0..U+00DE (without the
    multiplication sign U+00D7) to the code point 32 above, and fixes
    every other character. *)
Definition lower_char (c : ascii) : ascii :=
  let n := nat_of_ascii c in
  if ((65 <=? n) && (n <=? 90))%nat
     || ((192 <=? n) && (n <=? 222) && negb (n =? 215))%nat
  then ascii_of_nat (n + 32)
  else c.

Fixpoint lower (s : string) : string :=
  match s with
  | EmptyString => EmptyString
  | String c s' => String (lower_char c) (lower s')
  end.

Fixpoint starts_with (term s : string) : bool :=
  match term, s with
  | EmptyString, _ => true
  | String a term', String b s' => Ascii.eqb a b && starts_with term' s'
  | String _ _, EmptyString => false
  end.

(** [term in s]: [term] occurs in [s] as a contiguous substring. *)
Fixpoint str_in (term s : string) : bool :=
  starts_with term s ||
  match s with
  | EmptyString => false
  | String _ s' => str_in term s'
  end.

(** [any(term in s for term in terms)]. *)
Definition any_term_in (terms : list string) (s : string) : bool :=
  existsb (fun term => str_in term s) terms.

(** ** [ErrorHandler._should_retry] *)

Definition network_terms : list string := ["timeout"; "connection"; "network"].
Definition rate_limit_terms : list string := ["rate limit"; "too many requests"].
Definition auth_terms : list string :=
  ["unauthorized"; "forbidden"; "invalid credentials"].

Definition _should_retry (error : exn) (error_count : Z) : bool :=
  (* Don't retry after too many failures *)
  if error_count >? 5 then false
  (* Retry for network-related errors *)
  else if any_term_in network_terms (lower (exn_msg error)) then true
  (* Retry for rate limiting *)
  else if any_term_in rate_limit_terms (lower (exn_msg error)) then true
  (* Don't retry for authentication errors *)
  else if any_term_in auth_terms (lower (exn_msg error)) then false
  (* Default: retry for first few attempts *)
  else error_count <=? 3.

(** ** [TwitterCollector.collect_tweets] *)

(** A tweet as the paginator yields it. *)
Record tweet := Tweet {
  tw_id : Z;
  tw_text : string;
  tw_created_at : Z;
  tw_author_id : Z;
  tw_lang : string;
  tw_public_metrics : gmap string Z
}.

(** One attempt against the search API: the tweets the paginator yields,
    each with the clock reading when it is handled, and the exception that
    ends the iteration, if any. *)
Record attempt_outcome := Attempt {
  yielded : list (tweet * Z);
  raised : option exn
}.

(** What the adapter does that the outside can see. *)
Inductive fetch_event :=
  | Request          (* one search request sequence is started *)
  | Sleep (seconds : Z).

Definition tweet_data (keywords : list string) (tw : tweet * Z) : payload :=
  {[ "id" := PInt (tw_id tw.1);
     "text" := PStr (tw_text tw.1);
     "created_at" := PTime (tw_created_at tw.1);
     "author_id" := PInt (tw_author_id tw.1);
     "platform" := PStr "twitter";
     "likes" := PInt (default 0 (tw_public_metrics tw.1 !! "like_count"));
     "retweets" := PInt (default 0 (tw_public_metrics tw.1 !! "retweet_count"));
     "collected_at" := PTime tw.2;
     "keywords" := PList keywords ]}.

(** Only English tweets are kept. *)
Definition english (tw : tweet * Z) : bool := String.eqb (tw_lang tw.1) "en".

Definition max_retries : Z := 3.

(** The body of [for attempt in range(max_retries)], by recursion on the
    attempts that remain. The state is [tweets_data], [backoff_time] and the
    events so far; the result is the returned list with the events. *)
Fixpoint attempt_loop (api : Z -> attempt_outcome) (keywords : list string)
    (attempts : list Z) (tweets_data : list payload) (backoff_time : Z)
    (events : list fetch_event) : list payload * list fetch_event :=
  match attempts with
  | [] => (tweets_data, events)
  | attempt :: rest =>
      let a := api attempt in
      let tweets_data :=
        tweets_data ++ (tweet_data keywords <$> filter (λ tw, english tw = true) (yielded a)) in
      let events := events ++ [Request] in
      match raised a with
      | None =>
          (* If successful, break out of retry loop *)
          (tweets_data, events)
      | Some e =>
          if exn_rate_limited e then
            if attempt <? max_retries - 1 then
              attempt_loop api keywords rest tweets_data (backoff_time * 2)
                (events ++ [Sleep backoff_time])
            else ([], events)
          else
            if attempt <? max_retries - 1 then
              attempt_loop api keywords rest tweets_data backoff_time
                (events ++ [Sleep (Z.min backoff_time 30)])
            else ([], events)
      end
  end.

Definition collect_tweets (api : Z -> attempt_outcome) (keywords : list string)
    : list payload * list fetch_event :=
  attempt_loop api keywords (seqZ 0 max_retries) [] 60 [].

(** ** [SentimentAnalyzer] *)

Inductive label := positive | neutral | negative.

(** The dictionary returned by the scorer. [probabilities] is ordered
    negative, neutral, positive. *)
Record sentiment := Sentiment {
  s_label : label;
  s_polarity : option Q;
  s_subjectivity : option Q;
  s_confidence : Q;
  s_probabilities : option (Q * Q * Q)
}.

(** A row of the Spark DataFrame built with [define_schema]: nine nullable
    columns. *)
Record row := Row {
  r_id : option string;
  r_text : option string;
  r_platform : option string;
  r_created_at : option Z;
  r_author_id : option string;
  r_likes : option Z;
  r_retweets : option Z;
  r_collected_at : option Z;
  r_keywords : option (list string)
}.

#[global] Instance row_eq_dec : EqDecision row.
Proof. solve_decision. Defined.

(** The libraries behind the scorer and the Spark stage.
    - [TextBlob_sentiment text] is [TextBlob(text).sentiment], polarity first,
      or the exception it raises;
    - [model_predict text] is the trained path of [predict_sentiment]
      (preprocess, vectorize, [predict], [predict_proba]): the predicted
      class and the three probabilities, or the exception raised;
    - [java_to_string v] is the text Spark stores when a value that is not a
      string is written to a [StringType] column;
    - [distinct rows] is the result of [distinct()] on a frame with these
      rows: one row of each group of rows equal in all columns, in an order
      that Spark chooses and that need not be the order of the input. *)
Class Externals := {
  TextBlob_sentiment : string → outcome (Q * Q);
  model_predict : string → outcome (Z * (Q * Q * Q));
  java_to_string : pyval → string;
  distinct : list row → list row;
  distinct_rows : ∀ rows, distinct rows ≡ₚ remove_dups rows
}.

(** The literal [0.1] is the double nearest to one tenth. Numbers are exact
    rationals; the doubles are among them, and comparison and absolute value
    are exact on doubles. *)
Definition float_0_1 : Q := 3602879701896397 # 36028797018963968.

Definition Qgt_bool (x y : Q) : bool := negb (Qle_bool x y).
Definition Qlt_bool (x y : Q) : bool := negb (Qle_bool y x).

Definition polarity_label (polarity : Q) : label :=
  if Qgt_bool polarity float_0_1 then positive
  else if Qlt_bool polarity (- float_0_1) then negative
  else neutral.

Definition textblob_sentiment `{Externals} (text : string) : outcome sentiment :=
  match TextBlob_sentiment text with
  | Raises e => Raises e
  | Returns (polarity, subjectivity) =>
      Returns {| s_label := polarity_label polarity;
                 s_polarity := Some polarity;
                 s_subjectivity := Some subjectivity;
                 s_confidence := Qabs polarity;
                 s_probabilities := None |}
  end.

(** [label_map[prediction]]; a class outside the map is a [KeyError]. *)
Definition label_map (prediction : Z) : outcome label :=
  if prediction =? 0 then Returns negative
  else if prediction =? 1 then Returns neutral
  else if prediction =? 2 then Returns positive
  else Raises (Exn false "KeyError" "prediction").

Definition predict_sentiment `{Externals} (trained : bool) (text : string)
    : outcome sentiment :=
  if negb trained then
    (* Fall back to TextBlob if no trained model *)
    textblob_sentiment text
  else
    match model_predict text with
    | Raises _ => textblob_sentiment text
    | Returns (prediction, (p_neg, p_neu, p_pos)) =>
        match label_map prediction with
        | Raises _ => textblob_sentiment text
        | Returns predicted_label =>
            Returns {| s_label := predicted_label;
                       s_polarity := None;
                       s_subjectivity := None;
                       s_confidence := Qmax (Qmax p_neg p_neu) p_pos;
                       s_probabilities := Some (p_neg, p_neu, p_pos) |}
        end
    end.

(** The scorer applied to a value read from a dictionary: anything but a
    string makes both paths raise. *)
Definition score_value `{Externals} (trained : bool) (text : pyval)
    : outcome sentiment :=
  match text with
  | PStr s => predict_sentiment trained s
  | _ => Raises (Exn false "TypeError" "The `text` argument passed to `__init__(text)` must be a string")
  end.

(** ** Records of the cycle *)

Record result_metadata := Metadata {
  m_author_id : pyval;
  m_likes : pyval;
  m_retweets : pyval;
  m_score : pyval
}.

(** One entry of [sentiment_results]. *)
Record sentiment_result := SentimentResult {
  post_id : pyval;
  sr_platform : pyval;
  sr_text : pyval;
  sr_created_at : pyval;
  sr_sentiment : sentiment;
  processed_at : Z;
  metadata : result_metadata
}.

(** What the pipeline does that the outside can see. Of the log lines only
    errors and warnings are recorded. *)
Inductive event :=
  | CycleStart
  | CycleEnd
  | Slept (seconds : Z)
  | InsertRawPosts (docs : list payload)       (* [raw_posts.insert_many] is called *)
  | InsertSentimentResults (docs : list sentiment_result)
  | SparkStop                                  (* [spark.stop()] is called *)
  | ClientClose                                (* [client.close()] is called *)
  | MongoConnect                               (* [MongoClient(...)] and ping *)
  | SparkCreate                                (* [SparkSession.builder...getOrCreate()] *)
  | StopRequested
  | Interrupted
  | LogError (message : string)
  | LogWarning (message : string).

(** The pipeline object with its components, the two collections of the
    database, and the events so far. [spark] and [client] tell whether the
    attribute holds an object ([if self.spark:]). *)
Record world := World {
  is_running : bool;
  spark : bool;
  client : bool;
  is_trained : bool;
  update_interval : Z;
  db_raw_posts : list payload;
  db_sentiment_results : list sentiment_result;
  events : list event
}.

Definition set_is_running (b : bool) (w : world) : world :=
  World b (spark w) (client w) (is_trained w) (update_interval w)
    (db_raw_posts w) (db_sentiment_results w) (events w).
Definition set_spark (b : bool) (w : world) : world :=
  World (is_running w) b (client w) (is_trained w) (update_interval w)
    (db_raw_posts w) (db_sentiment_results w) (events w).
Definition set_client (b : bool) (w : world) : world :=
  World (is_running w) (spark w) b (is_trained w) (update_interval w)
    (db_raw_posts w) (db_sentiment_results w) (events w).
Definition add_raw_posts (docs : list payload) (w : world) : world :=
  World (is_running w) (spark w) (client w) (is_trained w) (update_interval w)
    (db_raw_posts w ++ docs) (db_sentiment_results w) (events w).
Definition add_sentiment_results (docs : list sentiment_result) (w : world) : world :=
  World (is_running w) (spark w) (client w) (is_trained w) (update_interval w)
    (db_raw_posts w) (db_sentiment_results w ++ docs) (events w).
Definition add_event (ev : event) (w : world) : world :=
  World (is_running w) (spark w) (client w) (is_trained w) (update_interval w)
    (db_raw_posts w) (db_sentiment_results w) (events w ++ [ev]).

(** ** A state and exception monad

    A method runs on a world and either returns or raises; the world it
    leaves behind is kept in both cases, so that what a [try] body did
    before raising stays done. *)
Definition M (A : Type) : Type := world → outcome A * world.

#[global] Instance M_ret : MRet M := λ A a w, (Returns a, w).
#[global] Instance M_bind : MBind M := λ A B k m w,
  match m w with
  | (Returns a, w') => k a w'
  | (Raises e, w') => (Raises e, w')
  end.

Definition raise {A} (e : exn) : M A := λ w, (Raises e, w).

(** [try: body except Exception as e: handler e]. *)
Definition try_except {A} (body : M A) (handler : exn → M A) : M A := λ w,
  match body w with
  | (Returns a, w') => (Returns a, w')
  | (Raises e, w') => handler e w'
  end.

Definition emit (ev : event) : M unit := λ w, (Returns tt, add_event ev w).
Definition get {A} (f : world → A) : M A := λ w, (Returns (f w), w).
Definition modify (f : world → world) : M unit := λ w, (Returns tt, f w).

(** A library call that raises the given exception, if any. *)
Definition may_raise (e : option exn) : M unit :=
  match e with
  | Some e => raise e
  | None => mret tt
  end.

(** A pure computation that may raise. *)
Definition lift {A} (o : outcome A) : M A :=
  match o with
  | Returns a => mret a
  | Raises e => raise e
  end.

(** ** The outside world of one cycle *)

Record cycle_env := CycleEnv {
  (* [future.result(timeout=30)] of each collector: the posts, or the
     exception of the call or of the timeout *)
  twitter_future : outcome (list payload);
  reddit_future : outcome (list payload);
  youtube_future : outcome (list payload);
  (* a failure of the Spark session itself *)
  spark_error : option exn;
  (* [current_timestamp()] and [datetime.now()] *)
  spark_now : Z;
  now : Z;
  (* an [insert_many] that fails does so after writing that many documents *)
  raw_insert_error : option nat;
  result_insert_error : option nat
}.

#[global] Instance outcome_ret : MRet outcome := λ A a, Returns a.
#[global] Instance outcome_bind : MBind outcome := λ A B k o,
  match o with
  | Returns a => k a
  | Raises e => Raises e
  end.

(** [if l:] on a list. *)
Definition nonempty {A} (l : list A) : bool :=
  match l with [] => false | _ => true end.

(** ** [DataProcessor] *)

(** [createDataFrame(posts_data, schema=...)] reads each dictionary by the
    field names of the schema, a missing key giving null, and checks every
    value against the type of its column; a value of the wrong type raises.
    A [StringType] column takes any value and holds its text. *)
Definition string_col `{Externals} (v : option pyval) : option string :=
  match v with
  | None | Some PNone => None
  | Some (PStr s) => Some s
  | Some v => Some (java_to_string v)
  end.

Definition not_acceptable : exn :=
  Exn false "TypeError" "field can not accept object in type".
Definition out_of_range : exn :=
  Exn false "ValueError" "object of IntegerType out of range".

Definition integer_col (v : option pyval) : outcome (option Z) :=
  match v with
  | None | Some PNone => Returns None
  | Some (PInt n) =>
      if (-2147483648 <=? n) && (n <=? 2147483647) then Returns (Some n)
      else Raises out_of_range
  | Some _ => Raises not_acceptable
  end.

Definition timestamp_col (v : option pyval) : outcome (option Z) :=
  match v with
  | None | Some PNone => Returns None
  | Some (PTime t) => Returns (Some t)
  | Some _ => Raises not_acceptable
  end.

Definition array_col (v : option pyval) : outcome (option (list string)) :=
  match v with
  | None | Some PNone => Returns None
  | Some (PList l) => Returns (Some l)
  | Some _ => Raises not_acceptable
  end.

Definition to_row `{Externals} (post : payload) : outcome row :=
  created_at ← timestamp_col (post !! "created_at");
  likes ← integer_col (post !! "likes");
  retweets ← integer_col (post !! "retweets");
  collected_at ← timestamp_col (post !! "collected_at");
  keywords ← array_col (post !! "keywords");
  mret {| r_id := string_col (post !! "id");
          r_text := string_col (post !! "text");
          r_platform := string_col (post !! "platform");
          r_created_at := created_at;
          r_author_id := string_col (post !! "author_id");
          r_likes := likes;
          r_retweets := retweets;
          r_collected_at := collected_at;
          r_keywords := keywords |}.

Fixpoint createDataFrame `{Externals} (posts_data : list payload)
    : outcome (list row) :=
  match posts_data with
  | [] => mret []
  | post :: rest =>
      r ← to_row post;
      rows ← createDataFrame rest;
      mret (r :: rows)
  end.

(** [(col("text").isNotNull()) & (length(col("text")) > 10)]. Spark counts
    characters; a text is here a sequence of code points up to U+00FF, one
    to a character, and its length is their number. Texts with code points
    beyond U+00FF are outside the model. *)
Definition long_text (r : row) : bool :=
  match r_text r with
  | Some text => (10 <? String.length text)%nat
  | None => false
  end.

Fixpoint count_spaces (s : string) : Z :=
  match s with
  | EmptyString => 0
  | String c s' => (if Ascii.eqb c " " then 1 else 0) + count_spaces s'
  end.

Definition opt_str (o : option string) : pyval := from_option PStr PNone o.
Definition opt_int (o : option Z) : pyval := from_option PInt PNone o.
Definition opt_time (o : option Z) : pyval := from_option PTime PNone o.
Definition opt_list (o : option (list string)) : pyval := from_option PList PNone o.

(** The three added columns and [row.asDict()]. [text_length] and
    [word_count] are computed on rows that passed the filter, where [text]
    is not null. *)
Definition asDict (processing_time : Z) (r : row) : payload :=
  {[ "id" := opt_str (r_id r);
     "text" := opt_str (r_text r);
     "platform" := opt_str (r_platform r);
     "created_at" := opt_time (r_created_at r);
     "author_id" := opt_str (r_author_id r);
     "likes" := opt_int (r_likes r);
     "retweets" := opt_int (r_retweets r);
     "collected_at" := opt_time (r_collected_at r);
     "keywords" := opt_list (r_keywords r);
     "processing_time" := PTime processing_time;
     "text_length" := opt_int ((λ t, Z.of_nat (String.length t)) <$> r_text r);
     "word_count" := opt_int ((λ t, count_spaces t + 1) <$> r_text r) ]}.

(** The rows that leave the cleaning step. *)
Definition cleaned_df `{Externals} (df : list row) : list row :=
  distinct (filter (λ r, long_text r = true) df).

Definition process_batch_data `{Externals} (env : cycle_env)
    (posts_data : list payload) : M (list payload) :=
  try_except
    (if negb (nonempty posts_data) then mret []
     else
       may_raise (spark_error env);;
       df ← lift (createDataFrame posts_data);
       mret (asDict (spark_now env) <$> cleaned_df df))
    (λ e, emit (LogError "Error processing batch data");; mret []).

(** *** [aggregate_sentiment_stats]

    The module begins with [from pyspark.sql.functions import *], which
    rebinds the names [sum] and [round] of the module to the column
    functions of Spark. Both take a column or the name of one: applied to a
    Python list, or to a float, they raise. *)
Definition not_a_column : exn :=
  Exn false "TypeError" "Argument `col` should be a Column or str".

Definition pyspark_sum (values : list Z) : outcome Z := Raises not_a_column.

(** A percentage of the statistics: the integer 0, or the result of
    [round(count / total * 100, 2)], kept as its two operands. *)
Inductive percentage :=
  | ZeroPercent
  | Percent (count total : Z).

Definition pyspark_round (count total : Z) : outcome percentage := Raises not_a_column.

Record sentiment_stats := Stats {
  st_positive : percentage;
  st_neutral : percentage;
  st_negative : percentage;
  st_total : Z
}.

Definition zero_stats : sentiment_stats := Stats ZeroPercent ZeroPercent ZeroPercent 0.

(** [counts[label] += 1] on the dictionary of the three counters, positive,
    neutral, negative. *)
Definition count_label (counts : Z * Z * Z) (l : label) : Z * Z * Z :=
  let '(pos, neu, neg) := counts in
  match l with
  | positive => (pos + 1, neu, neg)
  | neutral => (pos, neu + 1, neg)
  | negative => (pos, neu, neg + 1)
  end.

(** [round(count / total * 100, 2) if total > 0 else 0]. *)
Definition percent_of (count total : Z) : outcome percentage :=
  if 0 <? total then pyspark_round count total else Returns ZeroPercent.

Definition aggregate_sentiment_stats (sentiment_results : list sentiment_result)
    : M sentiment_stats :=
  try_except
    (if negb (nonempty sentiment_results) then mret zero_stats
     else
       (* Count sentiments using simple Python *)
       let '(pos, neu, neg) :=
         foldl (λ counts result, count_label counts (s_label (sr_sentiment result)))
               (0, 0, 0) sentiment_results in
       total ← lift (pyspark_sum [pos; neu; neg]);
       p_pos ← lift (percent_of pos total);
       p_neu ← lift (percent_of neu total);
       p_neg ← lift (percent_of neg total);
       mret (Stats p_pos p_neu p_neg total))
    (λ e, emit (LogError "Error aggregating sentiment stats");; mret zero_stats).

(** ** [MongoDBClient] *)

Definition bulk_write_error : exn := Exn false "BulkWriteError" "batch op errors occurred".

Definition insert_many_raw_posts (env : cycle_env) (docs : list payload) : M nat :=
  emit (InsertRawPosts docs);;
  match raw_insert_error env with
  | None => modify (add_raw_posts docs);; mret (length docs)
  | Some written => modify (add_raw_posts (take written docs));; raise bulk_write_error
  end.

Definition insert_many_sentiment_results (env : cycle_env)
    (docs : list sentiment_result) : M nat :=
  emit (InsertSentimentResults docs);;
  match result_insert_error env with
  | None => modify (add_sentiment_results docs);; mret (length docs)
  | Some written =>
      modify (add_sentiment_results (take written docs));; raise bulk_write_error
  end.

(** The number returned is the length of the list of inserted ids. *)
Definition insert_raw_posts (env : cycle_env) (posts : list payload) : M nat :=
  try_except
    (if nonempty posts then insert_many_raw_posts env posts else mret 0%nat)
    (λ e, emit (LogError "Error inserting raw posts");; mret 0%nat).

Definition set_processed_at (t : Z) (r : sentiment_result) : sentiment_result :=
  {| post_id := post_id r; sr_platform := sr_platform r; sr_text := sr_text r;
     sr_created_at := sr_created_at r; sr_sentiment := sr_sentiment r;
     processed_at := t; metadata := metadata r |}.

Definition insert_sentiment_results (env : cycle_env)
    (results : list sentiment_result) : M nat :=
  try_except
    (if nonempty results then
       (* Add processing timestamp *)
       insert_many_sentiment_results env (set_processed_at (now env) <$> results)
     else mret 0%nat)
    (λ e, emit (LogError "Error inserting sentiment results");; mret 0%nat).

Definition stop_spark : M unit := λ w,
  if spark w then emit SparkStop w else (Returns tt, w).

Definition close_connection : M unit := λ w,
  if client w then emit ClientClose w else (Returns tt, w).

(** ** [RealTimePipeline] *)

Definition collect_data_from_all_sources (env : cycle_env) : M (list payload) :=
  let all_posts := [] in
  all_posts ← try_except
    (twitter_posts ← lift (twitter_future env); mret (all_posts ++ twitter_posts))
    (λ e, emit (LogError "Error collecting Twitter data");; mret all_posts);
  all_posts ← try_except
    (reddit_posts ← lift (reddit_future env); mret (all_posts ++ reddit_posts))
    (λ e, emit (LogError "Error collecting Reddit data");; mret all_posts);
  all_posts ← try_except
    (youtube_videos ← lift (youtube_future env); mret (all_posts ++ youtube_videos))
    (λ e, emit (LogError "Error collecting YouTube data");; mret all_posts);
  mret all_posts.

(** [post.get('text', '') or post.get('title', '') or post.get('description', '')]. *)
Definition text_of (post : payload) : pyval :=
  py_or (py_or (dict_get post "text" (PStr "")) (dict_get post "title" (PStr "")))
        (dict_get post "description" (PStr "")).

Definition result_of (processed_time : Z) (post : payload) (text : pyval)
    (s : sentiment) : sentiment_result :=
  {| post_id := dict_get post "id" PNone;
     sr_platform := dict_get post "platform" PNone;
     sr_text := text;
     sr_created_at := dict_get post "created_at" PNone;
     sr_sentiment := s;
     processed_at := processed_time;
     metadata :=
       {| m_author_id := py_or (dict_get post "author_id" PNone) (dict_get post "author" PNone);
          m_likes := dict_get post "likes" (PInt 0);
          m_retweets := dict_get post "retweets" (PInt 0);
          m_score := dict_get post "score" (PInt 0) |} |}.

(** [for post in cleaned_posts: ...]: the results appended so far, and the
    exception that ended the loop, if any. *)
Fixpoint sentiment_loop `{Externals} (trained : bool) (processed_time : Z)
    (cleaned_posts : list payload) (sentiment_results : list sentiment_result)
    : list sentiment_result * option exn :=
  match cleaned_posts with
  | [] => (sentiment_results, None)
  | post :: rest =>
      let text := text_of post in
      if truthy text then
        match score_value trained text with
        | Raises e => (sentiment_results, Some e)
        | Returns s =>
            sentiment_loop trained processed_time rest
              (sentiment_results ++ [result_of processed_time post text s])
        end
      else sentiment_loop trained processed_time rest sentiment_results
  end.

Definition process_sentiment_batch `{Externals} (env : cycle_env)
    (posts : list payload) : M (list sentiment_result) :=
  try_except
    ((* Use Spark for data preprocessing *)
     cleaned_posts ← process_batch_data env posts;
     trained ← get is_trained;
     let '(sentiment_results, error) :=
       sentiment_loop trained (now env) cleaned_posts [] in
     match error with
     | None => mret sentiment_results
     | Some e =>
         emit (LogError "Error processing sentiment batch");; mret sentiment_results
     end)
    (λ e, emit (LogError "Error processing sentiment batch");; mret []).

Definition store_results (env : cycle_env) (raw_posts : list payload)
    (sentiment_results : list sentiment_result) : M unit :=
  try_except
    ((* Store raw posts *)
     (if nonempty raw_posts then insert_raw_posts env raw_posts;; mret tt
      else mret tt);;
     (* Store sentiment results *)
     (if nonempty sentiment_results then
        insert_sentiment_results env sentiment_results;; mret tt
      else mret tt))
    (λ e, emit (LogError "Error storing results")).

(** The statistics feed an info-level log line only. *)
Definition run_single_cycle `{Externals} (env : cycle_env) : M unit :=
  try_except
    ((* Collect data from all sources *)
     raw_posts ← collect_data_from_all_sources env;
     if nonempty raw_posts then
       (* Process sentiment analysis *)
       sentiment_results ← process_sentiment_batch env raw_posts;
       (* Store results in database *)
       store_results env raw_posts sentiment_results;;
       (* Generate summary stats *)
       stats ← aggregate_sentiment_stats sentiment_results;
       mret tt
     else mret tt)
    (λ e, emit (LogError "Error in pipeline cycle")).

Definition stop_streaming : M unit :=
  modify (set_is_running false);;
  stop_spark;;
  close_connection.

(** *** The scheduler loop *)

(** Where a call of [stop_streaming] from outside the loop (the signal
    handler, another thread) falls within an iteration. *)
Inductive stop_point := NoStop | StopDuringCycle | StopDuringSleep.

#[global] Instance stop_point_eq_dec : EqDecision stop_point.
Proof. solve_decision. Defined.

(** The outside world of one iteration: that of its cycle, the time the
    cycle takes ([time.time() - cycle_start]), a stop request, and whether
    [KeyboardInterrupt] is raised in the cycle. Durations are exact numbers
    of clock ticks. *)
Record iteration_env := Iteration {
  cycle : cycle_env;
  cycle_duration : Z;
  stop_request : stop_point;
  keyboard_interrupt : bool
}.

Definition external_stop (here : stop_point) (it : iteration_env) : M unit :=
  if decide (stop_request it = here) then emit StopRequested;; stop_streaming
  else mret tt.

Inductive flow := Continue | Break.

(** The body of [while self.is_running:]. *)
Definition iteration `{Externals} (it : iteration_env) : M flow :=
  emit CycleStart;;
  external_stop StopDuringCycle it;;
  if keyboard_interrupt it then
    (* except KeyboardInterrupt: break *)
    emit Interrupted;; mret Break
  else
    try_except
      ((* Run one cycle *)
       run_single_cycle (cycle it);;
       emit CycleEnd;;
       (* Calculate sleep time to maintain interval *)
       interval ← get update_interval;
       let sleep_time := Z.max 0 (interval - cycle_duration it) in
       (if 0 <? sleep_time then emit (Slept sleep_time)
        else emit (LogWarning "Cycle took longer than interval"));;
       external_stop StopDuringSleep it;;
       mret Continue)
      (λ e,
        emit (LogError "Unexpected error in pipeline");;
        emit (Slept 5);;  (* Brief pause before retrying *)
        mret Continue).

(** The loop over a schedule of iterations. [None]: the loop is still
    running when the schedule ends. *)
Fixpoint streaming_loop `{Externals} (schedule : list iteration_env) (w : world)
    : option (outcome unit * world) :=
  if is_running w then
    match schedule with
    | [] => None
    | it :: rest =>
        match iteration it w with
        | (Returns Continue, w') => streaming_loop rest w'
        | (Returns Break, w') => Some (Returns tt, w')
        | (Raises e, w') => Some (Raises e, w')
        end
    end
  else Some (Returns tt, w).

Definition start_streaming `{Externals} (schedule : list iteration_env) (w : world)
    : option (outcome unit * world) :=
  match streaming_loop schedule (set_is_running true w) with
  | Some (Returns _, w') => Some (stop_streaming w')
  | Some (Raises e, w') => Some (Raises e, w')
  | None => None
  end.

(** *** Construction *)

(** The outside world of [RealTimePipeline()]: the exception, if any, raised
    by the client constructors of the three collectors, by the stop-word
    corpus of the text preprocessor, by [MongoClient(...)], by the ping, by
    index creation and by the Spark session builder. *)
Record init_env := InitEnv {
  tweepy_error : option exn;
  praw_error : option exn;
  googleapi_error : option exn;
  stopwords_error : option exn;
  mongo_client_error : option exn;
  ping_error : option exn;
  index_error : option exn;
  spark_session_error : option exn
}.

Definition set_update_interval (i : Z) (w : world) : world :=
  World (is_running w) (spark w) (client w) (is_trained w) i
    (db_raw_posts w) (db_sentiment_results w) (events w).
Definition set_is_trained (b : bool) (w : world) : world :=
  World (is_running w) (spark w) (client w) b (update_interval w)
    (db_raw_posts w) (db_sentiment_results w) (events w).

Definition setup_indexes (ie : init_env) : M unit :=
  try_except (may_raise (index_error ie))
    (λ e, emit (LogError "Error creating indexes")).

Definition connect (ie : init_env) : M unit :=
  try_except
    (emit MongoConnect;;
     may_raise (mongo_client_error ie);;
     modify (set_client true);;
     (* Test connection *)
     may_raise (ping_error ie);;
     setup_indexes ie)
    (λ e, emit (LogError "Failed to connect to MongoDB");; raise e).

Definition setup_spark (ie : init_env) : M unit :=
  try_except
    (emit SparkCreate;;
     may_raise (spark_session_error ie);;
     modify (set_spark true))
    (λ e, emit (LogError "Error setting up Spark");; raise e).

Definition UPDATE_INTERVAL : Z := 30.

Definition RealTimePipeline_init (ie : init_env) : M unit :=
  may_raise (tweepy_error ie);;       (* TwitterCollector() *)
  may_raise (praw_error ie);;         (* RedditCollector() *)
  may_raise (googleapi_error ie);;    (* YouTubeCollector() *)
  may_raise (stopwords_error ie);;    (* SentimentAnalyzer() *)
  modify (set_is_trained false);;
  modify (set_client false);; connect ie;;       (* MongoDBClient() *)
  modify (set_spark false);; setup_spark ie;;    (* DataProcessor() *)
  modify (set_is_running false);;
  modify (set_update_interval UPDATE_INTERVAL).

(** The world before construction, over a database with the given
    collections. *)
Definition unborn (raw : list payload) (results : list sentiment_result) : world :=
  World false false false false 0 raw results [].

(** ** Vocabulary of the properties *)

(** The attributes of the pipeline object that a cycle leaves alone. *)
Definition pipeline_fields (w : world) : bool * bool * bool * bool * Z :=
  (is_running w, spark w, client w, is_trained w, update_interval w).

(** [w'] is [w] after more events, the pipeline attributes unchanged. *)
Definition extends (w w' : world) (new : list event) : Prop :=
  pipeline_fields w' = pipeline_fields w ∧ events w' = events w ++ new.

Definition is_log (ev : event) : bool :=
  match ev with LogError _ => true | _ => false end.

(** The events a cycle can produce: storage calls and log lines. *)
Definition cycle_event (ev : event) : bool :=
  match ev with
  | InsertRawPosts _ | InsertSentimentResults _ | LogError _ => true
  | _ => false
  end.

(** The batches of posts and of results handed to storage. *)
Definition raw_batches (evs : list event) : list (list payload) :=
  omap (λ ev, match ev with InsertRawPosts docs => Some docs | _ => None end) evs.
Definition result_batches (evs : list event) : list (list sentiment_result) :=
  omap (λ ev, match ev with InsertSentimentResults docs => Some docs | _ => None end) evs.

(** The sleeps among the events, and their sum. *)
Definition sleeps (evs : list event) : list Z :=
  omap (λ ev, match ev with Slept d => Some d | _ => None end) evs.
Definition total_sleep (evs : list event) : Z := foldr Z.add 0 (sleeps evs).

Definition count (P : event → bool) (evs : list event) : nat :=
  length (filter (λ ev, P ev = true) evs).

Definition is_cycle_start (ev : event) : bool :=
  match ev with CycleStart => true | _ => false end.
Definition is_cycle_end (ev : event) : bool :=
  match ev with CycleEnd => true | _ => false end.
Definition is_spark_stop (ev : event) : bool :=
  match ev with SparkStop => true | _ => false end.
Definition is_client_close (ev : event) : bool :=
  match ev with ClientClose => true | _ => false end.
Definition is_stop_requested (ev : event) : bool :=
  match ev with StopRequested => true | _ => false end.

(** The events of a stop request that falls at [here] in an iteration
    started on [w]. *)
Definition stop_events (here : stop_point) (it : iteration_env) (w : world)
    : list event :=
  if decide (stop_request it = here)
  then StopRequested :: (if spark w then [SparkStop] else [])
                     ++ (if client w then [ClientClose] else [])
  else [].

(** The sleep or the warning that ends an iteration. *)
Definition pause (interval : Z) (it : iteration_env) : event :=
  let sleep_time := Z.max 0 (interval - cycle_duration it) in
  if 0 <? sleep_time then Slept sleep_time
  else LogWarning "Cycle took longer than interval".

(** An iteration with no stop request and no interrupt. *)
Definition undisturbed (it : iteration_env) : Prop :=
  stop_request it = NoStop ∧ keyboard_interrupt it = false.

(** The kinds of events that only the scheduler produces. *)
Definition scheduler_kind (P : event → bool) : Prop :=
  (∀ ev, cycle_event ev = true → P ev = false) ∧
  (∀ d, P (Slept d) = false) ∧
  (∀ m, P (LogWarning m) = false).

(** The sleeps of a loop over the given iterations under an interval, in
    order: for each iteration the rest of the interval, and none for an
    iteration whose cycle took the interval or longer. *)
Definition sleep_plan (interval : Z) (schedule : list iteration_env) : list Z :=
  omap (λ it, let sleep_time := Z.max 0 (interval - cycle_duration it) in
              if 0 <? sleep_time then Some sleep_time else None) schedule.

Definition is_mongo_connect (ev : event) : bool :=
  match ev with MongoConnect => true | _ => false end.
Definition is_spark_create (ev : event) : bool :=
  match ev with SparkCreate => true | _ => false end.

(** The first of the errors that construction does not catch, in the order
    in which the components are built. An error of index creation is
    caught by [setup_indexes] and is not among them. *)
Definition first_error (errors : list (option exn)) : option exn :=
  foldr (λ error later, match error with Some e => Some e | None => later end)
        None errors.

Definition construction_error (ie : init_env) : option exn :=
  first_error [tweepy_error ie; praw_error ie; googleapi_error ie;
               stopwords_error ie; mongo_client_error ie; ping_error ie;
               spark_session_error ie].

(** What a cycle collects, cleans and scores, as values. *)
Definition posts_of (future : outcome (list payload)) : list payload :=
  match future with Returns posts => posts | Raises _ => [] end.

Definition collected (env : cycle_env) : list payload :=
  posts_of (twitter_future env) ++ posts_of (reddit_future env)
    ++ posts_of (youtube_future env).

Definition cleaned `{Externals} (env : cycle_env) (posts : list payload) : list payload :=
  match posts, spark_error env, createDataFrame posts with
  | _ :: _, None, Returns df => asDict (spark_now env) <$> cleaned_df df
  | _, _, _ => []
  end.

Definition scored `{Externals} (env : cycle_env) (trained : bool)
    (posts : list payload) : list sentiment_result :=
  (sentiment_loop trained (now env) (cleaned env posts) []).1.

(** The identifier under which a post appears after the Spark stage. *)
Definition stored_id `{Externals} (post : payload) : pyval :=
  opt_str (string_col (post !! "id")).

(** ** Concrete inputs *)

(** An API on which every attempt ends in a [TooManyRequests] error. *)
Definition always_rate_limited (api : Z -> attempt_outcome) : Prop :=
  ∀ attempt, ∃ e, raised (api attempt) = Some e ∧ exn_rate_limited e = true.

Definition api_always_429 : Z -> attempt_outcome :=
  λ _, Attempt [] (Some (Exn true "TooManyRequests" "429 Too Many Requests")).

(** The message of an error names an authorization failure. *)
Definition auth_message (error : exn) : bool :=
  any_term_in auth_terms (lower (exn_msg error)).

Definition api_always_401 : Z -> attempt_outcome :=
  λ _, Attempt [] (Some (Exn false "Unauthorized" "401 Unauthorized")).

Definition proxy_error : exn :=
  Exn false "ProxyError" "Tunnel connection failed: 403 Forbidden".

(** A cycle in which every source answers with no post. *)
Definition quiet_cycle : cycle_env :=
  CycleEnv (Returns []) (Returns []) (Returns []) None 0 0 None None.

(** A cycle of 45 seconds, and cycles of 5 seconds during which, or after
    which, a stop is requested. *)
Definition overrun_iteration : iteration_env := Iteration quiet_cycle 45 NoStop false.
Definition stop_in_cycle : iteration_env := Iteration quiet_cycle 5 StopDuringCycle false.
Definition stop_in_sleep : iteration_env := Iteration quiet_cycle 5 StopDuringSleep false.

(** A constructed pipeline over an empty database, running or not yet. *)
Definition constructed_pipeline : world := World false true true false 30 [] [] [].
Definition running_pipeline : world := World true true true false 30 [] [] [].

(** Construction in which MongoDB answers and only the Spark session
    cannot be created. *)
Definition spark_unavailable : exn :=
  Exn false "Py4JJavaError" "An error occurred while calling None.org.apache.spark.api.java.JavaSparkContext".
Definition spark_down : init_env :=
  InitEnv None None None None None None None (Some spark_unavailable).

(** A Reddit submission and a YouTube video as the collectors build them. *)
Definition reddit_post (id text : string) (score : Z) : payload :=
  {[ "id" := PStr id;
     "title" := PStr "Show and tell";
     "text" := PStr text;
     "created_at" := PTime 1000;
     "author" := PStr "alice";
     "platform" := PStr "reddit";
     "subreddit" := PStr "python";
     "upvotes" := PInt score;
     "downvotes" := PInt 0;
     "score" := PInt score;
     "num_comments" := PInt 3;
     "collected_at" := PTime 2000;
     "keywords" := PList ["python"] ]}.

Definition youtube_video : payload :=
  {[ "id" := PStr "dQw4w9WgXcQ";
     "title" := PStr "Python tutorial for beginners";
     "description" := PStr "Learn Python in one hour";
     "channel" := PStr "Coding";
     "published_at" := PTime 900;
     "platform" := PStr "youtube";
     "collected_at" := PTime 2000;
     "keywords" := PList ["python"] ]}.

(** A cycle in which Reddit, or YouTube, answers with the given posts and
    nothing fails. *)
Definition reddit_cycle (posts : list payload) : cycle_env :=
  CycleEnv (Returns []) (Returns posts) (Returns []) None 3000 3000 None None.
Definition youtube_cycle (videos : list payload) : cycle_env :=
  CycleEnv (Returns []) (Returns []) (Returns videos) None 3000 3000 None None.

(** Two submissions with one identifier and different texts. *)
Definition post_love : payload := reddit_post "abc" "I love Python 3.10" 57.
Definition post_hate : payload := reddit_post "abc" "I hate Python 3.10" 57.

(** An 11-character submission and its row. *)
Definition post_t2 : payload := reddit_post "t2" "Python 3.10" 5.
Definition row_t2 : row :=
  Row (Some "t2") (Some "Python 3.10") (Some "reddit") (Some 1000) None None None
      (Some 2000) (Some ["python"]).

(** A concrete outside world: TextBlob finds every text mildly positive,
    no model is loaded, Spark prints integers in decimal and returns
    distinct rows in the order of their last occurrence. *)
Definition demo_externals : Externals := {|
  TextBlob_sentiment := λ _, Returns (1 # 2, 1 # 2)%Q;
  model_predict := λ _, Raises (Exn false "AttributeError" "'NoneType' object has no attribute 'transform'");
  java_to_string := λ v, match v with PInt n => pretty n | PStr s => s | _ => "object" end;
  distinct := remove_dups;
  distinct_rows := λ rows, Permutation_refl (remove_dups rows)
|}.

(** ** Further vocabulary: the fetch loop *)

(** The requests and the sleeps among the events of a fetch call. *)
Definition fetch_requests (evs : list fetch_event) : nat :=
  foldr (λ ev n, match ev with Request => S n | Sleep _ => n end) 0%nat evs.

Definition fetch_sleep (evs : list fetch_event) : Z :=
  foldr (λ ev total, match ev with Sleep d => d + total | Request => total end) 0 evs.

(** The payloads of the English tweets that one attempt yields. *)
Definition english_of (keywords : list string) (a : attempt_outcome) : list payload :=
  tweet_data keywords <$> filter (λ tw, english tw = true) (yielded a).

(** The range of Spark's [IntegerType]. *)
Definition in_int32 (n : Z) : Prop := -2147483648 ≤ n ≤ 2147483647.

(** An API whose first attempt yields a tweet and fails, and whose later
    attempts answer. *)
Definition api_fails_then_answers : Z → attempt_outcome := λ attempt,
  if attempt =? 0
  then Attempt [(Tweet 1 "first" 10 7 "en" ∅, 11)]
               (Some (Exn false "ConnectionError" "connection reset"))
  else Attempt [(Tweet 1 "first" 10 7 "en" ∅, 41); (Tweet 2 "zweiter" 12 8 "de" ∅, 42)]
               None.

(** An outside world in which TextBlob cannot load its corpora and no model
    is loaded. *)
Definition missing_corpus : exn :=
  Exn false "MissingCorpusError" "Looks like you are missing some required data for this feature".
Definition broken_externals : Externals := {|
  TextBlob_sentiment := λ _, Raises missing_corpus;
  model_predict := λ _, Raises (Exn false "AttributeError" "'NoneType' object has no attribute 'transform'");
  java_to_string := λ v, match v with PInt n => pretty n | PStr s => s | _ => "object" end;
  distinct := remove_dups;
  distinct_rows := λ rows, Permutation_refl (remove_dups rows)
|}.

(** The same outside world with a Spark that returns distinct rows in the
    reverse order. *)
Definition reversing_externals : Externals := {|
  TextBlob_sentiment := λ _, Returns (1 # 2, 1 # 2)%Q;
  model_predict := λ _, Raises (Exn false "AttributeError" "'NoneType' object has no attribute 'transform'");
  java_to_string := λ v, match v with PInt n => pretty n | PStr s => s | _ => "object" end;
  distinct := λ rows, reverse (remove_dups rows);
  distinct_rows := λ rows, reverse_Permutation (remove_dups rows)
|}.

(** ** Further vocabulary: the database *)

(** What an [insert_many] writes: the whole batch, or the documents before
    the failing one. *)
Definition written {A} (error : option nat) (docs : list A) : list A :=
  match error with
  | None => docs
  | Some n => take n docs
  end.

(** [w'] has the collections of [w] with the given documents added. *)
Definition db_grows (w w' : world) (posts : list payload)
    (results : list sentiment_result) : Prop :=
  db_raw_posts w' = db_raw_posts w ++ posts ∧
  db_sentiment_results w' = db_sentiment_results w ++ results.

(** ** Further concrete inputs *)

(** An outside world in which TextBlob fails on one text. *)
Definition moody_externals : Externals := {|
  TextBlob_sentiment := λ text,
    if String.eqb text "I hate Python 3.10" then Raises missing_corpus
    else Returns (1 # 2, 1 # 2)%Q;
  model_predict := λ _, Raises (Exn false "AttributeError" "'NoneType' object has no attribute 'transform'");
  java_to_string := λ v, match v with PInt n => pretty n | PStr s => s | _ => "object" end;
  distinct := remove_dups;
  distinct_rows := λ rows, Permutation_refl (remove_dups rows)
|}.

(** Three submissions with different identifiers, and the rows of the
    first two and of all three in the order in which they are scored. *)
Definition post_a : payload := reddit_post "a1" "I love Python 3.10" 3.
Definition post_b : payload := reddit_post "b2" "I hate Python 3.10" 4.
Definition post_c : payload := reddit_post "c3" "Python 3.10 is out" 5.
Definition row_of_reddit (id text : string) : row :=
  Row (Some id) (Some text) (Some "reddit") (Some 1000) None None None
      (Some 2000) (Some ["python"]).
Definition row_a : row := row_of_reddit "a1" "I love Python 3.10".
Definition row_b : row := row_of_reddit "b2" "I hate Python 3.10".
Definition row_c : row := row_of_reddit "c3" "Python 3.10 is out".

(** A tweet liked three billion times, and a cycle in which Twitter answers
    with it and Reddit with one submission. *)
Definition viral_tweet : payload :=
  tweet_data ["python"]
    (Tweet 99 "Python 3.10 is out today" 1000 7 "en" {[ "like_count" := 3000000000 ]}, 2000).
Definition viral_cycle : cycle_env :=
  CycleEnv (Returns [viral_tweet]) (Returns [post_a]) (Returns []) None 3000 3000 None None.

(** A cycle in which only Twitter answers, the other sources failing. *)
Definition source_down : exn := Exn false "ConnectionError" "connection refused".
Definition twitter_only (posts : list payload) : cycle_env :=
  CycleEnv (Returns posts) (Raises source_down) (Raises source_down) None 3000 3000 None None.

Definition is_interrupted (ev : event) : bool :=
  match ev with Interrupted => true | _ => false end.

(** A cycle during which [KeyboardInterrupt] is raised. *)
Definition interrupted_iteration : iteration_env := Iteration quiet_cycle 5 NoStop true.

(** Construction in which only index creation fails, and in which MongoDB
    does not answer the ping. *)
Definition index_failure : init_env :=
  InitEnv None None None None None None
          (Some (Exn false "OperationFailure" "not authorized to create index")) None.
Definition mongo_down : init_env :=
  InitEnv None None None None None
          (Some (Exn false "ServerSelectionTimeoutError" "connection refused")) None None.

(** ** [ErrorHandler]: counters and summary *)

(** An entry of [last_errors]. The clock is read in seconds, as an exact
    number. *)
Record error_record := ErrorRecord {
  er_timestamp : Q;
  er_error : string;
  er_traceback : string
}.

(** The two dictionaries of the handler. *)
Record handler_state := Handler {
  error_counts : gmap string Z;
  last_errors : gmap string error_record
}.

Definition new_handler : handler_state := Handler ∅ ∅.

(** [f"{api_name}_{type(error).__name__}"]. *)
Definition error_key (api_name : string) (error : exn) : string :=
  api_name +:+ "_" +:+ exn_name error.

(** The dictionary returned by [handle_api_error]. *)
Record api_error := ApiError {
  ae_success : bool;
  ae_error : string;
  ae_api : string;
  ae_should_retry : bool;
  ae_error_count : Z
}.

(** [handle_api_error], at clock reading [now] and with [traceback] the text
    of [traceback.format_exc()]. *)
Definition handle_api_error (now : Q) (traceback : string) (api_name : string)
    (error : exn) (h : handler_state) : api_error * handler_state :=
  let key := error_key api_name error in
  (* Track error frequency *)
  let counts := <[key := default 0 (error_counts h !! key) + 1]> (error_counts h) in
  let last := <[key := ErrorRecord now (exn_msg error) traceback]> (last_errors h) in
  (* Determine if we should retry *)
  let should_retry := _should_retry error (default 0 (counts !! key)) in
  (ApiError false (exn_msg error) api_name should_retry (default 0 (counts !! key)),
   Handler counts last).

Definition reset_error_counts (h : handler_state) : handler_state := Handler ∅ ∅.

(** An entry of the summary. *)
Record summary_entry := SummaryEntry {
  se_count : Z;
  se_last_occurrence : Q;
  se_error_message : string
}.

(** [get_error_summary] at clock reading [now]: only the errors of the last
    hour. *)
Definition get_error_summary (now : Q) (h : handler_state) : gmap string summary_entry :=
  map_imap (λ key info,
      if Qlt_bool (now - er_timestamp info) 3600
      then Some (SummaryEntry (default 0 (error_counts h !! key))
                              (er_timestamp info) (er_error info))
      else None)
    (last_errors h).

(** One call of [handle_api_error] with its clock reading and traceback,
    and a sequence of calls on a handler. *)
Record report := Report {
  rp_now : Q;
  rp_traceback : string;
  rp_api : string;
  rp_error : exn
}.

Definition handle_report (h : handler_state) (r : report) : handler_state :=
  (handle_api_error (rp_now r) (rp_traceback r) (rp_api r) (rp_error r) h).2.

Definition handle_reports (h : handler_state) (rs : list report) : handler_state :=
  foldl handle_report h rs.

(** The number of reports filed under a key. *)
Definition reports_under (key : string) (rs : list report) : nat :=
  length (filter (λ r, error_key (rp_api r) (rp_error r) = key) rs).

Definition timeout_error : exn := Exn false "Timeout" "Read timeout".
Definition twitter_timeout (now : Q) : report := Report now "" "twitter" timeout_error.

(** ** [RedditCollector.collect_posts] *)

(** A submission as a search yields it; [sub_author] is the name of the
    author, absent for a deleted account. *)
Record submission := Submission {
  sub_id : string;
  sub_title : string;
  sub_selftext : string;
  sub_created_utc : Z;
  sub_author : option string;
  sub_ups : Z;
  sub_downs : Z;
  sub_score : Z;
  sub_num_comments : Z
}.

(** One search of a subreddit: the submissions it yields, each with the
    clock reading when it is handled, and the exception that ends it. *)
Record search_outcome := Search {
  found : list (submission * Z);
  search_raised : option exn
}.

Definition post_data (subreddit_name : string) (keywords : list string)
    (s : submission * Z) : payload :=
  {[ "id" := PStr (sub_id s.1);
     "title" := PStr (sub_title s.1);
     "text" := PStr (sub_selftext s.1);
     "created_at" := PTime (sub_created_utc s.1);
     "author" := PStr (default "[deleted]" (sub_author s.1));
     "platform" := PStr "reddit";
     "subreddit" := PStr subreddit_name;
     "upvotes" := PInt (sub_ups s.1);
     "downvotes" := PInt (sub_downs s.1);
     "score" := PInt (sub_score s.1);
     "num_comments" := PInt (sub_num_comments s.1);
     "collected_at" := PTime s.2;
     "keywords" := PList keywords ]}.

(** [for keyword in keywords:] within one subreddit. [search] is
    [subreddit.search(keyword, limit=...)]; the loop ends at the first
    exception, which the caller catches. *)
Fixpoint keyword_loop (search : string → string → Z → search_outcome)
    (subreddit_name : string) (all_keywords : list string) (limit : Z)
    (keywords : list string) (posts_data : list payload)
    : list payload * option exn :=
  match keywords with
  | [] => (posts_data, None)
  | keyword :: rest =>
      let r := search subreddit_name keyword
                 (limit `div` Z.of_nat (length all_keywords)) in
      let posts_data :=
        posts_data ++ (post_data subreddit_name all_keywords <$> found r) in
      match search_raised r with
      | Some e => (posts_data, Some e)
      | None => keyword_loop search subreddit_name all_keywords limit rest posts_data
      end
  end.

(** [for subreddit_name in subreddits:]. *)
Fixpoint subreddit_loop (search : string → string → Z → search_outcome)
    (keywords : list string) (limit : Z) (subreddits : list string)
    (posts_data : list payload) : list payload * option exn :=
  match subreddits with
  | [] => (posts_data, None)
  | subreddit_name :: rest =>
      match keyword_loop search subreddit_name keywords limit keywords posts_data with
      | (posts_data, Some e) => (posts_data, Some e)
      | (posts_data, None) => subreddit_loop search keywords limit rest posts_data
      end
  end.

(** The posts returned, and the exception that was caught and logged. *)
Definition collect_posts (search : string → string → Z → search_outcome)
    (subreddits keywords : list string) (limit : Z) : list payload * option exn :=
  subreddit_loop search keywords limit subreddits [].

(** The searches of a call in the order in which the loops make them, each
    with the posts it yields. *)
Definition searches_of (search : string → string → Z → search_outcome)
    (subreddits keywords : list string) (limit : Z)
    : list (list payload * option exn) :=
  subreddit_name ← subreddits;
  keyword ← keywords;
  let r := search subreddit_name keyword (limit `div` Z.of_nat (length keywords)) in
  [(post_data subreddit_name keywords <$> found r, search_raised r)].

(** The posts of a sequence of searches up to and including the first one
    that raises. *)
Fixpoint until_error (searches : list (list payload * option exn))
    : list payload * option exn :=
  match searches with
  | [] => ([], None)
  | (posts, Some e) :: _ => (posts, Some e)
  | (posts, None) :: rest =>
      (posts ++ (until_error rest).1, (until_error rest).2)
  end.


(** A search that yields one submission, the same for every query, and one
    that fails in the subreddit "MachineLearning". *)
Definition a_submission : submission :=
  Submission "s1" "Show and tell" "I love Python 3.10" 1000 None 3 0 3 1.
Definition search_fails_in_ml : string → string → Z → search_outcome :=
  λ subreddit_name _ _,
    if String.eqb subreddit_name "MachineLearning"
    then Search [] (Some (Exn false "Forbidden" "received 403 HTTP response"))
    else Search [(a_submission, 2000)] None.

(** ** [YouTubeCollector.search_videos] *)

(** A search result with the fields the adapter reads; [vi_publishedAt] is
    the parsed date. *)
Record video_item := VideoItem {
  vi_videoId : string;
  vi_title : string;
  vi_description : string;
  vi_channelTitle : string;
  vi_publishedAt : Z
}.

Definition video_data (keywords : list string) (v : video_item * Z) : payload :=
  {[ "id" := PStr (vi_videoId v.1);
     "title" := PStr (vi_title v.1);
     "description" := PStr (vi_description v.1);
     "channel" := PStr (vi_channelTitle v.1);
     "published_at" := PTime (vi_publishedAt v.1);
     "platform" := PStr "youtube";
     "collected_at" := PTime v.2;
     "keywords" := PList keywords ]}.

(** [for item in search_response['items']:]. An item is the fields read from
    it with the clock reading when it is handled, or the exception raised
    while reading it (a missing key, a date that does not parse). *)
Fixpoint video_loop (keywords : list string)
    (items : list (outcome (video_item * Z))) (videos_data : list payload)
    : list payload * option exn :=
  match items with
  | [] => (videos_data, None)
  | Raises e :: _ => (videos_data, Some e)
  | Returns v :: rest =>
      video_loop keywords rest (videos_data ++ [video_data keywords v])
  end.

(** [search_videos] on the outcome of the request: the videos returned, and
    the exception that was caught and logged. *)
Definition search_videos (response : outcome (list (outcome (video_item * Z))))
    (keywords : list string) : list payload * option exn :=
  match response with
  | Raises e => ([], Some e)
  | Returns items => video_loop keywords items []
  end.

(** A response of two videos, and a cycle in which only YouTube answers,
    with the videos of that response. *)
Definition two_videos : outcome (list (outcome (video_item * Z))) :=
  Returns [Returns (VideoItem "dQw4w9WgXcQ" "Python tutorial for beginners"
                      "Learn Python in one hour" "Coding" 900, 2000);
           Returns (VideoItem "o9pEzgHorH0" "Stop writing classes"
                      "A talk about Python" "PyCon" 910, 2001)].
Definition videos_cycle : cycle_env :=
  CycleEnv (Raises source_down) (Returns [])
           (Returns (search_videos two_videos ["python"]).1) None 3000 3000 None None.

(** ** [TextPreprocessor.clean_text] *)

(** The classes [\s] and [\w] of the regular expressions, and the letters
    [a-z] and [a-zA-Z], on the code points U+0000..U+00FF. *)
Definition is_space (c : ascii) : bool :=
  let n := nat_of_ascii c in
  ((9 <=? n) && (n <=? 13) || (28 <=? n) && (n <=? 32) || (n =? 133) || (n =? 160))%nat.

Definition is_lower_letter (c : ascii) : bool :=
  let n := nat_of_ascii c in ((97 <=? n) && (n <=? 122))%nat.

Definition is_upper_letter (c : ascii) : bool :=
  let n := nat_of_ascii c in ((65 <=? n) && (n <=? 90))%nat.

Definition is_letter (c : ascii) : bool := is_lower_letter c || is_upper_letter c.

Definition is_word (c : ascii) : bool :=
  let n := nat_of_ascii c in
  ((48 <=? n) && (n <=? 57) || is_letter c || (n =? 95)
   || (n =? 170) || (n =? 178) || (n =? 179) || (n =? 181) || (n =? 185) || (n =? 186)
   || (188 <=? n) && (n <=? 190) || (192 <=? n) && (n <=? 214)
   || (216 <=? n) && (n <=? 246) || (248 <=? n))%nat.

(** [prefix] then one character that is not a space: where [prefix\S+]
    matches. *)
Fixpoint matches_prefix_nonspace (prefix s : string) : bool :=
  match prefix, s with
  | EmptyString, String c _ => negb (is_space c)
  | String a prefix', String b s' => Ascii.eqb a b && matches_prefix_nonspace prefix' s'
  | _, EmptyString => false
  end.

(** Where [http\S+|www\S+|https\S+] matches. *)
Definition url_starts (s : string) : bool :=
  matches_prefix_nonspace "http" s || matches_prefix_nonspace "www" s
  || matches_prefix_nonspace "https" s.

(** [re.sub(r'http\S+|www\S+|https\S+', '', text)], scanning from the left;
    [in_match] tells that the characters read belong to a match, which goes
    on to the next space. *)
Fixpoint remove_urls (in_match : bool) (s : string) : string :=
  match s with
  | EmptyString => EmptyString
  | String c s' =>
      if in_match && negb (is_space c) then remove_urls true s'
      else if url_starts s then remove_urls true s'
      else String c (remove_urls false s')
  end.

(** Where [@\w+|#\w+] matches. *)
Definition mention_starts (s : string) : bool :=
  match s with
  | String c (String d _) =>
      (Ascii.eqb c "@" || Ascii.eqb c "#") && is_word d
  | _ => false
  end.

(** [re.sub(r'@\w+|#\w+', '', text)]. *)
Fixpoint remove_mentions (in_match : bool) (s : string) : string :=
  match s with
  | EmptyString => EmptyString
  | String c s' =>
      if in_match && is_word c then remove_mentions true s'
      else if mention_starts s then remove_mentions true s'
      else String c (remove_mentions false s')
  end.

(** [re.sub(r'[^a-zA-Z\s]', '', text)]. *)
Fixpoint remove_special (s : string) : string :=
  match s with
  | EmptyString => EmptyString
  | String c s' =>
      if is_letter c || is_space c then String c (remove_special s')
      else remove_special s'
  end.

(** [text.split()]: the maximal runs of characters that are not spaces;
    [word] is the run being read. *)
Fixpoint split_from (word s : string) : list string :=
  match s with
  | EmptyString => match word with EmptyString => [] | _ => [word] end
  | String c s' =>
      if is_space c then
        match word with
        | EmptyString => split_from EmptyString s'
        | _ => word :: split_from EmptyString s'
        end
      else split_from (word +:+ String c EmptyString) s'
  end.

Definition split (s : string) : list string := split_from EmptyString s.

(** [sep.join(words)]. *)
Fixpoint join (sep : string) (words : list string) : string :=
  match words with
  | [] => EmptyString
  | [word] => word
  | word :: rest => word +:+ sep +:+ join sep rest
  end.

Definition clean_text (text : string) : string :=
  if String.eqb text "" then ""
  else
    (* Convert to lowercase *)
    let text := lower text in
    (* Remove URLs *)
    let text := remove_urls false text in
    (* Remove user mentions and hashtags *)
    let text := remove_mentions false text in
    (* Remove special characters and numbers *)
    let text := remove_special text in
    (* Remove extra whitespace *)
    join " " (split text).

(** Every character of a string satisfies a test. *)
Fixpoint all_chars (P : ascii → bool) (s : string) : bool :=
  match s with
  | EmptyString => true
  | String c s' => P c && all_chars P s'
  end.

(** A word of the result: not empty, lowercase letters only. *)
Definition clean_word (word : string) : Prop :=
  word ≠ "" ∧ all_chars is_lower_letter word = true.

(** ** [PerformanceMonitor] *)

(** An entry of [processing_times]. *)
Record timing := Timing {
  tm_operation : string;
  tm_duration : Q;
  tm_timestamp : Z
}.

(** [log_processing_time] at clock reading [now], on the list
    [self.processing_times]. *)
Definition log_processing_time (operation : string) (start_time end_time : Q)
    (now : Z) (processing_times : list timing) : list timing :=
  let processing_times :=
    processing_times ++ [Timing operation (end_time - start_time) now] in
  (* Keep only last 100 measurements *)
  if (100 <? length processing_times)%nat
  then drop (length processing_times - 100) processing_times
  else processing_times.

(** One call of [log_processing_time], the entry it appends, and a sequence
    of calls on a fresh monitor. *)
Record timing_call := TimingCall {
  tc_operation : string;
  tc_start : Q;
  tc_end : Q;
  tc_now : Z
}.

Definition timing_of (c : timing_call) : timing :=
  Timing (tc_operation c) (tc_end c - tc_start c) (tc_now c).

Definition log_call (processing_times : list timing) (c : timing_call) : list timing :=
  log_processing_time (tc_operation c) (tc_start c) (tc_end c) (tc_now c)
    processing_times.

Definition log_calls (calls : list timing_call) : list timing :=
  foldl log_call [] calls.

(** The metrics read by [check_system_health]: percentages of CPU, memory
    and disk in use. *)
Record system_metrics := Metrics {
  cpu_percent : Q;
  memory_percent : Q;
  disk_usage : Q
}.

(** A line of [issues] or [warnings]: the text before the number, and the
    number that is printed after it. *)
Record health_line := HealthLine {
  hl_text : string;
  hl_value : Q
}.

Inductive health_status := healthy | warning | critical | health_error.

Record health := Health {
  h_status : health_status;
  h_message : string;
  h_issues : list health_line;
  h_warnings : list health_line
}.

(** One of the three checks: an issue above [high], else a warning above
    [elevated]. *)
Definition check_usage (name : string) (value high elevated : Q)
    (lists : list health_line * list health_line)
    : list health_line * list health_line :=
  if Qgt_bool value high
  then (lists.1 ++ [HealthLine ("High " +:+ name +:+ " usage: ") value], lists.2)
  else if Qgt_bool value elevated
  then (lists.1, lists.2 ++ [HealthLine ("Elevated " +:+ name +:+ " usage: ") value])
  else lists.

(** [check_system_health] on the metrics that [get_system_metrics] returned,
    [None] when it failed. *)
Definition check_system_health (metrics : option system_metrics) : health :=
  match metrics with
  | None => Health health_error "Unable to get system metrics" [] []
  | Some metrics =>
      let lists := ([], []) in
      (* Check CPU usage *)
      let lists := check_usage "CPU" (cpu_percent metrics) 90 75 lists in
      (* Check memory usage *)
      let lists := check_usage "memory" (memory_percent metrics) 90 75 lists in
      (* Check disk usage *)
      let lists := check_usage "disk" (disk_usage metrics) 95 85 lists in
      let '(issues, warnings) := lists in
      if nonempty issues then
        Health critical "System has critical issues" issues warnings
      else if nonempty warnings then
        Health warning "System has performance warnings" issues warnings
      else Health healthy "System is running normally" issues warnings
  end.

(** ** [SentimentAnalysisApp.run_pipeline_only]

    The pipeline mode of [main]. The application object is fresh, as [main]
    builds it: [self.pipeline] is [None], and is bound only when the
    constructor of the pipeline returns. [KeyboardInterrupt] is raised in a
    cycle, where the loop catches it, so that the clause
    [except KeyboardInterrupt] of this method is not entered. *)
Definition handle_processing_error (stage : string) : M unit :=
  emit (LogError ("Processing Error in " +:+ stage)).

Definition run_pipeline_only `{Externals} (ie : init_env)
    (schedule : list iteration_env) (w : world) : option (outcome unit * world) :=
  match RealTimePipeline_init ie w with
  | (Returns _, w1) =>
      match start_streaming schedule w1 with
      | Some (Returns _, w2) =>
          (* finally: if self.pipeline: self.pipeline.stop_streaming() *)
          Some (stop_streaming w2)
      | Some (Raises e, w2) =>
          Some ((emit (LogError "Error running pipeline");;
                 handle_processing_error "pipeline_startup";;
                 stop_streaming) w2)
      | None => None
      end
  | (Raises e, w1) =>
      (* [self.pipeline] is still [None]: the [finally] clause stops nothing *)
      Some ((emit (LogError "Error running pipeline");;
             handle_processing_error "pipeline_startup") w1)
  end.

(** Construction in which every step succeeds. *)
Definition all_up : init_env := InitEnv None None None None None None None None.

(** Whether construction got as far as binding [self.client]: the
    collectors and the analyzer were built and [MongoClient(...)] returned. *)
Definition connection_opened (ie : init_env) : bool :=
  match first_error [tweepy_error ie; praw_error ie; googleapi_error ie;
                     stopwords_error ie; mongo_client_error ie] with
  | None => true
  | Some _ => false
  end.

(* ================================================================== *)
(** * Properties *)

(** ** Retry and backoff *)

Lemma attempts_unfold : seqZ 0 max_retries = [0; 1; 2].
Proof. reflexivity. Qed.

(** One step of the loop on a rate-limit error, before the last attempt. *)
Lemma attempt_loop_rate_limited api keywords attempt rest data backoff events e :
  raised (api attempt) = Some e →
  exn_rate_limited e = true →
  (attempt <? max_retries - 1) = true →
  attempt_loop api keywords (attempt :: rest) data backoff events =
  attempt_loop api keywords rest
    (data ++ (tweet_data keywords <$> filter (λ tw, english tw = true) (yielded (api attempt))))
    (backoff * 2) ((events ++ [Request]) ++ [Sleep backoff]).
Proof. intros Hr Hl Hlt. cbn [attempt_loop]. by rewrite Hr, Hl, Hlt. Qed.

(** One step of the loop on any other error, before the last attempt. *)
Lemma attempt_loop_other_error api keywords attempt rest data backoff events e :
  raised (api attempt) = Some e →
  exn_rate_limited e = false →
  (attempt <? max_retries - 1) = true →
  attempt_loop api keywords (attempt :: rest) data backoff events =
  attempt_loop api keywords rest
    (data ++ (tweet_data keywords <$> filter (λ tw, english tw = true) (yielded (api attempt))))
    backoff ((events ++ [Request]) ++ [Sleep (Z.min backoff 30)]).
Proof. intros Hr Hl Hlt. cbn [attempt_loop]. by rewrite Hr, Hl, Hlt. Qed.

(** The last attempt: whatever the error, the call returns the empty list. *)
Lemma attempt_loop_last api keywords attempt rest data backoff events e :
  raised (api attempt) = Some e →
  (attempt <? max_retries - 1) = false →
  attempt_loop api keywords (attempt :: rest) data backoff events =
  ([], events ++ [Request]).
Proof.
  intros Hr Hlt. cbn [attempt_loop]. rewrite Hr, Hlt.
  by destruct (exn_rate_limited e).
Qed.

(** Every loop step adds to the events, never removes. *)
Lemma attempt_loop_events_extend api keywords attempts :
  ∀ data backoff events,
    ∃ more, (attempt_loop api keywords attempts data backoff events).2 = events ++ more.
Proof.
  induction attempts as [|attempt rest IH]; intros data backoff events.
  - exists []. by rewrite app_nil_r.
  - cbn [attempt_loop].
    destruct (raised (api attempt)) as [e|]; [|by eexists].
    destruct (exn_rate_limited e), (attempt <? max_retries - 1);
      try (by eexists; rewrite <- ?app_assoc).
    + edestruct IH as [more ->]. eexists. by rewrite <- !app_assoc.
    + edestruct IH as [more ->]. eexists. by rewrite <- !app_assoc.
Qed.

(** A loop with an attempt left sends a request first. *)
Lemma attempt_loop_events_request api keywords attempt rest data backoff events :
  ∃ more, (attempt_loop api keywords (attempt :: rest) data backoff events).2
          = events ++ Request :: more.
Proof.
  cbn [attempt_loop].
  destruct (raised (api attempt)) as [e|]; [|by exists []].
  destruct (exn_rate_limited e), (attempt <? max_retries - 1);
    try (by exists []);
    edestruct attempt_loop_events_extend as [more ->];
    eexists; by rewrite <- !app_assoc.
Qed.

(** C1. When every attempt of a fetch call ends in a rate-limit error, the
    adapter makes exactly three requests, sleeps 60 seconds before the second
    and 120 seconds before the third, and after the third failure returns the
    empty list: there is no fourth request and nothing is raised. *)
Theorem collect_tweets_rate_limit_exhaustion api keywords :
  always_rate_limited api →
  collect_tweets api keywords =
  ([], [Request; Sleep 60; Request; Sleep 120; Request]).
Proof.
  intros Hall. unfold collect_tweets. rewrite attempts_unfold.
  destruct (Hall 0) as (e0 & H0 & L0), (Hall 1) as (e1 & H1 & L1),
    (Hall 2) as (e2 & H2 & _).
  rewrite (attempt_loop_rate_limited _ _ _ _ _ _ _ e0) by done.
  rewrite (attempt_loop_rate_limited _ _ _ _ _ _ _ e1) by done.
  by rewrite (attempt_loop_last _ _ _ _ _ _ _ e2) by done.
Qed.

(** The exhaustion theorem at an API that always answers 429. *)
Lemma collect_tweets_rate_limit_exhaustion_witness :
  always_rate_limited api_always_429 ∧
  collect_tweets api_always_429 ["python"; "AI"] =
  ([], [Request; Sleep 60; Request; Sleep 120; Request]).
Proof.
  assert (H : always_rate_limited api_always_429)
    by (intros attempt; eexists; split; reflexivity).
  split; [exact H | exact (collect_tweets_rate_limit_exhaustion _ _ H)].
Defined.

(** C2, as stated, fails. An "unauthorized" failure of the first attempt is
    followed by a 30 second wait and two more requests, since the fetch loop
    retries every exception without consulting the policy; and the policy
    itself answers "retry" for a message that names both a network term and
    an authorization term, the network test coming first. *)
Lemma auth_error_is_retried :
  auth_message (Exn false "Unauthorized" "401 Unauthorized") = true ∧
  collect_tweets api_always_401 ["python"] =
    ([], [Request; Sleep 30; Request; Sleep 30; Request]) ∧
  auth_message proxy_error = true ∧
  _should_retry proxy_error 1 = true.
Proof. repeat split; vm_compute; reflexivity. Qed.

(** C2, amended. An error whose message names an authorization term and no
    network or rate-limit term is non-retryable for the policy at every
    error count. The fetch loop does not ask the policy: when such an error
    (not a [TooManyRequests]) ends the first attempt, the adapter sleeps 30
    seconds and sends another request. *)
Theorem auth_error_policy_and_fetch_loop api keywords error error_count :
  auth_message error = true →
  any_term_in network_terms (lower (exn_msg error)) = false →
  any_term_in rate_limit_terms (lower (exn_msg error)) = false →
  raised (api 0) = Some error →
  exn_rate_limited error = false →
  _should_retry error error_count = false ∧
  ∃ more, (collect_tweets api keywords).2 = [Request; Sleep 30; Request] ++ more.
Proof.
  intros Hauth Hnet Hrate Hraised Hclass. split.
  - unfold _should_retry. unfold auth_message in Hauth.
    rewrite Hnet, Hrate, Hauth. by destruct (error_count >? 5).
  - unfold collect_tweets. rewrite attempts_unfold.
    rewrite (attempt_loop_other_error _ _ _ _ _ _ _ error) by done.
    edestruct attempt_loop_events_request as [more ->].
    exists more. by change (Z.min 60 30) with 30.
Qed.

(** The same at an API that always answers 401. *)
Lemma auth_error_policy_and_fetch_loop_witness :
  _should_retry (Exn false "Unauthorized" "401 Unauthorized") 1 = false ∧
  ∃ more, (collect_tweets api_always_401 ["python"]).2 =
          [Request; Sleep 30; Request] ++ more.
Proof.
  apply (auth_error_policy_and_fetch_loop api_always_401 ["python"]
           (Exn false "Unauthorized" "401 Unauthorized") 1); reflexivity.
Defined.

(** ** Heuristic scoring *)

Lemma Qgt_bool_spec x y : Qgt_bool x y = true ↔ (y < x)%Q.
Proof.
  unfold Qgt_bool. rewrite negb_true_iff, <- not_true_iff_false, Qle_bool_iff.
  split; [apply Qnot_le_lt | apply Qlt_not_le].
Qed.

Lemma Qlt_bool_spec x y : Qlt_bool x y = true ↔ (x < y)%Q.
Proof. unfold Qlt_bool. apply (Qgt_bool_spec y x). Qed.

Lemma polarity_label_positive p : (float_0_1 < p)%Q → polarity_label p = positive.
Proof. intros Hp. unfold polarity_label. by rewrite (proj2 (Qgt_bool_spec _ _) Hp). Qed.

Lemma polarity_label_negative p : (p < - float_0_1)%Q → polarity_label p = negative.
Proof.
  intros Hp. unfold polarity_label.
  destruct (Qgt_bool p float_0_1) eqn:Hgt.
  - apply Qgt_bool_spec in Hgt. exfalso.
    apply (Qlt_irrefl p). eapply Qlt_trans; [exact Hp|].
    eapply Qlt_trans; [|exact Hgt]. reflexivity.
  - by rewrite (proj2 (Qlt_bool_spec _ _) Hp).
Qed.

Lemma polarity_label_neutral p :
  (- float_0_1 <= p)%Q → (p <= float_0_1)%Q → polarity_label p = neutral.
Proof.
  intros Hlo Hhi. unfold polarity_label.
  destruct (Qgt_bool p float_0_1) eqn:Hgt.
  - apply Qgt_bool_spec in Hgt. by apply Qlt_not_le in Hgt.
  - destruct (Qlt_bool p (- float_0_1)) eqn:Hlt; [|done].
    apply Qlt_bool_spec in Hlt. by apply Qlt_not_le in Hlt.
Qed.

(** C4. On every text for which TextBlob yields a polarity between -1 and
    1, the heuristic path returns: label positive when polarity > 0.1,
    negative when polarity < -0.1 and neutral otherwise; a label among the
    three; and a confidence equal to the absolute polarity, within [0,1]. *)
Theorem textblob_sentiment_contract `{Externals} text polarity subjectivity :
  TextBlob_sentiment text = Returns (polarity, subjectivity) →
  (-1 <= polarity)%Q → (polarity <= 1)%Q →
  ∃ s, textblob_sentiment text = Returns s ∧
    ((float_0_1 < polarity)%Q → s_label s = positive) ∧
    ((polarity < - float_0_1)%Q → s_label s = negative) ∧
    ((- float_0_1 <= polarity)%Q → (polarity <= float_0_1)%Q → s_label s = neutral) ∧
    s_label s ∈ [positive; neutral; negative] ∧
    s_confidence s = Qabs polarity ∧
    (0 <= s_confidence s)%Q ∧ (s_confidence s <= 1)%Q.
Proof.
  intros Hblob Hlo Hhi. unfold textblob_sentiment. rewrite Hblob.
  eexists. split; [reflexivity|]. cbn [s_label s_confidence].
  repeat split.
  - apply polarity_label_positive.
  - apply polarity_label_negative.
  - apply polarity_label_neutral.
  - unfold polarity_label.
    destruct (Qgt_bool _ _); [|destruct (Qlt_bool _ _)]; set_solver.
  - apply Qabs_nonneg.
  - by apply Qabs_Qle_condition.
Qed.

(** The contract at a polarity of one half. *)
Lemma textblob_sentiment_contract_witness :
  ∃ s, @textblob_sentiment demo_externals "I love python" = Returns s ∧
    ((float_0_1 < 1 # 2)%Q → s_label s = positive) ∧
    ((1 # 2 < - float_0_1)%Q → s_label s = negative) ∧
    ((- float_0_1 <= 1 # 2)%Q → (1 # 2 <= float_0_1)%Q → s_label s = neutral) ∧
    s_label s ∈ [positive; neutral; negative] ∧
    s_confidence s = Qabs (1 # 2) ∧
    (0 <= s_confidence s)%Q ∧ (s_confidence s <= 1)%Q.
Proof.
  apply (@textblob_sentiment_contract demo_externals "I love python" (1 # 2)%Q (1 # 2)%Q).
  - reflexivity.
  - discriminate.
  - discriminate.
Defined.

(** ** The cycle: what each stage returns and which events it adds *)

Lemma extends_refl w : extends w w [].
Proof. split; [done | by rewrite app_nil_r]. Qed.

Lemma extends_trans w1 w2 w3 new1 new2 :
  extends w1 w2 new1 → extends w2 w3 new2 → extends w1 w3 (new1 ++ new2).
Proof.
  intros [F1 E1] [F2 E2]. split; [congruence|].
  by rewrite E2, E1, app_assoc.
Qed.

Lemma bind_run {A B} (m : M A) (k : A → M B) w :
  (m ≫= k) w =
  match m w with
  | (Returns a, w') => k a w'
  | (Raises e, w') => (Raises e, w')
  end.
Proof. reflexivity. Qed.

(** A [try] whose handler returns, returns. *)
Lemma try_except_returns {A} (body : M A) handler w :
  (∀ e w1, ∃ a w2, handler e w1 = (Returns a, w2)) →
  ∃ a w', try_except body handler w = (Returns a, w').
Proof.
  intros Hh. unfold try_except.
  destruct (body w) as [[a|e] w1]; [by eexists _, _ | apply Hh].
Qed.

(** Running monadic code on a world. *)
Ltac run :=
  cbv [mbind M_bind mret M_ret try_except emit raise lift may_raise get modify];
  cbn beta iota.

Lemma collect_data_from_all_sources_spec env w :
  ∃ w' logs,
    collect_data_from_all_sources env w = (Returns (collected env), w') ∧
    extends w w' logs ∧ Forall (λ ev, is_log ev = true) logs.
Proof.
  unfold collect_data_from_all_sources, collected.
  destruct (twitter_future env) as [tw|e1], (reddit_future env) as [rd|e2],
    (youtube_future env) as [yt|e3]; run; cbn [posts_of app]; rewrite ?app_nil_r, <- ?app_assoc;
    eexists _, _; (split; [reflexivity|]); (split; [split; [reflexivity|]|]).
  all: cbn; rewrite <- ?app_assoc; try reflexivity.
  all: try (instantiate (1 := []); by rewrite ?app_nil_r).
  all: repeat constructor.
Qed.

(** [extends] between a world and the same world after updates. *)
Ltac solve_extends :=
  split; [reflexivity | cbn; rewrite <- ?app_assoc, ?app_nil_r; reflexivity].

Lemma extends_add_event ev w : extends w (add_event ev w) [ev].
Proof. by split. Qed.

Lemma extends_add_raw_posts docs w : extends w (add_raw_posts docs w) [].
Proof. split; [done | by rewrite app_nil_r]. Qed.

Lemma extends_add_sentiment_results docs w :
  extends w (add_sentiment_results docs w) [].
Proof. split; [done | by rewrite app_nil_r]. Qed.

Lemma extends_is_trained w w' new : extends w w' new → is_trained w' = is_trained w.
Proof. intros [F _]. unfold pipeline_fields in F. congruence. Qed.

Lemma extends_update_interval w w' new :
  extends w w' new → update_interval w' = update_interval w.
Proof. intros [F _]. unfold pipeline_fields in F. congruence. Qed.

Lemma process_batch_data_spec `{Externals} env posts w :
  ∃ w' logs,
    process_batch_data env posts w = (Returns (cleaned env posts), w') ∧
    extends w w' logs ∧ Forall (λ ev, is_log ev = true) logs.
Proof.
  unfold process_batch_data, cleaned.
  destruct posts as [|post posts]; cbn [nonempty negb].
  { run. eexists _, []. split; [done|]. split; [apply extends_refl | done]. }
  destruct (spark_error env) as [e|]; run.
  { eexists _, _. split; [done|]. split; [apply extends_add_event | by repeat constructor]. }
  destruct (createDataFrame (post :: posts)) as [df|e]; run.
  - eexists _, []. split; [done|]. split; [apply extends_refl | done].
  - eexists _, _. split; [done|]. split; [apply extends_add_event | by repeat constructor].
Qed.

Lemma process_sentiment_batch_spec `{Externals} env posts w :
  ∃ w' logs,
    process_sentiment_batch env posts w
      = (Returns (scored env (is_trained w) posts), w') ∧
    extends w w' logs ∧ Forall (λ ev, is_log ev = true) logs.
Proof.
  unfold process_sentiment_batch, scored. run.
  destruct (process_batch_data_spec env posts w) as (w1 & logs1 & -> & Hext & Hlogs).
  rewrite (extends_is_trained _ _ _ Hext).
  destruct (sentiment_loop _ _ _ _) as [results [e|]]; cbn [fst].
  - eexists _, _. split; [done|]. split.
    + eapply extends_trans; [exact Hext | apply extends_add_event].
    + apply Forall_app. split; [done | by repeat constructor].
  - eexists _, _. split; [done|]. split.
    + eapply extends_trans; [exact Hext | apply extends_refl].
    + by rewrite app_nil_r.
Qed.

(** A storage call hands its batch over, returns, and adds at most a log
    line, whether or not the write succeeds. *)
Lemma insert_raw_posts_spec env posts w :
  nonempty posts = true →
  ∃ n w' logs,
    insert_raw_posts env posts w = (Returns n, w') ∧
    extends w w' (InsertRawPosts posts :: logs) ∧
    Forall (λ ev, is_log ev = true) logs.
Proof.
  intros Hne. unfold insert_raw_posts, insert_many_raw_posts. rewrite Hne.
  destruct (raw_insert_error env) as [written|]; run.
  - eexists _, _, [_]. split; [done|]. split; [solve_extends | by repeat constructor].
  - eexists _, _, []. split; [done|]. split; [solve_extends | done].
Qed.

Lemma insert_sentiment_results_spec env results w :
  nonempty results = true →
  ∃ n w' logs,
    insert_sentiment_results env results w = (Returns n, w') ∧
    extends w w' (InsertSentimentResults (set_processed_at (now env) <$> results) :: logs) ∧
    Forall (λ ev, is_log ev = true) logs.
Proof.
  intros Hne. unfold insert_sentiment_results, insert_many_sentiment_results.
  rewrite Hne.
  destruct (result_insert_error env) as [written|]; run.
  - eexists _, _, [_]. split; [done|]. split; [solve_extends | by repeat constructor].
  - eexists _, _, []. split; [done|]. split; [solve_extends | done].
Qed.

Lemma logs_are_cycle_events logs :
  Forall (λ ev, is_log ev = true) logs → Forall (λ ev, cycle_event ev = true) logs.
Proof. intros Hl. eapply Forall_impl; [exact Hl|]. by intros []. Qed.

Lemma raw_batches_logs logs :
  Forall (λ ev, is_log ev = true) logs → raw_batches logs = [].
Proof. induction 1 as [|[] ? ? ? IH]; by cbn in *. Qed.

Lemma result_batches_logs logs :
  Forall (λ ev, is_log ev = true) logs → result_batches logs = [].
Proof. induction 1 as [|[] ? ? ? IH]; by cbn in *. Qed.

Lemma raw_batches_app evs1 evs2 :
  raw_batches (evs1 ++ evs2) = raw_batches evs1 ++ raw_batches evs2.
Proof. apply omap_app. Qed.

Lemma result_batches_app evs1 evs2 :
  result_batches (evs1 ++ evs2) = result_batches evs1 ++ result_batches evs2.
Proof. apply omap_app. Qed.

Lemma batches_insert_raw_posts docs logs :
  Forall (λ ev, is_log ev = true) logs →
  raw_batches (InsertRawPosts docs :: logs) = [docs] ∧
  result_batches (InsertRawPosts docs :: logs) = [].
Proof.
  intros Hl. split.
  - change (raw_batches (InsertRawPosts docs :: logs)) with (docs :: raw_batches logs).
    by rewrite raw_batches_logs.
  - change (result_batches (InsertRawPosts docs :: logs)) with (result_batches logs).
    by rewrite result_batches_logs.
Qed.

Lemma batches_insert_sentiment_results docs logs :
  Forall (λ ev, is_log ev = true) logs →
  raw_batches (InsertSentimentResults docs :: logs) = [] ∧
  result_batches (InsertSentimentResults docs :: logs) = [docs].
Proof.
  intros Hl. split.
  - change (raw_batches (InsertSentimentResults docs :: logs)) with (raw_batches logs).
    by rewrite raw_batches_logs.
  - change (result_batches (InsertSentimentResults docs :: logs))
      with (docs :: result_batches logs).
    by rewrite result_batches_logs.
Qed.

(** The batches handed to storage by [store_results]. *)
Lemma store_results_spec env raw_posts sentiment_results w :
  ∃ w' new,
    store_results env raw_posts sentiment_results w = (Returns tt, w') ∧
    extends w w' new ∧
    Forall (λ ev, cycle_event ev = true) new ∧
    raw_batches new = (if nonempty raw_posts then [raw_posts] else []) ∧
    result_batches new =
      (if nonempty sentiment_results
       then [set_processed_at (now env) <$> sentiment_results] else []).
Proof.
  unfold store_results.
  destruct (nonempty raw_posts) eqn:H1, (nonempty sentiment_results) eqn:H2; run.
  - destruct (insert_raw_posts_spec env raw_posts w H1)
      as (n1 & w1 & logs1 & -> & Hext1 & Hlogs1).
    destruct (insert_sentiment_results_spec env sentiment_results w1 H2)
      as (n2 & w2 & logs2 & -> & Hext2 & Hlogs2).
    eexists _, _. split; [done|]. split; [by eapply extends_trans|].
    split; [|split].
    + apply Forall_app. split; constructor; by auto using logs_are_cycle_events.
    + rewrite raw_batches_app.
      rewrite (proj1 (batches_insert_raw_posts _ _ Hlogs1)).
      by rewrite (proj1 (batches_insert_sentiment_results _ _ Hlogs2)).
    + rewrite result_batches_app.
      rewrite (proj2 (batches_insert_raw_posts _ _ Hlogs1)).
      by rewrite (proj2 (batches_insert_sentiment_results _ _ Hlogs2)).
  - destruct (insert_raw_posts_spec env raw_posts w H1)
      as (n1 & w1 & logs1 & -> & Hext1 & Hlogs1).
    eexists _, _. split; [done|]. split; [done|].
    split; [constructor; by auto using logs_are_cycle_events|].
    by apply batches_insert_raw_posts.
  - destruct (insert_sentiment_results_spec env sentiment_results w H2)
      as (n2 & w2 & logs2 & -> & Hext2 & Hlogs2).
    eexists _, _. split; [done|]. split; [done|].
    split; [constructor; by auto using logs_are_cycle_events|].
    by apply batches_insert_sentiment_results.
  - eexists _, []. split; [done|]. split; [apply extends_refl | done].
Qed.

(** The statistics are never computed: on a list that is not empty [sum]
    raises, the error is logged and every entry is 0. *)
Lemma aggregate_sentiment_stats_spec results w :
  aggregate_sentiment_stats results w =
  (Returns zero_stats,
   if nonempty results
   then add_event (LogError "Error aggregating sentiment stats") w else w).
Proof.
  unfold aggregate_sentiment_stats. destruct results as [|r results]; [done|].
  cbn [nonempty negb].
  destruct (foldl _ _ _) as [[pos neu] neg]. reflexivity.
Qed.

Lemma aggregate_sentiment_stats_extends results w :
  ∃ w' logs,
    aggregate_sentiment_stats results w = (Returns zero_stats, w') ∧
    extends w w' logs ∧ Forall (λ ev, is_log ev = true) logs ∧
    logs = if nonempty results then [LogError "Error aggregating sentiment stats"] else [].
Proof.
  rewrite aggregate_sentiment_stats_spec.
  destruct (nonempty results); eexists _, _; (split; [reflexivity|]).
  - split; [by split|]. split; [by repeat constructor | done].
  - split; [split; [done | by rewrite app_nil_r]|]. split; [constructor | done].
Qed.

(** A cycle returns normally whatever the sources, the scorer, Spark and
    the storage do; it leaves the attributes of the pipeline alone; and it
    hands to storage the collected posts, as collected, and the results
    scored from them. *)
Lemma run_single_cycle_spec `{Externals} env w :
  ∃ w' new,
    run_single_cycle env w = (Returns tt, w') ∧
    extends w w' new ∧
    Forall (λ ev, cycle_event ev = true) new ∧
    raw_batches new = (if nonempty (collected env) then [collected env] else []) ∧
    result_batches new =
      (let results := scored env (is_trained w) (collected env) in
       if nonempty results then [set_processed_at (now env) <$> results] else []).
Proof.
  unfold run_single_cycle. run.
  destruct (collect_data_from_all_sources_spec env w)
    as (w1 & logs1 & -> & Hext1 & Hlogs1).
  destruct (nonempty (collected env)) eqn:Hne.
  - destruct (process_sentiment_batch_spec env (collected env) w1)
      as (w2 & logs2 & -> & Hext2 & Hlogs2).
    rewrite (extends_is_trained _ _ _ Hext1).
    destruct (store_results_spec env (collected env)
                (scored env (is_trained w) (collected env)) w2)
      as (w3 & new3 & -> & Hext3 & Hev3 & Hraw3 & Hres3).
    destruct (aggregate_sentiment_stats_extends
                (scored env (is_trained w) (collected env)) w3)
      as (w4 & logs4 & -> & Hext4 & Hlogs4 & _).
    eexists _, _. split; [done|].
    split; [eapply extends_trans;
              [eapply extends_trans; [by eapply extends_trans | done] | done]|].
    split; [|split].
    + rewrite !Forall_app. by auto using logs_are_cycle_events.
    + rewrite !raw_batches_app, (raw_batches_logs logs1), (raw_batches_logs logs2),
        (raw_batches_logs logs4) by done.
      by rewrite Hraw3, Hne, app_nil_r.
    + rewrite !result_batches_app, (result_batches_logs logs1),
        (result_batches_logs logs2), (result_batches_logs logs4) by done.
      by rewrite Hres3, app_nil_r.
  - eexists _, _. split; [done|]. split; [done|].
    split; [by apply logs_are_cycle_events|].
    rewrite (raw_batches_logs logs1), (result_batches_logs logs1) by done.
    split; [done|]. cbn zeta.
    assert (collected env = []) as -> by (by destruct (collected env)).
    reflexivity.
Qed.

(** ** Cleaning and scoring: where rows and results come from *)

Lemma to_row_strings `{Externals} post r :
  to_row post = Returns r →
  r_id r = string_col (post !! "id") ∧
  r_text r = string_col (post !! "text") ∧
  r_platform r = string_col (post !! "platform").
Proof.
  unfold to_row. cbv [mbind outcome_bind mret outcome_ret].
  destruct (timestamp_col (post !! "created_at")); [|done].
  destruct (integer_col (post !! "likes")); [|done].
  destruct (integer_col (post !! "retweets")); [|done].
  destruct (timestamp_col (post !! "collected_at")); [|done].
  destruct (array_col (post !! "keywords")); [|done].
  by intros [= <-].
Qed.

Lemma createDataFrame_elem `{Externals} posts :
  ∀ df r, createDataFrame posts = Returns df → r ∈ df →
    ∃ post, post ∈ posts ∧ to_row post = Returns r.
Proof.
  induction posts as [|post posts IH]; intros df r.
  - intros [= <-] Hr. by apply elem_of_nil in Hr.
  - cbn [createDataFrame]. cbv [mbind outcome_bind mret outcome_ret].
    destruct (to_row post) as [r0|] eqn:Hrow; [|done].
    destruct (createDataFrame posts) as [rows|]; [|done].
    intros [= <-] [->|Hr]%elem_of_cons.
    + exists post. split; [apply list_elem_of_here | done].
    + destruct (IH rows r eq_refl Hr) as (p & Hp & Hto).
      exists p. split; [by apply list_elem_of_further | done].
Qed.

(** Every row of a frame comes from a post, in the same number. *)
Lemma createDataFrame_length `{Externals} posts :
  ∀ df, createDataFrame posts = Returns df → length df = length posts.
Proof.
  induction posts as [|post posts IH]; intros df.
  - by intros [= <-].
  - cbn [createDataFrame]. cbv [mbind outcome_bind mret outcome_ret].
    destruct (to_row post); [|done].
    destruct (createDataFrame posts) as [rows|]; [|done].
    intros [= <-]. cbn. by rewrite (IH rows).
Qed.

Lemma cleaned_df_elem `{Externals} df r :
  r ∈ cleaned_df df ↔ r ∈ df ∧ long_text r = true.
Proof.
  unfold cleaned_df.
  rewrite (distinct_rows _), elem_of_remove_dups, list_elem_of_filter. tauto.
Qed.

Lemma cleaned_df_NoDup `{Externals} df : NoDup (cleaned_df df).
Proof. unfold cleaned_df. rewrite (distinct_rows _). apply NoDup_remove_dups. Qed.

Lemma asDict_id t r : asDict t r !! "id" = Some (opt_str (r_id r)).
Proof. reflexivity. Qed.

Lemma asDict_text t r : asDict t r !! "text" = Some (opt_str (r_text r)).
Proof. reflexivity. Qed.

Lemma cleaned_elem `{Externals} env posts d :
  d ∈ cleaned env posts →
  ∃ df r, createDataFrame posts = Returns df ∧ r ∈ df ∧ long_text r = true ∧
          d = asDict (spark_now env) r.
Proof.
  unfold cleaned.
  destruct posts as [|post posts]; [by intros ?%elem_of_nil|].
  destruct (spark_error env); [by intros ?%elem_of_nil|].
  destruct (createDataFrame (post :: posts)) as [df|]; [|by intros ?%elem_of_nil].
  intros (r & -> & [Hr Hlong]%cleaned_df_elem)%list_elem_of_fmap.
  by exists df, r.
Qed.

Lemma sentiment_loop_elem `{Externals} trained t posts :
  ∀ acc r, r ∈ (sentiment_loop trained t posts acc).1 →
    r ∈ acc ∨ ∃ post s, post ∈ posts ∧ r = result_of t post (text_of post) s.
Proof.
  induction posts as [|post posts IH]; intros acc r; cbn [sentiment_loop fst].
  - by left.
  - destruct (truthy (text_of post)).
    + destruct (score_value trained (text_of post)) as [s|e]; cbn [fst].
      * intros [Hacc|(p & s' & Hp & ->)]%IH.
        -- apply elem_of_app in Hacc as [Hacc|Hnew]; [by left|].
           apply list_elem_of_singleton in Hnew as ->.
           right. exists post, s. split; [apply list_elem_of_here | done].
        -- right. exists p, s'. split; [by apply list_elem_of_further | done].
      * by left.
    + intros [Hacc|(p & s' & Hp & ->)]%IH; [by left|].
      right. exists p, s'. split; [by apply list_elem_of_further | done].
Qed.

(** A scored result carries the identifier of a collected post. *)
Lemma scored_post_id `{Externals} env trained posts r :
  r ∈ scored env trained posts →
  ∃ post, post ∈ posts ∧ post_id r = stored_id post.
Proof.
  unfold scored.
  intros [[]%elem_of_nil|(d & s & Hd & ->)]%sentiment_loop_elem.
  apply cleaned_elem in Hd as (df & row & Hdf & Hrow & _ & ->).
  destruct (createDataFrame_elem _ _ _ Hdf Hrow) as (post & Hpost & Hto).
  exists post. split; [done|].
  cbn [post_id result_of]. unfold dict_get, stored_id.
  rewrite asDict_id. by destruct (to_row_strings _ _ Hto) as (-> & _).
Qed.

(** C8. In every cycle, each sentiment result handed to storage carries the
    identifier of a post handed to storage in the same cycle: no result is
    handed over without its post. The identifier of a post is the text the
    Spark stage stores for its [id]. *)
Theorem results_stored_with_their_posts `{Externals} env w :
  ∃ w' new,
    run_single_cycle env w = (Returns tt, w') ∧
    events w' = events w ++ new ∧
    ∀ results r, results ∈ result_batches new → r ∈ results →
      ∃ posts post, posts ∈ raw_batches new ∧ post ∈ posts ∧
                    post_id r = stored_id post.
Proof.
  destruct (run_single_cycle_spec env w) as (w' & new & Hrun & [_ Hev] & _ & Hraw & Hres).
  exists w', new. split; [done|]. split; [done|].
  intros results r. rewrite Hres, Hraw. cbn zeta.
  destruct (nonempty (scored _ _ _)); [|by intros ?%elem_of_nil].
  intros ->%list_elem_of_singleton (r0 & -> & Hr0)%list_elem_of_fmap.
  destruct (scored_post_id _ _ _ _ Hr0) as (post & Hpost & Hid).
  exists (collected env), post.
  assert (nonempty (collected env) = true) as ->
    by (destruct (collected env); [by apply elem_of_nil in Hpost | done]).
  split; [by apply list_elem_of_singleton | done].
Qed.

(** ** The scheduler loop *)

Lemma stop_streaming_spec w :
  ∃ w',
    stop_streaming w = (Returns tt, w') ∧
    is_running w' = false ∧
    spark w' = spark w ∧ client w' = client w ∧
    is_trained w' = is_trained w ∧ update_interval w' = update_interval w ∧
    events w' = events w ++ (if spark w then [SparkStop] else [])
                         ++ (if client w then [ClientClose] else []).
Proof.
  unfold stop_streaming, stop_spark, close_connection. run. cbn.
  destruct (spark w) eqn:Hs; cbn; destruct (client w) eqn:Hc; cbn;
    eexists; (split; [reflexivity|]);
    cbn; by rewrite <- ?app_assoc, ?app_nil_r, ?Hs, ?Hc.
Qed.

Lemma external_stop_spec here it w :
  ∃ w',
    external_stop here it w = (Returns tt, w') ∧
    is_running w' = (if decide (stop_request it = here) then false else is_running w) ∧
    spark w' = spark w ∧ client w' = client w ∧
    is_trained w' = is_trained w ∧ update_interval w' = update_interval w ∧
    events w' = events w ++ stop_events here it w.
Proof.
  unfold external_stop, stop_events.
  destruct (decide (stop_request it = here)); run.
  - destruct (stop_streaming_spec (add_event StopRequested w))
      as (w' & -> & Hrun & Hs & Hc & Ht & Hi & Hev).
    exists w'. split; [done|]. cbn in *.
    rewrite Hev, <- !app_assoc. done.
  - exists w. by rewrite app_nil_r.
Qed.

(** One iteration that is not interrupted: the cycle runs to its end, the
    loop pauses, and the events are those of the cycle between the marks of
    its start and its end, with the events of a stop request where it
    falls. *)
Lemma iteration_spec `{Externals} it w :
  keyboard_interrupt it = false →
  ∃ w' cyc,
    iteration it w = (Returns Continue, w') ∧
    Forall (λ ev, cycle_event ev = true) cyc ∧
    events w' = events w ++ [CycleStart] ++ stop_events StopDuringCycle it w
                  ++ cyc ++ [CycleEnd; pause (update_interval w) it]
                  ++ stop_events StopDuringSleep it w ∧
    is_running w' = (if decide (stop_request it = NoStop) then is_running w else false) ∧
    spark w' = spark w ∧ client w' = client w ∧
    is_trained w' = is_trained w ∧ update_interval w' = update_interval w.
Proof.
  intros Hki. unfold iteration. run. rewrite Hki.
  destruct (external_stop_spec StopDuringCycle it (add_event CycleStart w))
    as (w1 & -> & Hrun1 & Hs1 & Hc1 & Ht1 & Hi1 & Hev1).
  destruct (run_single_cycle_spec (cycle it) w1)
    as (w2 & cyc & -> & [Hf2 Hev2] & Hcyc & _).
  injection Hf2 as Hrun2 Hs2 Hc2 Ht2 Hi2.
  cbn [update_interval add_event set_is_running] in *.
  assert (Hp : pause (update_interval w) it =
               if 0 <? Z.max 0 (update_interval w2 - cycle_duration it)
               then Slept (Z.max 0 (update_interval w2 - cycle_duration it))
               else LogWarning "Cycle took longer than interval")
    by (unfold pause; by rewrite Hi2, Hi1).
  assert (∃ w3,
    (let (o, w'0) := external_stop StopDuringSleep it
                       (add_event (pause (update_interval w) it) (add_event CycleEnd w2)) in
     match o with
     | Returns _ => (Returns Continue, w'0)
     | Raises e => (Raises e, w'0)
     end) = (Returns Continue, w3) ∧
    is_running w3 = (if decide (stop_request it = NoStop) then is_running w else false) ∧
    spark w3 = spark w ∧ client w3 = client w ∧
    is_trained w3 = is_trained w ∧ update_interval w3 = update_interval w ∧
    events w3 = events w ++ [CycleStart] ++ stop_events StopDuringCycle it w
                  ++ cyc ++ [CycleEnd; pause (update_interval w) it]
                  ++ stop_events StopDuringSleep it w) as (w3 & Hrun & Hw3).
  { destruct (external_stop_spec StopDuringSleep it
                (add_event (pause (update_interval w) it) (add_event CycleEnd w2)))
      as (w3 & -> & Hrun3 & Hs3 & Hc3 & Ht3 & Hi3 & Hev3).
    cbn in *. exists w3. split; [done|].
    split; [|split; [|split; [|split; [|split]]]]; try congruence.
    - rewrite Hrun3, Hrun2, Hrun1.
      destruct (stop_request it); repeat case_decide; done.
    - rewrite Hev3, Hev2, Hev1. unfold stop_events. cbn.
      rewrite Hs2, Hs1, Hc2, Hc1. by rewrite <- !app_assoc. }
  exists w3, cyc. split; [|by destruct Hw3 as (? & ? & ? & ? & ? & ?)].
  rewrite Hp in Hrun.
  destruct (0 <? Z.max 0 (update_interval w2 - cycle_duration it));
    cbn beta iota; by rewrite Hrun.
Qed.

Lemma sleeps_app evs1 evs2 : sleeps (evs1 ++ evs2) = sleeps evs1 ++ sleeps evs2.
Proof. apply omap_app. Qed.

Lemma sleeps_cycle_events evs :
  Forall (λ ev, cycle_event ev = true) evs → sleeps evs = [].
Proof. induction 1 as [|[] ? ? ? IH]; by cbn in *. Qed.

Lemma sleeps_stop_events here it w : sleeps (stop_events here it w) = [].
Proof.
  unfold stop_events.
  by destruct (decide _), (spark w), (client w).
Qed.

Lemma sleeps_pause interval it :
  sleeps [CycleEnd; pause interval it] =
  if 0 <? Z.max 0 (interval - cycle_duration it)
  then [Z.max 0 (interval - cycle_duration it)] else [].
Proof. unfold pause. by destruct (0 <? _). Qed.

Lemma count_app P evs1 evs2 : count P (evs1 ++ evs2) = (count P evs1 + count P evs2)%nat.
Proof. unfold count. by rewrite filter_app, length_app. Qed.

Lemma count_cycle_events P evs :
  scheduler_kind P →
  Forall (λ ev, cycle_event ev = true) evs → count P evs = 0%nat.
Proof.
  intros (Hcyc & _) Hall. unfold count.
  induction Hall as [|ev evs Hev _ IH]; [done|].
  rewrite filter_cons_False; [done|]. by rewrite (Hcyc ev Hev).
Qed.

Lemma count_pause P interval it :
  scheduler_kind P →
  count P [CycleEnd; pause interval it] = Nat.b2n (P CycleEnd).
Proof.
  intros (_ & Hsleep & Hwarn). unfold count, pause.
  destruct (0 <? _).
  - rewrite filter_cons, (filter_cons_False _ (Slept _)) by (by rewrite Hsleep).
    by destruct (P CycleEnd).
  - rewrite filter_cons, (filter_cons_False _ (LogWarning _)) by (by rewrite Hwarn).
    by destruct (P CycleEnd).
Qed.

Lemma count_singleton P ev : count P [ev] = Nat.b2n (P ev).
Proof. unfold count. rewrite filter_cons. by destruct (P ev). Qed.

(** The number of events of a kind in one uninterrupted iteration. *)
Lemma count_iteration P it w cyc :
  scheduler_kind P →
  Forall (λ ev, cycle_event ev = true) cyc →
  count P ([CycleStart] ++ stop_events StopDuringCycle it w
             ++ cyc ++ [CycleEnd; pause (update_interval w) it]
             ++ stop_events StopDuringSleep it w)
  = (Nat.b2n (P CycleStart) + Nat.b2n (P CycleEnd)
     + count P (stop_events StopDuringCycle it w)
     + count P (stop_events StopDuringSleep it w))%nat.
Proof.
  intros HP Hcyc.
  rewrite !count_app, count_singleton, count_pause, (count_cycle_events P cyc) by done.
  lia.
Qed.

Lemma is_cycle_start_kind : scheduler_kind is_cycle_start.
Proof. by repeat split; intros []. Qed.
Lemma is_cycle_end_kind : scheduler_kind is_cycle_end.
Proof. by repeat split; intros []. Qed.
Lemma is_spark_stop_kind : scheduler_kind is_spark_stop.
Proof. by repeat split; intros []. Qed.
Lemma is_client_close_kind : scheduler_kind is_client_close.
Proof. by repeat split; intros []. Qed.
Lemma is_stop_requested_kind : scheduler_kind is_stop_requested.
Proof. by repeat split; intros []. Qed.

Lemma count_marks_stop_events here it w :
  count is_cycle_start (stop_events here it w) = 0%nat ∧
  count is_cycle_end (stop_events here it w) = 0%nat.
Proof.
  unfold stop_events.
  by destruct (decide _), (spark w), (client w).
Qed.

(** A running loop consumes an uninterrupted iteration and goes on with the
    rest of the schedule. *)
Lemma streaming_loop_step `{Externals} it rest w w' :
  is_running w = true →
  iteration it w = (Returns Continue, w') →
  streaming_loop (it :: rest) w = streaming_loop rest w'.
Proof. intros Hrun Hit. cbn [streaming_loop]. by rewrite Hrun, Hit. Qed.

Lemma streaming_loop_stopped `{Externals} schedule w :
  is_running w = false → streaming_loop schedule w = Some (Returns tt, w).
Proof. intros Hrun. destruct schedule; cbn [streaming_loop]; by rewrite Hrun. Qed.

(** The marks and the sleeps of one uninterrupted iteration. *)
Lemma iteration_marks it w cyc :
  Forall (λ ev, cycle_event ev = true) cyc →
  let new := [CycleStart] ++ stop_events StopDuringCycle it w
               ++ cyc ++ [CycleEnd; pause (update_interval w) it]
               ++ stop_events StopDuringSleep it w in
  count is_cycle_start new = 1%nat ∧
  count is_cycle_end new = 1%nat ∧
  sleeps new = sleep_plan (update_interval w) [it].
Proof.
  intros Hcyc new. unfold new.
  rewrite (count_iteration _ _ _ _ is_cycle_start_kind Hcyc),
    (count_iteration _ _ _ _ is_cycle_end_kind Hcyc),
    !(proj1 (count_marks_stop_events _ _ _)), !(proj2 (count_marks_stop_events _ _ _)).
  split; [done|]. split; [done|].
  rewrite !sleeps_app, !sleeps_stop_events, sleeps_pause, (sleeps_cycle_events cyc) by done.
  cbn [app sleep_plan omap list_omap]. rewrite app_nil_r.
  by destruct (0 <? _).
Qed.

Lemma sleep_plan_app interval schedule1 schedule2 :
  sleep_plan interval (schedule1 ++ schedule2)
  = sleep_plan interval schedule1 ++ sleep_plan interval schedule2.
Proof. apply omap_app. Qed.

(** A running loop over iterations without stop request or interrupt runs
    one cycle for each of them, in order, sleeping after each the rest of
    the interval, and is still running. *)
Lemma streaming_loop_plan `{Externals} quiet :
  Forall undisturbed quiet →
  ∀ w, is_running w = true →
    ∃ w1 new,
      (∀ rest, streaming_loop (quiet ++ rest) w = streaming_loop rest w1) ∧
      is_running w1 = true ∧ update_interval w1 = update_interval w ∧
      events w1 = events w ++ new ∧
      count is_cycle_start new = length quiet ∧
      count is_cycle_end new = length quiet ∧
      sleeps new = sleep_plan (update_interval w) quiet.
Proof.
  induction 1 as [|it quiet [Hstop Hki] _ IH]; intros w Hrun.
  - exists w, []. rewrite app_nil_r. by repeat split.
  - destruct (iteration_spec it w Hki)
      as (w1 & cyc & Hit & Hcyc & Hev & Hrun1 & _ & _ & _ & Hi1).
    rewrite decide_True in Hrun1 by done.
    destruct (iteration_marks it w cyc Hcyc) as (Hs1 & He1 & Hsl1).
    destruct (IH w1) as (w2 & new2 & Hloop & Hrun2 & Hi2 & Hev2 & Hs2 & He2 & Hsl2);
      [congruence|].
    eexists w2, _.
    split; [intros rest; cbn [app]; by rewrite (streaming_loop_step _ _ _ _ Hrun Hit)|].
    split; [done|]. split; [congruence|].
    split; [rewrite Hev2, Hev, <- app_assoc; reflexivity|].
    rewrite !(count_app _ _ new2), (sleeps_app _ new2), Hs1, He1, Hsl1, Hs2, He2, Hsl2, Hi1.
    change (it :: quiet) with ([it] ++ quiet). rewrite sleep_plan_app.
    by repeat split.
Qed.

(** C3. In every iteration of the loop the sleep after the cycle lasts
    exactly max(0, interval - elapsed): it is never negative, and when the
    cycle took the interval or longer there is no sleep at all. The
    iteration runs exactly one cycle, and unless a stop is requested the
    loop, still running, goes on with the next iteration of the schedule:
    no cycle is skipped on overrun. So a loop that runs this iteration, then
    any number of further iterations, and then one in which a stop is
    requested, returns after having run one cycle for each of them, and
    its sleeps are, in order, the rest of the interval after each cycle
    that took less than the interval. *)
Theorem scheduler_sleeps_remaining_interval `{Externals} it w :
  keyboard_interrupt it = false →
  ∃ w' new,
    iteration it w = (Returns Continue, w') ∧
    events w' = events w ++ new ∧
    total_sleep new = Z.max 0 (update_interval w - cycle_duration it) ∧
    0 ≤ total_sleep new ∧
    (update_interval w ≤ cycle_duration it → sleeps new = []) ∧
    count is_cycle_start new = 1%nat ∧
    count is_cycle_end new = 1%nat ∧
    (is_running w = true → stop_request it = NoStop →
       is_running w' = true ∧
       (∀ rest, streaming_loop (it :: rest) w = streaming_loop rest w') ∧
       ∀ quiet last rest,
         Forall undisturbed quiet →
         keyboard_interrupt last = false → stop_request last ≠ NoStop →
         ∃ w'' more,
           streaming_loop (it :: quiet ++ last :: rest) w = Some (Returns tt, w'') ∧
           events w'' = events w ++ new ++ more ∧
           count is_cycle_start (new ++ more) = length (it :: quiet ++ [last]) ∧
           count is_cycle_end (new ++ more) = length (it :: quiet ++ [last]) ∧
           sleeps (new ++ more)
             = sleep_plan (update_interval w) (it :: quiet ++ [last])).
Proof.
  intros Hki.
  destruct (iteration_spec it w Hki)
    as (w' & cyc & Hit & Hcyc & Hev & Hrun & _ & _ & _ & Hi).
  destruct (iteration_marks it w cyc Hcyc) as (Hs & He & Hsl).
  cbn zeta in Hs, He, Hsl.
  match type of Hev with _ = _ ++ ?l => set (new := l) in * end. clearbody new.
  exists w', new. split; [done|]. split; [exact Hev|].
  unfold total_sleep. rewrite Hsl.
  assert (Hplan : sleep_plan (update_interval w) [it]
                  = if 0 <? Z.max 0 (update_interval w - cycle_duration it)
                    then [Z.max 0 (update_interval w - cycle_duration it)] else [])
    by (cbn; by destruct (0 <? _)).
  split; [|split; [|split; [|split; [|split]]]]; try done.
  - rewrite Hplan. destruct (0 <? _) eqn:Hpos; cbn; lia.
  - rewrite Hplan. destruct (0 <? _) eqn:Hpos; cbn; lia.
  - intros Hover. rewrite Hplan. destruct (0 <? _) eqn:Hpos; [lia | done].
  - intros Hw Hstop. rewrite decide_True in Hrun by done.
    split; [congruence|].
    split; [intros rest; by apply streaming_loop_step|].
    intros quiet last rest Hquiet Hki' Hstop'.
    destruct (streaming_loop_plan quiet Hquiet w')
      as (w1 & new1 & Hloop & Hrun1 & Hi1 & Hev1 & Hs1 & He1 & Hsl1); [congruence|].
    destruct (iteration_spec last w1 Hki')
      as (w2 & cyc2 & Hit2 & Hcyc2 & Hev2 & Hrun2 & _).
    rewrite decide_False in Hrun2 by done.
    destruct (iteration_marks last w1 cyc2 Hcyc2) as (Hs2 & He2 & Hsl2).
    cbn zeta in Hs2, He2, Hsl2.
    match type of Hev2 with _ = _ ++ ?l => set (new2 := l) in * end. clearbody new2.
    exists w2, (new1 ++ new2).
    split.
    { rewrite (streaming_loop_step _ _ _ _ Hw Hit), Hloop,
        (streaming_loop_step _ _ _ _ Hrun1 Hit2).
      by apply streaming_loop_stopped. }
    split; [by rewrite Hev2, Hev1, Hev, <- !app_assoc|].
    change (it :: quiet ++ [last]) with ([it] ++ quiet ++ [last]).
    rewrite !count_app, !sleeps_app, !sleep_plan_app, !length_app.
    rewrite Hs, He, Hsl, Hs1, He1, Hsl1, Hs2, He2, Hsl2, Hi1, Hi.
    cbn [length]. by repeat split.
Qed.

(** The sleep rule at a cycle of 45 seconds under an interval of 30. *)
Lemma scheduler_sleeps_remaining_interval_witness :
  ∃ w' new,
    @iteration demo_externals overrun_iteration running_pipeline
      = (Returns Continue, w') ∧
    events w' = events running_pipeline ++ new ∧
    total_sleep new = Z.max 0 (update_interval running_pipeline - 45) ∧
    0 ≤ total_sleep new ∧
    (update_interval running_pipeline ≤ 45 → sleeps new = []) ∧
    count is_cycle_start new = 1%nat ∧
    count is_cycle_end new = 1%nat ∧
    (is_running running_pipeline = true → stop_request overrun_iteration = NoStop →
       is_running w' = true ∧
       (∀ rest, @streaming_loop demo_externals (overrun_iteration :: rest) running_pipeline
                = @streaming_loop demo_externals rest w') ∧
       ∀ quiet last rest,
         Forall undisturbed quiet →
         keyboard_interrupt last = false → stop_request last ≠ NoStop →
         ∃ w'' more,
           @streaming_loop demo_externals (overrun_iteration :: quiet ++ last :: rest)
             running_pipeline = Some (Returns tt, w'') ∧
           events w'' = events running_pipeline ++ new ++ more ∧
           count is_cycle_start (new ++ more)
             = length (overrun_iteration :: quiet ++ [last]) ∧
           count is_cycle_end (new ++ more)
             = length (overrun_iteration :: quiet ++ [last]) ∧
           sleeps (new ++ more)
             = sleep_plan (update_interval running_pipeline)
                 (overrun_iteration :: quiet ++ [last])).
Proof.
  apply (@scheduler_sleeps_remaining_interval demo_externals
           overrun_iteration running_pipeline).
  reflexivity.
Defined.

(** ** Stopping *)

(** Iterations without stop request or interrupt leave the loop running,
    and each adds one cycle to the events. *)
Lemma streaming_loop_undisturbed `{Externals} quiet :
  Forall undisturbed quiet →
  ∀ w, is_running w = true →
    ∃ w1 new,
      (∀ rest, streaming_loop (quiet ++ rest) w = streaming_loop rest w1) ∧
      is_running w1 = true ∧ spark w1 = spark w ∧ client w1 = client w ∧
      events w1 = events w ++ new ∧
      ∀ P, scheduler_kind P →
        count P new = (length quiet * (Nat.b2n (P CycleStart) + Nat.b2n (P CycleEnd)))%nat.
Proof.
  induction 1 as [|it quiet [Hstop Hki] _ IH]; intros w Hrun.
  - exists w, []. rewrite app_nil_r. by repeat split.
  - destruct (iteration_spec it w Hki)
      as (w1 & cyc & Hit & Hcyc & Hev & Hrun1 & Hs1 & Hc1 & _).
    rewrite decide_True in Hrun1 by done.
    destruct (IH w1) as (w2 & new2 & Hloop & Hrun2 & Hs2 & Hc2 & Hev2 & Hcount);
      [congruence|].
    eexists w2, _. split; [|split; [done|split; [congruence|split; [congruence|split]]]].
    + intros rest. cbn [app].
      by rewrite (streaming_loop_step _ _ _ _ Hrun Hit).
    + rewrite Hev2, Hev, <- app_assoc. reflexivity.
    + intros P HP.
      rewrite count_app, (Hcount P HP), (count_iteration _ _ _ _ HP Hcyc).
      unfold stop_events. rewrite Hstop, !decide_False by done.
      cbn [length]. unfold count. cbn. lia.
Qed.

(** The iteration in which a stop is requested: the release calls of the
    request are among its events, once each. *)
Lemma count_stop_iteration P it w :
  stop_request it ≠ NoStop → spark w = true → client w = true →
  (count P (stop_events StopDuringCycle it w) + count P (stop_events StopDuringSleep it w))%nat
  = (Nat.b2n (P StopRequested) + Nat.b2n (P SparkStop) + Nat.b2n (P ClientClose))%nat.
Proof.
  intros Hstop Hs Hc. unfold stop_events. rewrite Hs, Hc.
  destruct (stop_request it); [done| |];
    [rewrite decide_True, decide_False by done
    |rewrite decide_False, decide_True by done];
    unfold count; cbn [app];
    rewrite !filter_cons, filter_nil;
    destruct (P StopRequested), (P SparkStop), (P ClientClose); reflexivity.
Qed.

(** A schedule that runs undisturbed and then meets a stop request. *)
Lemma start_streaming_stop_count `{Externals} quiet it rest w :
  Forall undisturbed quiet →
  stop_request it ≠ NoStop → keyboard_interrupt it = false →
  spark w = true → client w = true →
  ∃ w' new,
    start_streaming (quiet ++ it :: rest) w = Some (Returns tt, w') ∧
    is_running w' = false ∧
    events w' = events w ++ new ∧
    ∀ P, scheduler_kind P →
      count P new =
      (S (length quiet) * (Nat.b2n (P CycleStart) + Nat.b2n (P CycleEnd))
       + Nat.b2n (P StopRequested)
       + 2 * Nat.b2n (P SparkStop) + 2 * Nat.b2n (P ClientClose))%nat.
Proof.
  intros Hquiet Hstop Hki Hs Hc. unfold start_streaming.
  destruct (streaming_loop_undisturbed quiet Hquiet (set_is_running true w) eq_refl)
    as (w1 & new1 & Hloop & Hrun1 & Hs1 & Hc1 & Hev1 & Hcount1).
  cbn [spark client events set_is_running] in *.
  destruct (iteration_spec it w1 Hki)
    as (w2 & cyc & Hit & Hcyc & Hev2 & Hrun2 & Hs2 & Hc2 & _).
  rewrite decide_False in Hrun2 by done.
  rewrite Hloop, (streaming_loop_step _ _ _ _ Hrun1 Hit),
    (streaming_loop_stopped _ _ Hrun2).
  destruct (stop_streaming_spec w2) as (w3 & -> & Hrun3 & _ & _ & _ & _ & Hev3).
  exists w3,
    (new1 ++ ([CycleStart] ++ stop_events StopDuringCycle it w1
                ++ cyc ++ [CycleEnd; pause (update_interval w1) it]
                ++ stop_events StopDuringSleep it w1)
          ++ ((if spark w2 then [SparkStop] else [])
                ++ (if client w2 then [ClientClose] else []))).
  split; [done|]. split; [done|]. split.
  - rewrite Hev3, Hev2, Hev1. by rewrite <- !app_assoc.
  - intros P HP.
    rewrite count_app, (Hcount1 P HP), count_app, (count_iteration _ _ _ _ HP Hcyc).
    assert (Hst := count_stop_iteration P it w1 Hstop
                     (eq_trans Hs1 Hs) (eq_trans Hc1 Hc)).
    rewrite Hs2, Hs1, Hs, Hc2, Hc1, Hc.
    assert (count P ([SparkStop] ++ [ClientClose])
            = (Nat.b2n (P SparkStop) + Nat.b2n (P ClientClose))%nat) as ->
      by (by rewrite count_app, !count_singleton).
    rewrite Nat.mul_succ_l. lia.
Qed.

(** C10, as stated, fails. A stop requested during a cycle releases the
    Spark session and the storage connection at once, and the exit of the
    loop releases both again: each is released twice. The same holds for a
    request that falls in the sleep. *)
Lemma release_not_exactly_once :
  (λ r, events r.2) <$> @start_streaming demo_externals [stop_in_cycle] constructed_pipeline
    = Some [CycleStart; StopRequested; SparkStop; ClientClose; CycleEnd; Slept 25;
            SparkStop; ClientClose] ∧
  (λ r, events r.2) <$> @start_streaming demo_externals [stop_in_sleep] constructed_pipeline
    = Some [CycleStart; CycleEnd; Slept 25; StopRequested; SparkStop; ClientClose;
            SparkStop; ClientClose] ∧
  (λ r, count is_spark_stop (events r.2))
    <$> @start_streaming demo_externals [stop_in_cycle] constructed_pipeline = Some 2%nat ∧
  (λ r, count is_client_close (events r.2))
    <$> @start_streaming demo_externals [stop_in_cycle] constructed_pipeline = Some 2%nat.
Proof. repeat split; vm_compute; reflexivity. Qed.

(** C10, amended. When a stop is requested while the pipeline runs, the
    loop reads the flag only when it comes back to its head: the cycle in
    flight runs to its end, no further cycle starts, and the loop returns.
    The request releases the Spark session and the storage connection right
    away, and the exit of the loop releases them once more: two releases of
    each. *)
Theorem stop_request_completes_cycle_releases_twice `{Externals} quiet it rest w :
  Forall undisturbed quiet →
  stop_request it ≠ NoStop → keyboard_interrupt it = false →
  spark w = true → client w = true →
  ∃ w' new,
    start_streaming (quiet ++ it :: rest) w = Some (Returns tt, w') ∧
    is_running w' = false ∧
    events w' = events w ++ new ∧
    count is_stop_requested new = 1%nat ∧
    count is_cycle_start new = S (length quiet) ∧
    count is_cycle_end new = S (length quiet) ∧
    count is_spark_stop new = 2%nat ∧
    count is_client_close new = 2%nat.
Proof.
  intros Hquiet Hstop Hki Hs Hc.
  destruct (start_streaming_stop_count quiet it rest w Hquiet Hstop Hki Hs Hc)
    as (w' & new & Hrun & Hstopped & Hev & Hcount).
  exists w', new. split; [done|]. split; [done|]. split; [done|].
  rewrite (Hcount _ is_stop_requested_kind), (Hcount _ is_cycle_start_kind),
    (Hcount _ is_cycle_end_kind), (Hcount _ is_spark_stop_kind),
    (Hcount _ is_client_close_kind).
  cbn [is_stop_requested is_cycle_start is_cycle_end is_spark_stop is_client_close
       Nat.b2n].
  repeat split; lia.
Qed.

(** One undisturbed iteration, then a stop requested during the cycle. *)
Lemma stop_request_completes_cycle_releases_twice_witness :
  ∃ w' new,
    @start_streaming demo_externals ([overrun_iteration] ++ stop_in_cycle :: [overrun_iteration])
      constructed_pipeline = Some (Returns tt, w') ∧
    is_running w' = false ∧
    events w' = events constructed_pipeline ++ new ∧
    count is_stop_requested new = 1%nat ∧
    count is_cycle_start new = 2%nat ∧
    count is_cycle_end new = 2%nat ∧
    count is_spark_stop new = 2%nat ∧
    count is_client_close new = 2%nat.
Proof.
  apply (@stop_request_completes_cycle_releases_twice demo_externals
           [overrun_iteration] stop_in_cycle [overrun_iteration] constructed_pipeline).
  - repeat constructor.
  - discriminate.
  - reflexivity.
  - reflexivity.
  - reflexivity.
Defined.

(** ** Error propagation and construction *)

(** A cycle returns whatever fails inside it. *)
Lemma run_single_cycle_returns `{Externals} env w :
  ∃ w', run_single_cycle env w = (Returns tt, w').
Proof.
  destruct (run_single_cycle_spec env w) as (w' & new & Hrun & _).
  by exists w'.
Qed.

Lemma iteration_interrupted `{Externals} it w :
  keyboard_interrupt it = true → ∃ w', iteration it w = (Returns Break, w').
Proof.
  intros Hki. unfold iteration. run. rewrite Hki.
  destruct (external_stop_spec StopDuringCycle it (add_event CycleStart w))
    as (w1 & -> & _).
  by eexists.
Qed.

(** The loop never ends in an exception. *)
Lemma streaming_loop_never_raises `{Externals} schedule :
  ∀ w e w', streaming_loop schedule w ≠ Some (Raises e, w').
Proof.
  induction schedule as [|it rest IH]; intros w e w'; cbn [streaming_loop];
    destruct (is_running w); try done.
  destruct (keyboard_interrupt it) eqn:Hki.
  - by destruct (iteration_interrupted it w Hki) as (w1 & ->).
  - destruct (iteration_spec it w Hki) as (w1 & cyc & -> & _). apply IH.
Qed.

(** Construction raises the first uncaught error of its steps, and returns
    when there is none. *)
Lemma RealTimePipeline_init_outcome ie w :
  (RealTimePipeline_init ie w).1 =
  match construction_error ie with
  | Some e => Raises e
  | None => Returns tt
  end.
Proof.
  destruct ie as [tw pr ga sw mc pg ix sp].
  unfold RealTimePipeline_init, connect, setup_indexes, setup_spark,
    construction_error, first_error.
  cbn [tweepy_error praw_error googleapi_error stopwords_error mongo_client_error
       ping_error index_error spark_session_error foldr].
  destruct tw; [done|]. destruct pr; [done|]. destruct ga; [done|].
  destruct sw; [done|]. destruct mc; [done|]. destruct pg; [done|].
  destruct ix, sp; done.
Qed.

(** Construction attempts the storage connection and the Spark session at
    most once each. *)
Lemma RealTimePipeline_init_attempts ie raw results :
  (count is_mongo_connect (events (RealTimePipeline_init ie (unborn raw results)).2) ≤ 1)%nat ∧
  (count is_spark_create (events (RealTimePipeline_init ie (unborn raw results)).2) ≤ 1)%nat.
Proof.
  destruct ie as [tw pr ga sw mc pg ix sp].
  destruct tw, pr, ga, sw, mc, pg, ix, sp; vm_compute; lia.
Qed.

(** C9, as stated, fails. With the storage connection established,
    construction is still aborted when the Spark session cannot be
    created: [setup_spark] raises the error again. *)
Lemma spark_failure_aborts_construction :
  mongo_client_error spark_down = None ∧ ping_error spark_down = None ∧
  (RealTimePipeline_init spark_down (unborn [] [])).1 = Raises spark_unavailable ∧
  events (RealTimePipeline_init spark_down (unborn [] [])).2
    = [MongoConnect; SparkCreate; LogError "Error setting up Spark"].
Proof. repeat split; vm_compute; reflexivity. Qed.

(** C9, amended. No error of a source fetch, of a scoring call or of a
    storage write aborts the cycle or the scheduler loop: a cycle always
    returns and the loop never ends in an exception. Construction of the
    pipeline is aborted by the first error that one of its steps raises:
    a failure to establish the storage connection, and as well a failure to
    create the Spark session or to build one of the other components; the
    storage connection and the Spark session are attempted at most once. *)
Theorem errors_degrade_construction_fails_fast `{Externals} :
  (∀ env w, ∃ w', run_single_cycle env w = (Returns tt, w')) ∧
  (∀ schedule w e w', streaming_loop schedule w ≠ Some (Raises e, w')) ∧
  (∀ ie raw results,
     (RealTimePipeline_init ie (unborn raw results)).1 =
       match construction_error ie with
       | Some e => Raises e
       | None => Returns tt
       end ∧
     (count is_mongo_connect
        (events (RealTimePipeline_init ie (unborn raw results)).2) ≤ 1)%nat ∧
     (count is_spark_create
        (events (RealTimePipeline_init ie (unborn raw results)).2) ≤ 1)%nat).
Proof.
  split; [|split].
  - apply run_single_cycle_returns.
  - intros schedule. apply streaming_loop_never_raises.
  - intros ie raw results. split.
    + apply RealTimePipeline_init_outcome.
    + apply RealTimePipeline_init_attempts.
Qed.

(** ** Normalization, the length filter and duplicates *)

(** On a cleaned row the text handed to the scorer is the text column. *)
Lemma text_of_asDict t r text :
  r_text r = Some text → (10 < String.length text)%nat →
  text_of (asDict t r) = PStr text ∧ truthy (PStr text) = true.
Proof.
  intros Htext Hlen.
  assert (Htruthy : truthy (PStr text) = true)
    by (destruct text; [cbn in Hlen; lia | done]).
  split; [|done].
  unfold text_of, dict_get. rewrite asDict_text, Htext.
  cbn [opt_str from_option]. unfold py_or at 2. rewrite Htruthy.
  unfold py_or. by rewrite Htruthy.
Qed.

Lemma long_text_spec r :
  long_text r = true ↔ ∃ text, r_text r = Some text ∧ (10 < String.length text)%nat.
Proof.
  unfold long_text. destruct (r_text r) as [text|].
  - split.
    + intros Hlen. exists text. split; [done | by apply Nat.ltb_lt].
    + intros (text' & [= <-] & Hlen). by apply Nat.ltb_lt.
  - split; [done | by intros (text & [=] & _)].
Qed.

(** When the scorer returns on every text, the loop yields one result for
    each cleaned row, in order, with the identifier and the text of the
    row. *)
Lemma sentiment_loop_cleaned `{Externals} trained t t' rows :
  (∀ text, ∃ s, predict_sentiment trained text = Returns s) →
  Forall (λ r, long_text r = true) rows →
  ∀ acc,
    let results := (sentiment_loop trained t (asDict t' <$> rows) acc).1 in
    post_id <$> results = (post_id <$> acc) ++ ((λ r, opt_str (r_id r)) <$> rows) ∧
    sr_text <$> results = (sr_text <$> acc) ++ ((λ r, opt_str (r_text r)) <$> rows).
Proof.
  intros Hscore Hrows. induction Hrows as [|r rows Hr _ IH]; intros acc.
  - cbn. by rewrite !app_nil_r.
  - apply long_text_spec in Hr as (text & Htext & Hlen).
    destruct (text_of_asDict t' r text Htext Hlen) as [Htxt Htruthy].
    cbn [fmap list_fmap sentiment_loop]. rewrite Htxt, Htruthy.
    cbn [score_value]. destruct (Hscore text) as [s ->].
    destruct (IH (acc ++ [result_of t (asDict t' r) (PStr text) s])) as [IHid IHtext].
    cbn zeta in *. rewrite IHid, IHtext, !fmap_app, <- !app_assoc.
    cbn [fmap list_fmap app post_id sr_text result_of].
    unfold dict_get. by rewrite asDict_id, Htext.
Qed.


(** The loop over cleaned rows: it yields one result, with the identifier
    and the text of the row, for each row of an initial segment of the
    rows, and for every row when the scorer returns on each of them. *)
Lemma sentiment_loop_kept `{Externals} trained t t' rows :
  Forall (λ r, long_text r = true) rows →
  ∀ acc, ∃ n results,
    (sentiment_loop trained t (asDict t' <$> rows) acc).1 = acc ++ results ∧
    (n ≤ length rows)%nat ∧
    post_id <$> results = take n ((λ r, opt_str (r_id r)) <$> rows) ∧
    sr_text <$> results = take n ((λ r, opt_str (r_text r)) <$> rows) ∧
    (Forall (λ r, ∀ text, r_text r = Some text →
                          ∃ s, predict_sentiment trained text = Returns s) rows →
     n = length rows).
Proof.
  induction 1 as [|r rows Hr _ IH]; intros acc.
  { exists 0%nat, []. by rewrite app_nil_r. }
  apply long_text_spec in Hr as (text & Htext & Hlen).
  destruct (text_of_asDict t' r text Htext Hlen) as [Htxt Htruthy].
  cbn [fmap list_fmap sentiment_loop]. rewrite Htxt, Htruthy. cbn [score_value].
  destruct (predict_sentiment trained text) as [s|e] eqn:Hscore.
  - destruct (IH (acc ++ [result_of t (asDict t' r) (PStr text) s]))
      as (n & results & Hloop & Hn & Hids & Htexts & Hall).
    exists (S n), (result_of t (asDict t' r) (PStr text) s :: results).
    split; [by rewrite Hloop, <- app_assoc|].
    split; [cbn [length]; lia|].
    cbn [fmap list_fmap take post_id sr_text result_of]. unfold dict_get.
    rewrite asDict_id, Htext, Hids, Htexts.
    split; [done|]. split; [done|].
    intros [_ Hrows]%Forall_cons. cbn [length]. by rewrite (Hall Hrows).
  - exists 0%nat, []. cbn [fst]. rewrite app_nil_r.
    split; [done|]. split; [lia|]. split; [done|]. split; [done|].
    intros [Hhead _]%Forall_cons. destruct (Hhead text Htext) as [s Hs]. congruence.
Qed.

(** What the cleaning step returns: rows of the frame, pairwise different,
    those and only those that pass the filter; none when the Spark stage
    fails. *)
Lemma process_batch_data_kept `{Externals} env posts :
  ∃ kept,
    cleaned env posts = asDict (spark_now env) <$> kept ∧
    NoDup kept ∧
    Forall (λ r, long_text r = true) kept ∧
    (∀ df, spark_error env = None → createDataFrame posts = Returns df →
       ∀ r, r ∈ kept ↔ r ∈ df ∧ long_text r = true) ∧
    ((spark_error env ≠ None ∨ ∃ e, createDataFrame posts = Raises e) → kept = []).
Proof.
  unfold cleaned. destruct posts as [|post posts].
  { exists []. split; [done|]. split; [constructor|]. split; [constructor|].
    split; [|done]. intros df _ [= <-] r. split; [by intros ?%elem_of_nil|].
    by intros [?%elem_of_nil _]. }
  destruct (spark_error env) as [e|].
  { exists []. split; [done|]. split; [constructor|]. split; [constructor|]. by split. }
  destruct (createDataFrame (post :: posts)) as [df|e].
  - exists (cleaned_df df). split; [done|]. split; [apply cleaned_df_NoDup|].
    split; [apply Forall_forall; by intros r [_ ?]%cleaned_df_elem|].
    split.
    + intros df' _ [= <-] r. apply cleaned_df_elem.
    + by intros [?|[e [=]]].
  - exists []. split; [done|]. split; [constructor|]. split; [constructor|]. by split.
Qed.


(** C7, as stated, fails. Two posts with one identifier and different texts
    both reach storage, and both are scored; two posts equal in every field
    both reach storage as well, the raw posts being stored as collected. *)
Lemma same_id_stored_twice :
  post_love !! "id" = post_hate !! "id" ∧
  raw_batches (events (@run_single_cycle demo_externals
                         (reddit_cycle [post_love; post_hate]) constructed_pipeline).2)
    = [[post_love; post_hate]] ∧
  (λ docs : list sentiment_result, post_id <$> docs) <$> result_batches
      (events (@run_single_cycle demo_externals
                 (reddit_cycle [post_love; post_hate]) constructed_pipeline).2)
    = [[PStr "abc"; PStr "abc"]] ∧
  raw_batches (events (@run_single_cycle demo_externals
                         (reddit_cycle [post_love; post_love]) constructed_pipeline).2)
    = [[post_love; post_love]].
Proof. repeat split; vm_compute; reflexivity. Qed.

(** C7, amended. Within a cycle nothing is deduplicated by identifier. The
    raw posts are handed to storage as they were collected, duplicates
    included. Duplicates are removed only among the rows on their way to
    scoring, by [distinct()], which compares all nine columns: the rows that
    the cleaning step returns are pairwise different and, when the Spark
    stage succeeds, are exactly the rows that pass the filter on the text,
    so that rows sharing an identifier and differing in another column are
    all kept; and when the scorer returns on the text of every kept row,
    each kept row yields one result, with its identifier and its text, all
    of them handed to storage in one batch. *)
Theorem duplicates_removed_by_whole_row_before_scoring `{Externals} env w :
  ∃ w' new kept,
    run_single_cycle env w = (Returns tt, w') ∧
    events w' = events w ++ new ∧
    raw_batches new = (if nonempty (collected env) then [collected env] else []) ∧
    (∀ w0, (process_batch_data env (collected env) w0).1
           = Returns (asDict (spark_now env) <$> kept)) ∧
    NoDup kept ∧
    (∀ df, spark_error env = None → createDataFrame (collected env) = Returns df →
       ∀ r, r ∈ kept ↔ r ∈ df ∧ long_text r = true) ∧
    ((∀ r text, r ∈ kept → r_text r = Some text →
                ∃ s, predict_sentiment (is_trained w) text = Returns s) →
     ∃ results,
       result_batches new = (if nonempty kept then [results] else []) ∧
       length results = length kept ∧
       post_id <$> results = (λ r, opt_str (r_id r)) <$> kept ∧
       sr_text <$> results = (λ r, opt_str (r_text r)) <$> kept).
Proof.
  destruct (run_single_cycle_spec env w)
    as (w' & new & Hrun & [_ Hev] & _ & Hraw & Hres).
  destruct (process_batch_data_kept env (collected env))
    as (kept & Hcleaned & Hnodup & Hlong & Hfilter & _).
  exists w', new, kept.
  split; [done|]. split; [done|]. split; [done|]. split; [|split; [done|split; [done|]]].
  { intros w0. destruct (process_batch_data_spec env (collected env) w0)
      as (w1 & logs1 & -> & _). by rewrite Hcleaned. }
  intros Hscore.
  destruct (sentiment_loop_kept (is_trained w) (now env) (spark_now env) kept Hlong [])
    as (n & results & Hloop & Hn & Hids & Htexts & Hall).
  assert (n = length kept) as ->.
  { apply Hall, Forall_forall. intros r Hr text. by apply Hscore. }
  rewrite !take_ge in Hids, Htexts by (by rewrite length_fmap).
  assert (Hscored : scored env (is_trained w) (collected env) = results)
    by (unfold scored; by rewrite Hcleaned, Hloop).
  assert (Hlen : length results = length kept).
  { by rewrite <- (length_fmap post_id results), Hids, length_fmap. }
  exists (set_processed_at (now env) <$> results).
  cbn zeta in Hres. rewrite Hscored in Hres.
  split; [|split; [by rewrite length_fmap|split]].
  - rewrite Hres. destruct results, kept; done.
  - rewrite <- Hids, <- list_fmap_compose. by apply list_fmap_ext.
  - rewrite <- Htexts, <- list_fmap_compose. by apply list_fmap_ext.
Qed.

(** C5 at a video as the YouTube collector builds it, and at a Reddit
    submission. The fallback expression, applied to the collected video,
    yields its title; but the pipeline applies it after the Spark stage,
    which has no title column and drops every row without text: the video is
    not scored at all. For the submission, whose payload has no [likes] and a
    [score] of 57, the result carries a null [likes] and a [score] of 0. *)
Theorem text_fallback_is_unreachable :
  youtube_video !! "text" = None ∧
  text_of youtube_video = PStr "Python tutorial for beginners" ∧
  (@process_sentiment_batch demo_externals (youtube_cycle [])
     [youtube_video] constructed_pipeline).1 = Returns [] ∧
  post_love !! "likes" = None ∧ post_love !! "score" = Some (PInt 57) ∧
  (λ r, (m_likes (metadata r), m_score (metadata r)))
    <$> @scored demo_externals (reddit_cycle []) false [post_love]
    = [(PNone, PInt 0)].
Proof. repeat split; vm_compute; reflexivity. Qed.

(** What holds of normalization in any case: it returns on every list of
    payloads, and each result carries the identifier and the platform that
    the Spark stage stored for one of the payloads. *)
Lemma process_sentiment_batch_total `{Externals} env posts w :
  ∃ w' results,
    process_sentiment_batch env posts w = (Returns results, w') ∧
    ∀ r, r ∈ results →
      ∃ post, post ∈ posts ∧
        post_id r = opt_str (string_col (post !! "id")) ∧
        sr_platform r = opt_str (string_col (post !! "platform")).
Proof.
  destruct (process_sentiment_batch_spec env posts w) as (w' & logs & Hrun & _).
  exists w', (scored env (is_trained w) posts). split; [done|].
  unfold scored.
  intros r [[]%elem_of_nil|(d & s & Hd & ->)]%sentiment_loop_elem.
  apply cleaned_elem in Hd as (df & row & Hdf & Hrow & _ & ->).
  destruct (createDataFrame_elem _ _ _ Hdf Hrow) as (post & Hpost & Hto).
  exists post. split; [done|].
  destruct (to_row_strings _ _ Hto) as (Hid & _ & Hplatform).
  cbn [post_id sr_platform result_of]. unfold dict_get.
  rewrite asDict_id, Hid.
  assert (asDict (spark_now env) row !! "platform" = Some (opt_str (r_platform row)))
    as -> by reflexivity.
  by rewrite Hplatform.
Qed.

(* ================================================================== *)
(** * Further properties *)

(** ** The retry policy *)

(** X1. The policy is antitone in the error count: an error that is still
    retried at some count is retried at every smaller count, and no error is
    retried beyond a count of 5. *)
Theorem should_retry_antitone error n m :
  n ≤ m →
  _should_retry error m = true →
  _should_retry error n = true ∧ m ≤ 5.
Proof.
  unfold _should_retry. intros Hnm.
  destruct (Z.gtb_spec m 5); [done|].
  destruct (Z.gtb_spec n 5); [lia|].
  destruct (any_term_in network_terms _); [done|].
  destruct (any_term_in rate_limit_terms _); [done|].
  destruct (any_term_in auth_terms _); [done|].
  intros Hm%Z.leb_le. split; [apply Z.leb_le; lia | done].
Qed.

(** The policy at a plain failure, retried at the third error and so at the
    first. *)
Lemma should_retry_antitone_witness :
  _should_retry (Exn false "ValueError" "bad response") 1 = true ∧ 3 ≤ 5.
Proof.
  apply (should_retry_antitone (Exn false "ValueError" "bad response") 1 3).
  - lia.
  - reflexivity.
Defined.

(** ** The fetch loop of the Twitter adapter *)

Ltac fetch_cases api :=
  unfold collect_tweets; rewrite attempts_unfold; cbn [attempt_loop];
  change (0 <? max_retries - 1) with true;
  change (1 <? max_retries - 1) with true;
  change (2 <? max_retries - 1) with false;
  destruct (raised (api 0)) as [e0|]; [destruct (exn_rate_limited e0)|];
  [destruct (raised (api 1)) as [e1|]; [destruct (exn_rate_limited e1)|];
   [destruct (raised (api 2)) as [e2|]; [destruct (exn_rate_limited e2)|]
   |destruct (raised (api 2)) as [e2|]; [destruct (exn_rate_limited e2)|]|]
  |destruct (raised (api 1)) as [e1|]; [destruct (exn_rate_limited e1)|];
   [destruct (raised (api 2)) as [e2|]; [destruct (exn_rate_limited e2)|]
   |destruct (raised (api 2)) as [e2|]; [destruct (exn_rate_limited e2)|]|]
  |].

(** X2. Whatever the API does, a fetch call sends at least one and at most
    three requests, each of its sleeps lasts 30, 60 or 120 seconds, and it
    sleeps at most 180 seconds in all. *)
Theorem collect_tweets_bounds api keywords :
  (1 ≤ fetch_requests (collect_tweets api keywords).2 ≤ 3)%nat ∧
  0 ≤ fetch_sleep (collect_tweets api keywords).2 ≤ 180 ∧
  Forall (λ ev, ev = Request ∨ ev = Sleep 30 ∨ ev = Sleep 60 ∨ ev = Sleep 120)
    (collect_tweets api keywords).2.
Proof.
  fetch_cases api; cbn [snd app];
    change (60 * 2) with 120; change (Z.min 60 30) with 30;
    change (Z.min 120 30) with 30;
    cbn [fetch_requests fetch_sleep foldr];
    (split; [lia|]); (split; [lia|]);
    repeat (apply Forall_cons; split; [auto 6|]); done.
Qed.

(** X3. When an attempt succeeds, the call returns the English tweets of
    every attempt up to that one, in order: what a failed attempt yielded
    before its error is kept, and the retry adds to it. *)
Theorem collect_tweets_keeps_partial_results api keywords k :
  0 ≤ k < 3 →
  (∀ j, 0 ≤ j < k → raised (api j) ≠ None) →
  raised (api k) = None →
  (collect_tweets api keywords).1 =
  concat ((λ j, english_of keywords (api j)) <$> seqZ 0 (k + 1)).
Proof.
  intros Hk Hfail Hok.
  assert (k = 0 ∨ k = 1 ∨ k = 2) as [-> | [-> | ->]] by lia.
  - unfold collect_tweets. rewrite attempts_unfold. cbn [attempt_loop].
    rewrite Hok. change (seqZ 0 (0 + 1)) with [0].
    cbn [fst app fmap list_fmap concat]. unfold english_of.
    by rewrite app_nil_r.
  - pose proof (Hfail 0 ltac:(lia)) as H0.
    unfold collect_tweets. rewrite attempts_unfold. cbn [attempt_loop].
    destruct (raised (api 0)) as [e0|]; [|done].
    change (0 <? max_retries - 1) with true.
    change (seqZ 0 (1 + 1)) with [0; 1].
    destruct (exn_rate_limited e0); rewrite Hok;
      cbn [fst app fmap list_fmap concat]; unfold english_of;
      by rewrite app_nil_r.
  - pose proof (Hfail 0 ltac:(lia)) as H0. pose proof (Hfail 1 ltac:(lia)) as H1.
    unfold collect_tweets. rewrite attempts_unfold. cbn [attempt_loop].
    destruct (raised (api 0)) as [e0|]; [|done].
    destruct (raised (api 1)) as [e1|]; [|done].
    change (0 <? max_retries - 1) with true.
    change (1 <? max_retries - 1) with true.
    change (seqZ 0 (2 + 1)) with [0; 1; 2].
    destruct (exn_rate_limited e0), (exn_rate_limited e1); rewrite Hok;
      cbn [fst app fmap list_fmap concat]; unfold english_of;
      by rewrite app_nil_r, <- app_assoc.
Qed.

(** A first attempt that yields a tweet and fails, a second that yields it
    again: the tweet is returned twice. *)
Lemma collect_tweets_keeps_partial_results_witness :
  (collect_tweets api_fails_then_answers ["python"]).1 =
  concat ((λ j, english_of ["python"] (api_fails_then_answers j)) <$> seqZ 0 (1 + 1)).
Proof.
  apply (collect_tweets_keeps_partial_results api_fails_then_answers ["python"] 1).
  - lia.
  - intros j Hj. assert (j = 0) as -> by lia. discriminate.
  - reflexivity.
Defined.

(** X4. When all three attempts fail, with whatever errors, the call
    returns the empty list after three requests: the tweets gathered on the
    way are discarded. *)
Theorem collect_tweets_exhaustion_discards api keywords :
  (∀ j, 0 ≤ j < 3 → raised (api j) ≠ None) →
  (collect_tweets api keywords).1 = [] ∧
  fetch_requests (collect_tweets api keywords).2 = 3%nat.
Proof.
  intros Hfail.
  pose proof (Hfail 0 ltac:(lia)) as H0. pose proof (Hfail 1 ltac:(lia)) as H1.
  pose proof (Hfail 2 ltac:(lia)) as H2.
  unfold collect_tweets. rewrite attempts_unfold. cbn [attempt_loop].
  destruct (raised (api 0)) as [e0|]; [|done].
  destruct (raised (api 1)) as [e1|]; [|done].
  destruct (raised (api 2)) as [e2|]; [|done].
  change (0 <? max_retries - 1) with true.
  change (1 <? max_retries - 1) with true.
  change (2 <? max_retries - 1) with false.
  by destruct (exn_rate_limited e0), (exn_rate_limited e1), (exn_rate_limited e2).
Qed.

Lemma collect_tweets_exhaustion_discards_witness :
  (collect_tweets api_always_401 ["python"]).1 = [] ∧
  fetch_requests (collect_tweets api_always_401 ["python"]).2 = 3%nat.
Proof.
  apply (collect_tweets_exhaustion_discards api_always_401 ["python"]).
  intros j _. discriminate.
Defined.

(** ** From the adapters to the Spark stage *)

Lemma integer_col_in_range n :
  in_int32 n → integer_col (Some (PInt n)) = Returns (Some n).
Proof.
  intros [Hlo Hhi]. unfold integer_col.
  by rewrite (proj2 (Z.leb_le _ _) Hlo), (proj2 (Z.leb_le _ _) Hhi).
Qed.

Lemma integer_col_out_of_range n :
  ¬ in_int32 n → integer_col (Some (PInt n)) = Raises out_of_range.
Proof.
  intros Hn. unfold integer_col, in_int32 in *.
  destruct (Z.leb_spec (-2147483648) n), (Z.leb_spec n 2147483647); try done; lia.
Qed.

(** X5. A tweet payload built by the adapter passes the type check of the
    Spark schema when its like and retweet counts fit 32 bits, and gives a
    row with every column set: the numeric tweet and author identifiers
    become their text. With a count beyond 32 bits the check raises. *)
Theorem tweet_payload_row `{Externals} keywords tw :
  let likes := default 0 (tw_public_metrics tw.1 !! "like_count") in
  let retweets := default 0 (tw_public_metrics tw.1 !! "retweet_count") in
  (in_int32 likes → in_int32 retweets →
   to_row (tweet_data keywords tw) =
   Returns (Row (Some (java_to_string (PInt (tw_id tw.1))))
                (Some (tw_text tw.1))
                (Some "twitter")
                (Some (tw_created_at tw.1))
                (Some (java_to_string (PInt (tw_author_id tw.1))))
                (Some likes) (Some retweets) (Some tw.2) (Some keywords))) ∧
  (¬ in_int32 likes → to_row (tweet_data keywords tw) = Raises out_of_range).
Proof.
  intros likes retweets. unfold to_row.
  assert (tweet_data keywords tw !! "created_at" = Some (PTime (tw_created_at tw.1)))
    as -> by reflexivity.
  assert (tweet_data keywords tw !! "likes" = Some (PInt likes)) as -> by reflexivity.
  assert (tweet_data keywords tw !! "retweets" = Some (PInt retweets)) as -> by reflexivity.
  assert (tweet_data keywords tw !! "collected_at" = Some (PTime tw.2)) as -> by reflexivity.
  assert (tweet_data keywords tw !! "keywords" = Some (PList keywords)) as -> by reflexivity.
  assert (tweet_data keywords tw !! "id" = Some (PInt (tw_id tw.1))) as -> by reflexivity.
  assert (tweet_data keywords tw !! "text" = Some (PStr (tw_text tw.1))) as -> by reflexivity.
  assert (tweet_data keywords tw !! "platform" = Some (PStr "twitter")) as -> by reflexivity.
  assert (tweet_data keywords tw !! "author_id" = Some (PInt (tw_author_id tw.1)))
    as -> by reflexivity.
  split.
  - intros Hl Hr. rewrite (integer_col_in_range _ Hl), (integer_col_in_range _ Hr).
    reflexivity.
  - intros Hl. by rewrite (integer_col_out_of_range _ Hl).
Qed.

(** ** The scorer *)

(** X6. The scorer raises only when TextBlob does: trained or not, and
    whatever the trained model returns or raises, a text on which TextBlob
    returns gets a sentiment, and an exception of the scorer is the one
    TextBlob raised on that text. *)
Theorem predict_sentiment_raises_only_with_textblob `{Externals} trained text e :
  predict_sentiment trained text = Raises e →
  TextBlob_sentiment text = Raises e.
Proof.
  assert (Hblob : textblob_sentiment text = Raises e → TextBlob_sentiment text = Raises e).
  { unfold textblob_sentiment.
    destruct (TextBlob_sentiment text) as [[p s]|e']; [done | congruence]. }
  unfold predict_sentiment. destruct trained; cbn [negb]; [|done].
  destruct (model_predict text) as [[prediction [[p_neg p_neu] p_pos]]|]; [|done].
  by destruct (label_map prediction).
Qed.

Lemma predict_sentiment_raises_only_with_textblob_witness :
  @TextBlob_sentiment broken_externals "I love python" = Raises missing_corpus.
Proof.
  apply (@predict_sentiment_raises_only_with_textblob broken_externals true
           "I love python" missing_corpus).
  reflexivity.
Defined.

(** ** The database across a cycle *)

Lemma db_grows_refl w : db_grows w w [] [].
Proof. split; by rewrite app_nil_r. Qed.

Lemma db_grows_trans w1 w2 w3 p1 p2 r1 r2 :
  db_grows w1 w2 p1 r1 → db_grows w2 w3 p2 r2 →
  db_grows w1 w3 (p1 ++ p2) (r1 ++ r2).
Proof.
  intros [P1 R1] [P2 R2]. split.
  - by rewrite P2, P1, app_assoc.
  - by rewrite R2, R1, app_assoc.
Qed.

Lemma db_grows_add_event ev w : db_grows w (add_event ev w) [] [].
Proof. split; cbn; by rewrite app_nil_r. Qed.

Ltac solve_db := split; cbn; by rewrite ?app_nil_r.

Lemma collect_data_from_all_sources_db env w :
  db_grows w (collect_data_from_all_sources env w).2 [] [].
Proof.
  unfold collect_data_from_all_sources.
  destruct (twitter_future env), (reddit_future env), (youtube_future env);
    run; solve_db.
Qed.

Lemma process_batch_data_db `{Externals} env posts w :
  db_grows w (process_batch_data env posts w).2 [] [].
Proof.
  unfold process_batch_data.
  destruct posts as [|post posts]; cbn [nonempty negb]; [run; solve_db|].
  destruct (spark_error env); run; [solve_db|].
  destruct (createDataFrame (post :: posts)); run; solve_db.
Qed.

Lemma process_sentiment_batch_db `{Externals} env posts w :
  db_grows w (process_sentiment_batch env posts w).2 [] [].
Proof.
  unfold process_sentiment_batch. run.
  pose proof (process_batch_data_db env posts w) as Hdb.
  destruct (process_batch_data env posts w) as [[cleaned_posts|e] w1];
    cbn [snd] in Hdb.
  - destruct (sentiment_loop _ _ _ _) as [results [e|]];
      cbn [snd]; [|done].
    apply (db_grows_trans _ _ _ [] [] [] [] Hdb), db_grows_add_event.
  - cbn [snd]. apply (db_grows_trans _ _ _ [] [] [] [] Hdb), db_grows_add_event.
Qed.

Lemma insert_raw_posts_db env posts w :
  nonempty posts = true →
  db_grows w (insert_raw_posts env posts w).2 (written (raw_insert_error env) posts) [].
Proof.
  intros Hne. unfold insert_raw_posts, insert_many_raw_posts, written. rewrite Hne.
  destruct (raw_insert_error env); run; solve_db.
Qed.

Lemma insert_sentiment_results_db env results w :
  nonempty results = true →
  db_grows w (insert_sentiment_results env results w).2 []
    (written (result_insert_error env) (set_processed_at (now env) <$> results)).
Proof.
  intros Hne. unfold insert_sentiment_results, insert_many_sentiment_results, written.
  rewrite Hne.
  destruct (result_insert_error env); run; solve_db.
Qed.

Lemma store_results_db env raw_posts sentiment_results w :
  db_grows w (store_results env raw_posts sentiment_results w).2
    (if nonempty raw_posts then written (raw_insert_error env) raw_posts else [])
    (if nonempty sentiment_results
     then written (result_insert_error env)
            (set_processed_at (now env) <$> sentiment_results)
     else []).
Proof.
  unfold store_results.
  destruct (nonempty raw_posts) eqn:H1, (nonempty sentiment_results) eqn:H2; run.
  - pose proof (insert_raw_posts_db env raw_posts w H1) as Hdb1.
    destruct (insert_raw_posts_spec env raw_posts w H1) as (n1 & w1 & l1 & E1 & _).
    rewrite E1 in Hdb1 |- *. cbn [snd] in Hdb1.
    pose proof (insert_sentiment_results_db env sentiment_results w1 H2) as Hdb2.
    destruct (insert_sentiment_results_spec env sentiment_results w1 H2)
      as (n2 & w2 & l2 & E2 & _).
    rewrite E2 in Hdb2 |- *. cbn [snd] in *.
    pose proof (db_grows_trans _ _ _ _ _ _ _ Hdb1 Hdb2) as Hdb.
    by rewrite app_nil_r in Hdb.
  - pose proof (insert_raw_posts_db env raw_posts w H1) as Hdb1.
    destruct (insert_raw_posts_spec env raw_posts w H1) as (n1 & w1 & l1 & E1 & _).
    rewrite E1 in Hdb1 |- *. done.
  - pose proof (insert_sentiment_results_db env sentiment_results w H2) as Hdb2.
    destruct (insert_sentiment_results_spec env sentiment_results w H2)
      as (n2 & w2 & l2 & E2 & _).
    rewrite E2 in Hdb2 |- *. done.
  - apply db_grows_refl.
Qed.

(** X7. The database after a cycle. The collection of raw posts has grown
    by the collected posts, as collected, or by those written before a
    failing write; the collection of results has grown by the scored results,
    stamped with the time of the insert, or by those written before a
    failing write. The two writes are independent: results are stored even
    when the write of their posts fails, and the other way round. *)
Theorem run_single_cycle_database `{Externals} env w :
  let posts := collected env in
  let results := scored env (is_trained w) posts in
  db_grows w (run_single_cycle env w).2
    (if nonempty posts then written (raw_insert_error env) posts else [])
    (if nonempty results
     then written (result_insert_error env) (set_processed_at (now env) <$> results)
     else []).
Proof.
  intros posts results. unfold run_single_cycle. run.
  pose proof (collect_data_from_all_sources_db env w) as Hdb1.
  destruct (collect_data_from_all_sources_spec env w)
    as (w1 & logs1 & E1 & Hext1 & _).
  rewrite E1 in Hdb1 |- *. cbn [snd] in Hdb1. fold posts.
  destruct (nonempty posts) eqn:Hne.
  - pose proof (process_sentiment_batch_db env posts w1) as Hdb2.
    destruct (process_sentiment_batch_spec env posts w1)
      as (w2 & logs2 & E2 & _).
    rewrite E2 in Hdb2 |- *. cbn [snd] in Hdb2.
    rewrite (extends_is_trained _ _ _ Hext1) in *. fold results in E2 |- *.
    pose proof (store_results_db env posts results w2) as Hdb3.
    destruct (store_results_spec env posts results w2) as (w3 & new3 & E3 & _).
    rewrite E3 in Hdb3 |- *. rewrite aggregate_sentiment_stats_spec.
    cbn [snd] in *. rewrite Hne in Hdb3.
    pose proof (db_grows_trans _ _ _ _ _ _ _
                  (db_grows_trans _ _ _ _ _ _ _ Hdb1 Hdb2) Hdb3) as Hdb.
    cbn [app] in Hdb. revert Hdb.
    destruct (nonempty results); intros Hdb; exact Hdb.
  - cbn [snd].
    assert (posts = []) as Hnil by (by destruct posts).
    unfold results. rewrite Hnil. exact Hdb1.
Qed.

(** ** Cycles that degrade *)

(** X8. A cycle in which no source delivers a post is a no-op: it returns,
    hands nothing to storage, leaves both collections and the pipeline
    attributes as they were, and adds only the error lines of the sources
    that failed. *)
Theorem empty_cycle_is_noop `{Externals} env w :
  collected env = [] →
  ∃ w' logs,
    run_single_cycle env w = (Returns tt, w') ∧
    events w' = events w ++ logs ∧
    Forall (λ ev, is_log ev = true) logs ∧
    pipeline_fields w' = pipeline_fields w ∧
    db_raw_posts w' = db_raw_posts w ∧
    db_sentiment_results w' = db_sentiment_results w.
Proof.
  intros Hempty. unfold run_single_cycle. run.
  pose proof (collect_data_from_all_sources_db env w) as [Hraw Hres].
  destruct (collect_data_from_all_sources_spec env w)
    as (w1 & logs & E1 & [Hf Hev] & Hlogs).
  rewrite E1 in Hraw, Hres |- *. cbn [snd] in Hraw, Hres.
  rewrite Hempty. cbn [nonempty].
  exists w1, logs. rewrite app_nil_r in Hraw, Hres.
  done.
Qed.

(** Every source down. *)
Lemma empty_cycle_is_noop_witness :
  ∃ w' logs,
    @run_single_cycle demo_externals (twitter_only []) running_pipeline = (Returns tt, w') ∧
    events w' = events running_pipeline ++ logs ∧
    Forall (λ ev, is_log ev = true) logs ∧
    pipeline_fields w' = pipeline_fields running_pipeline ∧
    db_raw_posts w' = db_raw_posts running_pipeline ∧
    db_sentiment_results w' = db_sentiment_results running_pipeline.
Proof.
  apply (@empty_cycle_is_noop demo_externals (twitter_only []) running_pipeline).
  reflexivity.
Defined.

Lemma createDataFrame_raises `{Externals} posts post e :
  post ∈ posts → to_row post = Raises e → ∃ e', createDataFrame posts = Raises e'.
Proof.
  induction posts as [|p posts IH]; [by intros ?%elem_of_nil|].
  intros [->|Hin]%elem_of_cons Hrow; cbn [createDataFrame];
    cbv [mbind outcome_bind mret outcome_ret].
  - rewrite Hrow. by eexists.
  - destruct (to_row p); [|by eexists].
    destruct (IH Hin Hrow) as [e' ->]. by eexists.
Qed.

(** X9. When the Spark stage fails, because the session fails or because
    one collected post does not pass the type check of the schema, no post
    of the cycle is scored: the collected posts are still handed to storage,
    and no result is. *)
Theorem spark_failure_loses_all_results `{Externals} env w :
  (spark_error env ≠ None ∨
   ∃ post e, post ∈ collected env ∧ to_row post = Raises e) →
  nonempty (collected env) = true →
  ∃ w' new,
    run_single_cycle env w = (Returns tt, w') ∧
    events w' = events w ++ new ∧
    raw_batches new = [collected env] ∧
    result_batches new = [].
Proof.
  intros Hfail Hne.
  destruct (run_single_cycle_spec env w) as (w' & new & Hrun & [_ Hev] & _ & Hraw & Hres).
  exists w', new. rewrite Hne in Hraw. split; [done|]. split; [done|]. split; [done|].
  assert (cleaned env (collected env) = []) as Hcleaned.
  { unfold cleaned. destruct (collected env) as [|p ps]; [done|].
    destruct Hfail as [Hspark|(post & e & Hin & Hrow)].
    - by destruct (spark_error env).
    - destruct (createDataFrame_raises _ _ _ Hin Hrow) as [e' ->].
      by destruct (spark_error env). }
  cbn zeta in Hres. unfold scored in Hres. by rewrite Hcleaned in Hres.
Qed.

(** One tweet with three billion likes beside a Reddit submission. *)
Lemma spark_failure_loses_all_results_witness :
  ∃ w' new,
    @run_single_cycle demo_externals viral_cycle running_pipeline = (Returns tt, w') ∧
    events w' = events running_pipeline ++ new ∧
    raw_batches new = [collected viral_cycle] ∧
    result_batches new = [].
Proof.
  apply (@spark_failure_loses_all_results demo_externals viral_cycle running_pipeline).
  - right. exists viral_tweet, out_of_range. split.
    + apply list_elem_of_here.
    + vm_compute. reflexivity.
  - reflexivity.
Defined.

Lemma sentiment_loop_app `{Externals} trained t posts1 posts2 :
  ∀ acc,
    sentiment_loop trained t (posts1 ++ posts2) acc =
    match sentiment_loop trained t posts1 acc with
    | (acc', None) => sentiment_loop trained t posts2 acc'
    | (acc', Some e) => (acc', Some e)
    end.
Proof.
  induction posts1 as [|post posts1 IH]; intros acc; cbn [app sentiment_loop]; [done|].
  destruct (truthy (text_of post)); [|apply IH].
  destruct (score_value trained (text_of post)); [apply IH | done].
Qed.

(** The loop over rows on each of which the scorer returns. *)
Lemma sentiment_loop_rows `{Externals} trained t t' rows :
  Forall (λ r, long_text r = true ∧
               ∀ text, r_text r = Some text →
                       ∃ s, predict_sentiment trained text = Returns s) rows →
  ∀ acc, ∃ results,
    sentiment_loop trained t (asDict t' <$> rows) acc = (acc ++ results, None) ∧
    post_id <$> results = (λ r, opt_str (r_id r)) <$> rows.
Proof.
  induction 1 as [|r rows [Hlong Hscore] _ IH]; intros acc.
  - exists []. by rewrite app_nil_r.
  - apply long_text_spec in Hlong as (text & Htext & Hlen).
    destruct (text_of_asDict t' r text Htext Hlen) as [Htxt Htruthy].
    cbn [fmap list_fmap sentiment_loop]. rewrite Htxt, Htruthy.
    cbn [score_value]. destruct (Hscore text Htext) as [s ->].
    destruct (IH (acc ++ [result_of t (asDict t' r) (PStr text) s]))
      as (results & -> & Hids).
    exists (result_of t (asDict t' r) (PStr text) s :: results).
    split; [by rewrite <- app_assoc|].
    cbn [fmap list_fmap post_id result_of]. unfold dict_get.
    by rewrite asDict_id, <- Hids.
Qed.

(** X10. When the scorer raises on a row, the rows scored before it keep
    their results, which are returned; the failing row and all the rows
    after it get none. *)
Theorem scoring_failure_keeps_earlier_results `{Externals}
    env posts df rows1 r rows2 text e trained :
  nonempty posts = true →
  spark_error env = None →
  createDataFrame posts = Returns df →
  cleaned_df df = rows1 ++ r :: rows2 →
  Forall (λ r', ∀ text', r_text r' = Some text' →
                         ∃ s, predict_sentiment trained text' = Returns s) rows1 →
  r_text r = Some text →
  predict_sentiment trained text = Raises e →
  post_id <$> scored env trained posts = (λ r, opt_str (r_id r)) <$> rows1.
Proof.
  intros Hne Hspark Hdf Hrows Hscore Htext Hraise.
  assert (Hlong : ∀ r', r' ∈ rows1 ++ r :: rows2 → long_text r' = true).
  { intros r' Hin. rewrite <- Hrows in Hin. by apply cleaned_df_elem in Hin as [_ ?]. }
  unfold scored, cleaned. destruct posts as [|p ps]; [done|].
  rewrite Hspark, Hdf, Hrows, fmap_app, sentiment_loop_app.
  destruct (sentiment_loop_rows trained (now env) (spark_now env) rows1) with (acc := @nil sentiment_result)
    as (results & -> & Hids).
  { apply Forall_forall. intros r' Hin. split.
    - apply Hlong, elem_of_app. by left.
    - by apply (proj1 (Forall_forall _ _) Hscore). }
  cbn [app fmap list_fmap sentiment_loop].
  assert (long_text r = true) as (text' & Htext' & Hlen)%long_text_spec.
  { apply Hlong, elem_of_app. right. apply list_elem_of_here. }
  assert (text' = text) as -> by congruence.
  destruct (text_of_asDict (spark_now env) r text Htext Hlen) as [-> ->].
  cbn [score_value]. by rewrite Hraise.
Qed.

(** Three submissions, the scorer failing on the second. *)
Lemma scoring_failure_keeps_earlier_results_witness :
  post_id <$> @scored moody_externals (reddit_cycle []) false [post_a; post_b; post_c]
  = (λ r, opt_str (r_id r)) <$> [row_a].
Proof.
  apply (@scoring_failure_keeps_earlier_results moody_externals (reddit_cycle [])
           [post_a; post_b; post_c] [row_a; row_b; row_c] [row_a] row_b [row_c]
           "I hate Python 3.10" missing_corpus false).
  - reflexivity.
  - reflexivity.
  - vm_compute. reflexivity.
  - vm_compute. reflexivity.
  - repeat constructor. intros text' [= <-]. eexists. vm_compute. reflexivity.
  - reflexivity.
  - vm_compute. reflexivity.
Defined.

(** ** One source, end to end *)

Lemma remove_dups_NoDup {A} `{EqDecision A} (l : list A) : NoDup l → remove_dups l = l.
Proof.
  induction 1 as [|x l Hx _ IH]; cbn [remove_dups]; [done|].
  destruct (decide_rel elem_of x l) as [Hin|_]; [done | by rewrite IH].
Qed.

Lemma filter_Forall {A} (P : A → Prop) `{∀ x, Decision (P x)} (l : list A) :
  Forall P l → filter P l = l.
Proof.
  induction 1 as [|x l Hx _ IH]; [done|].
  by rewrite filter_cons_True, IH.
Qed.

Lemma createDataFrame_ids `{Externals} posts :
  ∀ df, createDataFrame posts = Returns df →
    (λ r, opt_str (r_id r)) <$> df = stored_id <$> posts.
Proof.
  induction posts as [|post posts IH]; intros df.
  - by intros [= <-].
  - cbn [createDataFrame]. cbv [mbind outcome_bind mret outcome_ret].
    destruct (to_row post) as [r|] eqn:Hrow; [|done].
    destruct (createDataFrame posts) as [rows|]; [|done].
    intros [= <-]. cbn [fmap list_fmap]. rewrite (IH rows eq_refl).
    unfold stored_id at 2. by destruct (to_row_strings _ _ Hrow) as (-> & _).
Qed.

(** X11. A cycle in which one source answers and the two others raise. When
    the posts give pairwise different rows with texts of more than 10
    characters and the scorer returns, the cycle hands exactly those posts
    to storage and exactly one result for each of them, under the
    identifier of its post; the results come in the order in which Spark
    returns the distinct rows, which need not be that of the posts. *)
Theorem one_source_end_to_end `{Externals} env posts df e1 e2 w :
  twitter_future env = Returns posts →
  reddit_future env = Raises e1 →
  youtube_future env = Raises e2 →
  nonempty posts = true →
  spark_error env = None →
  createDataFrame posts = Returns df →
  NoDup df →
  Forall (λ r, long_text r = true) df →
  (∀ text, ∃ s, predict_sentiment (is_trained w) text = Returns s) →
  ∃ w' new results,
    run_single_cycle env w = (Returns tt, w') ∧
    events w' = events w ++ new ∧
    raw_batches new = [posts] ∧
    result_batches new = [results] ∧
    length results = length posts ∧
    post_id <$> results ≡ₚ stored_id <$> posts.
Proof.
  intros Htw Hrd Hyt Hne Hspark Hdf Hnodup Hlong Hscore.
  assert (Hcollected : collected env = posts).
  { unfold collected. rewrite Htw, Hrd, Hyt. cbn [posts_of]. by rewrite !app_nil_r. }
  assert (Hperm : cleaned_df df ≡ₚ df).
  { unfold cleaned_df.
    by rewrite (filter_Forall _ _ Hlong), (distinct_rows _), (remove_dups_NoDup _ Hnodup). }
  assert (Hcleaned : cleaned env posts = asDict (spark_now env) <$> cleaned_df df).
  { unfold cleaned. destruct posts; [done|]. by rewrite Hspark, Hdf. }
  assert (Hkept : Forall (λ r, long_text r = true) (cleaned_df df)).
  { apply Forall_forall. by intros r [_ ?]%cleaned_df_elem. }
  destruct (sentiment_loop_cleaned (is_trained w) (now env) (spark_now env)
              (cleaned_df df) Hscore Hkept []) as [Hids _].
  cbn zeta in Hids. cbn [fmap list_fmap app] in Hids.
  rewrite <- Hcleaned in Hids. fold (scored env (is_trained w) posts) in Hids.
  assert (Hlen : length (scored env (is_trained w) posts) = length posts).
  { rewrite <- (length_fmap post_id), Hids, length_fmap, Hperm.
    by apply createDataFrame_length. }
  destruct (run_single_cycle_spec env w) as (w' & new & Hrun & [_ Hev] & _ & Hraw & Hres).
  rewrite Hcollected, Hne in Hraw. rewrite Hcollected in Hres. cbn zeta in Hres.
  assert (nonempty (scored env (is_trained w) posts) = true) as Hne'.
  { destruct (scored env (is_trained w) posts); [|done]. by destruct posts. }
  rewrite Hne' in Hres.
  exists w', new, (set_processed_at (now env) <$> scored env (is_trained w) posts).
  split; [done|]. split; [done|]. split; [done|]. split; [done|].
  split; [by rewrite length_fmap|].
  rewrite <- (createDataFrame_ids _ _ Hdf), <- Hperm, <- Hids, <- list_fmap_compose.
  by rewrite (list_fmap_ext _ post_id (scored env (is_trained w) posts)).
Qed.

(** Three submissions served by the first source, under a Spark that
    returns the rows in another order. *)
Lemma one_source_end_to_end_witness :
  ∃ w' new results,
    @run_single_cycle reversing_externals (twitter_only [post_a; post_b; post_c])
      running_pipeline = (Returns tt, w') ∧
    events w' = events running_pipeline ++ new ∧
    raw_batches new = [[post_a; post_b; post_c]] ∧
    result_batches new = [results] ∧
    length results = length [post_a; post_b; post_c] ∧
    post_id <$> results ≡ₚ @stored_id reversing_externals <$> [post_a; post_b; post_c].
Proof.
  apply (@one_source_end_to_end reversing_externals (twitter_only [post_a; post_b; post_c])
           [post_a; post_b; post_c] [row_a; row_b; row_c] source_down source_down
           running_pipeline).
  - reflexivity.
  - reflexivity.
  - reflexivity.
  - reflexivity.
  - reflexivity.
  - vm_compute. reflexivity.
  - apply (bool_decide_unpack (NoDup [row_a; row_b; row_c])). vm_compute. exact I.
  - repeat constructor.
  - intros text. eexists. reflexivity.
Defined.

(** ** Leaving the loop *)

Lemma iteration_interrupted_quiet `{Externals} it w :
  keyboard_interrupt it = true → stop_request it = NoStop →
  iteration it w = (Returns Break, add_event Interrupted (add_event CycleStart w)).
Proof.
  intros Hki Hstop. unfold iteration, external_stop. run.
  by rewrite Hstop, decide_False, Hki.
Qed.

(** X12. When [KeyboardInterrupt] is raised in a cycle and no stop was
    requested from outside, the loop breaks at once, the interrupted cycle
    is not completed, and the Spark session and the storage connection are
    released exactly once each. *)
Theorem interrupt_releases_once `{Externals} quiet it rest w :
  Forall undisturbed quiet →
  keyboard_interrupt it = true → stop_request it = NoStop →
  spark w = true → client w = true →
  ∃ w' new,
    start_streaming (quiet ++ it :: rest) w = Some (Returns tt, w') ∧
    is_running w' = false ∧
    events w' = events w ++ new ∧
    count is_cycle_start new = S (length quiet) ∧
    count is_cycle_end new = length quiet ∧
    count is_interrupted new = 1%nat ∧
    count is_spark_stop new = 1%nat ∧
    count is_client_close new = 1%nat.
Proof.
  intros Hquiet Hki Hstop Hs Hc. unfold start_streaming.
  destruct (streaming_loop_undisturbed quiet Hquiet (set_is_running true w) eq_refl)
    as (w1 & new1 & Hloop & Hrun1 & Hs1 & Hc1 & Hev1 & Hcount1).
  cbn [spark client events set_is_running] in *.
  rewrite Hloop. cbn [streaming_loop].
  rewrite Hrun1, (iteration_interrupted_quiet it w1 Hki Hstop).
  destruct (stop_streaming_spec (add_event Interrupted (add_event CycleStart w1)))
    as (w3 & -> & Hrun3 & _ & _ & _ & _ & Hev3).
  cbn [spark client events add_event] in Hev3. rewrite Hs1, Hs, Hc1, Hc in Hev3.
  exists w3, (new1 ++ ([CycleStart] ++ [Interrupted]) ++ ([SparkStop] ++ [ClientClose])).
  split; [done|]. split; [done|]. split.
  { rewrite Hev3, Hev1. by rewrite <- !app_assoc. }
  assert (Hinterrupted : scheduler_kind is_interrupted) by (by repeat split; intros []).
  rewrite !count_app, !count_singleton, (Hcount1 _ is_cycle_start_kind),
    (Hcount1 _ is_cycle_end_kind), (Hcount1 _ Hinterrupted),
    (Hcount1 _ is_spark_stop_kind), (Hcount1 _ is_client_close_kind).
  cbn [is_cycle_start is_cycle_end is_interrupted is_spark_stop is_client_close Nat.b2n].
  repeat split; lia.
Qed.

(** An undisturbed cycle, then an interrupted one. *)
Lemma interrupt_releases_once_witness :
  ∃ w' new,
    @start_streaming demo_externals ([overrun_iteration] ++ interrupted_iteration :: [])
      constructed_pipeline = Some (Returns tt, w') ∧
    is_running w' = false ∧
    events w' = events constructed_pipeline ++ new ∧
    count is_cycle_start new = 2%nat ∧
    count is_cycle_end new = 1%nat ∧
    count is_interrupted new = 1%nat ∧
    count is_spark_stop new = 1%nat ∧
    count is_client_close new = 1%nat.
Proof.
  apply (@interrupt_releases_once demo_externals [overrun_iteration]
           interrupted_iteration [] constructed_pipeline).
  - repeat constructor.
  - reflexivity.
  - reflexivity.
  - reflexivity.
  - reflexivity.
Defined.

(** X13. Without a stop request or an interrupt the loop does not return:
    after any number of iterations, overrun or not, it is still running. *)
Theorem loop_runs_until_stopped `{Externals} schedule w :
  Forall undisturbed schedule →
  start_streaming schedule w = None.
Proof.
  intros Hquiet. unfold start_streaming.
  destruct (streaming_loop_undisturbed schedule Hquiet (set_is_running true w) eq_refl)
    as (w1 & new1 & Hloop & Hrun1 & _).
  specialize (Hloop []). rewrite app_nil_r in Hloop. rewrite Hloop.
  cbn [streaming_loop]. by rewrite Hrun1.
Qed.

Lemma loop_runs_until_stopped_witness :
  @start_streaming demo_externals [overrun_iteration; overrun_iteration]
    constructed_pipeline = None.
Proof.
  apply (@loop_runs_until_stopped demo_externals).
  repeat constructor.
Defined.

(** ** Construction *)

(** X14. When no step of construction raises, the pipeline is built with
    its storage connection and its Spark session in place, not running,
    without a trained model, with an interval of 30 seconds, over an
    untouched database. A failure of index creation is logged and does not
    abort construction. *)
Theorem construction_succeeds ie raw results :
  construction_error ie = None →
  ∃ logs,
    RealTimePipeline_init ie (unborn raw results) =
      (Returns tt,
       World false true true false 30 raw results
             (MongoConnect :: logs ++ [SparkCreate])) ∧
    logs = match index_error ie with
           | Some _ => [LogError "Error creating indexes"]
           | None => []
           end.
Proof.
  destruct ie as [tw pr ga sw mc pg ix sp].
  unfold construction_error, first_error.
  cbn [tweepy_error praw_error googleapi_error stopwords_error mongo_client_error
       ping_error index_error spark_session_error foldr].
  destruct tw; [done|]. destruct pr; [done|]. destruct ga; [done|].
  destruct sw; [done|]. destruct mc; [done|]. destruct pg; [done|].
  destruct sp; [done|]. intros _.
  destruct ix; eexists; (split; [reflexivity | reflexivity]).
Qed.

Lemma construction_succeeds_witness :
  ∃ logs,
    RealTimePipeline_init index_failure (unborn [] []) =
      (Returns tt,
       World false true true false 30 [] [] (MongoConnect :: logs ++ [SparkCreate])) ∧
    logs = match index_error index_failure with
           | Some _ => [LogError "Error creating indexes"]
           | None => []
           end.
Proof. apply (construction_succeeds index_failure [] []). reflexivity. Defined.

(** X15. Construction fails fast and in order: when the storage connection
    cannot be established, by the client or by the ping, the exception is
    raised again before the Spark session is asked for, and the connection
    is attempted once. *)
Theorem storage_failure_precedes_spark ie raw results :
  tweepy_error ie = None → praw_error ie = None →
  googleapi_error ie = None → stopwords_error ie = None →
  (mongo_client_error ie ≠ None ∨ ping_error ie ≠ None) →
  ∃ e,
    (RealTimePipeline_init ie (unborn raw results)).1 = Raises e ∧
    (mongo_client_error ie = Some e ∨
     mongo_client_error ie = None ∧ ping_error ie = Some e) ∧
    events (RealTimePipeline_init ie (unborn raw results)).2 =
      [MongoConnect; LogError "Failed to connect to MongoDB"].
Proof.
  destruct ie as [tw pr ga sw mc pg ix sp].
  cbn [tweepy_error praw_error googleapi_error stopwords_error mongo_client_error
       ping_error].
  intros -> -> -> -> Hfail.
  destruct mc as [e|].
  - exists e. split; [done|]. split; [by left | done].
  - destruct pg as [e|]; [|by destruct Hfail].
    exists e. split; [done|]. split; [by right | done].
Qed.

Lemma storage_failure_precedes_spark_witness :
  ∃ e,
    (RealTimePipeline_init mongo_down (unborn [] [])).1 = Raises e ∧
    (mongo_client_error mongo_down = Some e ∨
     mongo_client_error mongo_down = None ∧ ping_error mongo_down = Some e) ∧
    events (RealTimePipeline_init mongo_down (unborn [] [])).2 =
      [MongoConnect; LogError "Failed to connect to MongoDB"].
Proof.
  apply (storage_failure_precedes_spark mongo_down [] []);
    try reflexivity.
  right. discriminate.
Defined.

(** ** The error counters *)

Lemma handle_report_counts h r key :
  default 0 (error_counts (handle_report h r) !! key) =
  default 0 (error_counts h !! key)
  + (if decide (error_key (rp_api r) (rp_error r) = key) then 1 else 0).
Proof.
  unfold handle_report, handle_api_error. cbn [snd error_counts].
  case_decide as Hkey.
  - by rewrite Hkey, lookup_insert_eq.
  - rewrite lookup_insert_ne by done. lia.
Qed.

(** X16. The handler counts the errors per key: after any sequence of
    calls, the counter of a key has grown by the number of calls filed under
    that key, calls under other keys leaving it alone. *)
Theorem error_counts_per_key h rs key :
  default 0 (error_counts (handle_reports h rs) !! key) =
  default 0 (error_counts h !! key) + Z.of_nat (reports_under key rs).
Proof.
  unfold handle_reports, reports_under. revert h.
  induction rs as [|r rs IH]; intros h; cbn [foldl].
  - cbn. lia.
  - rewrite IH, handle_report_counts, filter_cons.
    case_decide; cbn [length]; lia.
Qed.

(** X17. The retry budget of a key: the call that follows five or more
    errors filed under a key answers that the operation is not to be
    retried, whatever the message, and reports a count above five. *)
Theorem retry_budget_is_five now traceback api_name error h :
  5 ≤ default 0 (error_counts h !! error_key api_name error) →
  ae_should_retry (handle_api_error now traceback api_name error h).1 = false ∧
  5 < ae_error_count (handle_api_error now traceback api_name error h).1.
Proof.
  intros Hcount. unfold handle_api_error.
  cbn [fst ae_should_retry ae_error_count].
  rewrite lookup_insert_eq.
  set (c := default 0 (error_counts h !! error_key api_name error)) in *.
  change (default 0 (Some (c + 1))) with (c + 1).
  split; [|lia].
  unfold _should_retry. destruct (Z.gtb_spec (c + 1) 5); [done | lia].
Qed.

(** Five timeouts, then a sixth. *)
Lemma retry_budget_is_five_witness :
  let h := handle_reports new_handler
             [twitter_timeout 1; twitter_timeout 2; twitter_timeout 3;
              twitter_timeout 4; twitter_timeout 5] in
  ae_should_retry (handle_api_error 6 "" "twitter" timeout_error h).1 = false ∧
  5 < ae_error_count (handle_api_error 6 "" "twitter" timeout_error h).1.
Proof.
  apply (retry_budget_is_five 6 "" "twitter" timeout_error).
  vm_compute. discriminate.
Defined.

(** X18. An error is listed in the summary for one hour: a summary taken
    less than 3600 seconds after a call lists the key of that call with its
    counter, the time of the call and the message; taken later, it does not
    list the key; and after a reset the summary is empty. *)
Theorem error_summary_window now traceback api_name error h later :
  let h' := (handle_api_error now traceback api_name error h).2 in
  let key := error_key api_name error in
  ((later - now < 3600)%Q →
   get_error_summary later h' !! key =
   Some (SummaryEntry (default 0 (error_counts h !! key) + 1) now (exn_msg error))) ∧
  ((3600 <= later - now)%Q → get_error_summary later h' !! key = None) ∧
  get_error_summary later (reset_error_counts h') = ∅.
Proof.
  intros h' key. unfold get_error_summary.
  split; [|split].
  - intros Hrecent. rewrite map_lookup_imap.
    unfold h', handle_api_error. cbn [snd last_errors error_counts].
    fold key. rewrite !lookup_insert_eq. cbn [mbind option_bind er_timestamp er_error].
    by rewrite (proj2 (Qlt_bool_spec _ _) Hrecent).
  - intros Hold. rewrite map_lookup_imap.
    unfold h', handle_api_error. cbn [snd last_errors error_counts].
    fold key. rewrite !lookup_insert_eq. cbn [mbind option_bind er_timestamp er_error].
    destruct (Qlt_bool (later - now) 3600) eqn:Hlt; [|done].
    apply Qlt_bool_spec in Hlt. by apply Qlt_not_le in Hlt.
  - apply map_eq. intros k. by rewrite map_lookup_imap, !lookup_empty.
Qed.

(** ** The Reddit adapter *)

Lemma until_error_app l1 l2 :
  until_error (l1 ++ l2) =
  match until_error l1 with
  | (posts, None) => (posts ++ (until_error l2).1, (until_error l2).2)
  | (posts, Some e) => (posts, Some e)
  end.
Proof.
  induction l1 as [|[posts [e|]] l1 IH]; cbn [app until_error].
  - by destruct (until_error l2).
  - done.
  - rewrite IH. destruct (until_error l1) as [posts1 [e|]]; cbn [fst snd]; [done|].
    by rewrite app_assoc.
Qed.

Lemma keyword_loop_spec search subreddit_name all_keywords limit keywords :
  ∀ posts_data,
    keyword_loop search subreddit_name all_keywords limit keywords posts_data =
    let r := until_error
      ((λ keyword,
          (post_data subreddit_name all_keywords
             <$> found (search subreddit_name keyword
                          (limit `div` Z.of_nat (length all_keywords))),
           search_raised (search subreddit_name keyword
                            (limit `div` Z.of_nat (length all_keywords)))))
       <$> keywords) in
    (posts_data ++ r.1, r.2).
Proof.
  induction keywords as [|keyword rest IH]; intros posts_data; cbn zeta.
  - cbn. by rewrite app_nil_r.
  - cbn [keyword_loop fmap list_fmap until_error].
    destruct (search_raised _) as [e|]; cbn [fst snd]; [done|].
    rewrite IH. cbn zeta. by rewrite <- app_assoc.
Qed.

Lemma bind_singleton_fmap {A B} (f : A → B) (l : list A) :
  (l ≫= λ x, [f x]) = f <$> l.
Proof.
  induction l as [|x l IH]; [done|].
  cbn [mbind list_bind fmap list_fmap app]. by rewrite <- IH.
Qed.

Lemma subreddit_loop_spec search keywords limit subreddits :
  ∀ posts_data,
    subreddit_loop search keywords limit subreddits posts_data =
    (posts_data ++ (until_error (searches_of search subreddits keywords limit)).1,
     (until_error (searches_of search subreddits keywords limit)).2).
Proof.
  induction subreddits as [|subreddit_name rest IH]; intros posts_data.
  - cbn. by rewrite app_nil_r.
  - cbn [subreddit_loop]. rewrite keyword_loop_spec. cbn zeta.
    unfold searches_of at 1 2. cbn [mbind list_bind]. fold (searches_of search rest keywords limit).
    rewrite until_error_app.
    rewrite bind_singleton_fmap.
    match goal with
    | |- context [until_error (?f <$> keywords)] =>
        destruct (until_error (f <$> keywords)) as [posts [e|]]
    end; cbv beta iota delta [fst snd]; [done|].
    rewrite IH. by rewrite app_assoc.
Qed.

(** X19. The Reddit adapter keeps what it has: it searches subreddit by
    subreddit and keyword by keyword, and returns the posts of all searches
    up to and including the first one that raises, in that order. Without an
    error it returns the posts of every search; the exception is caught, not
    raised. *)
Theorem collect_posts_until_first_error search subreddits keywords limit :
  collect_posts search subreddits keywords limit =
  until_error (searches_of search subreddits keywords limit).
Proof.
  unfold collect_posts. rewrite subreddit_loop_spec.
  by destruct (until_error _).
Qed.






(** ** The YouTube adapter *)

Lemma video_loop_no_text keywords items :
  ∀ acc, Forall (λ post : payload, post !! "text" = None) acc →
    Forall (λ post : payload, post !! "text" = None)
      (video_loop keywords items acc).1.
Proof.
  induction items as [|[v|e] items IH]; intros acc Hacc; cbn [video_loop fst]; [done| |done].
  apply IH, Forall_app. split; [done|]. by repeat constructor.
Qed.

Lemma search_videos_no_text response keywords :
  Forall (λ post : payload, post !! "text" = None) (search_videos response keywords).1.
Proof.
  unfold search_videos. destruct response as [items|e]; [|done].
  by apply video_loop_no_text.
Qed.

(** Posts without a text give rows without a text, and none of them passes
    the filter. *)
Lemma cleaned_without_text `{Externals} env posts :
  Forall (λ post : payload, post !! "text" = None) posts →
  cleaned env posts = [].
Proof.
  intros Hposts. unfold cleaned.
  destruct posts as [|p ps] eqn:Hp; [done|]. rewrite <- Hp in *. clear Hp.
  destruct (spark_error env); [done|].
  destruct (createDataFrame posts) as [df|] eqn:Hdf; [|done].
  assert (cleaned_df df = []) as ->; [|done].
  apply elem_of_nil_inv. intros r [Hin Hlong]%cleaned_df_elem.
  destruct (createDataFrame_elem _ _ _ Hdf Hin) as (post & Hpost & Hrow).
  destruct (to_row_strings _ _ Hrow) as (_ & Htext & _).
  rewrite (proj1 (Forall_forall _ _) Hposts post Hpost) in Htext.
  unfold long_text in Hlong. by rewrite Htext in Hlong.
Qed.

(** X21. No video is ever scored. The payloads that [search_videos] builds
    have a title and a description and no text, and the cleaning step keeps
    only rows with a text: a cycle in which the posts come from YouTube alone
    hands the videos to storage and no sentiment result. *)
Theorem videos_are_never_scored `{Externals} env response keywords w :
  posts_of (twitter_future env) = [] →
  posts_of (reddit_future env) = [] →
  youtube_future env = Returns (search_videos response keywords).1 →
  ∃ w' new,
    run_single_cycle env w = (Returns tt, w') ∧
    events w' = events w ++ new ∧
    raw_batches new =
      (if nonempty (search_videos response keywords).1
       then [(search_videos response keywords).1] else []) ∧
    result_batches new = [].
Proof.
  intros Htw Hrd Hyt.
  assert (Hcollected : collected env = (search_videos response keywords).1).
  { unfold collected. by rewrite Htw, Hrd, Hyt. }
  destruct (run_single_cycle_spec env w) as (w' & new & Hrun & [_ Hev] & _ & Hraw & Hres).
  exists w', new. rewrite Hcollected in *.
  split; [done|]. split; [done|]. split; [done|].
  cbn zeta in Hres. unfold scored in Hres.
  by rewrite (cleaned_without_text env _ (search_videos_no_text response keywords)) in Hres.
Qed.

Lemma videos_are_never_scored_witness :
  ∃ w' new,
    @run_single_cycle demo_externals videos_cycle running_pipeline = (Returns tt, w') ∧
    events w' = events running_pipeline ++ new ∧
    raw_batches new =
      (if nonempty (search_videos two_videos ["python"]).1
       then [(search_videos two_videos ["python"]).1] else []) ∧
    result_batches new = [].
Proof.
  apply (@videos_are_never_scored demo_externals videos_cycle two_videos ["python"]
           running_pipeline); reflexivity.
Defined.

(** ** Statistics of a cycle *)

(** X22. The statistics of a cycle are never computed. The module of the
    data processor imports every name of [pyspark.sql.functions], so that
    [sum] in [aggregate_sentiment_stats] is the column function of Spark,
    which raises on a list: for every list of results that is not empty the
    function logs an error and returns 0 in every entry, the total
    included, and for the empty list it returns the same without a log
    line. So every cycle that scores at least one post ends, after its
    results were handed to storage, with the line
    "Error aggregating sentiment stats". *)
Theorem aggregate_sentiment_stats_always_zero `{Externals} env w :
  (∀ results w0,
     aggregate_sentiment_stats results w0 =
     (Returns zero_stats,
      if nonempty results
      then add_event (LogError "Error aggregating sentiment stats") w0 else w0)) ∧
  ∃ w' before,
    let results := scored env (is_trained w) (collected env) in
    run_single_cycle env w = (Returns tt, w') ∧
    events w' = events w ++ before ++
      (if nonempty results then [LogError "Error aggregating sentiment stats"] else []) ∧
    result_batches before =
      (if nonempty results then [set_processed_at (now env) <$> results] else []).
Proof.
  split; [apply aggregate_sentiment_stats_spec|].
  unfold run_single_cycle. run.
  destruct (collect_data_from_all_sources_spec env w)
    as (w1 & logs1 & -> & [Hf1 Hev1] & Hlogs1).
  destruct (nonempty (collected env)) eqn:Hne.
  - destruct (process_sentiment_batch_spec env (collected env) w1)
      as (w2 & logs2 & -> & [Hf2 Hev2] & Hlogs2).
    assert (is_trained w1 = is_trained w) as -> by (by injection Hf1).
    destruct (store_results_spec env (collected env)
                (scored env (is_trained w) (collected env)) w2)
      as (w3 & new3 & -> & [Hf3 Hev3] & _ & _ & Hres3).
    rewrite aggregate_sentiment_stats_spec.
    eexists _, (logs1 ++ logs2 ++ new3). cbn zeta.
    split; [reflexivity|]. split.
    + destruct (nonempty (scored _ _ _)); cbn [events add_event];
        rewrite Hev3, Hev2, Hev1, <- ?app_assoc; by rewrite ?app_nil_r.
    + rewrite !result_batches_app, (result_batches_logs logs1),
        (result_batches_logs logs2) by done.
      exact Hres3.
  - exists w1, logs1. cbn zeta.
    assert (collected env = []) as -> by (by destruct (collected env)).
    split; [done|]. split; [by rewrite Hev1, app_nil_r|].
    by rewrite (result_batches_logs logs1).
Qed.

(** ** Text cleaning *)

Lemma lower_char_not_upper c : is_upper_letter (lower_char c) = false.
Proof. destruct c as [[] [] [] [] [] [] [] []]; vm_compute; reflexivity. Qed.

Lemma letter_not_upper c :
  is_upper_letter c = false → is_letter c || is_space c = true →
  is_lower_letter c || is_space c = true.
Proof. unfold is_letter. intros ->. by rewrite orb_false_r. Qed.

Lemma lower_no_upper s : all_chars (λ c, negb (is_upper_letter c)) (lower s) = true.
Proof.
  induction s as [|c s IH]; [done|].
  cbn [lower all_chars]. by rewrite lower_char_not_upper, IH.
Qed.

Lemma remove_urls_all_chars P s :
  all_chars P s = true → ∀ in_match, all_chars P (remove_urls in_match s) = true.
Proof.
  induction s as [|c s IH]; [done|].
  cbn [all_chars]. intros [Hc Hs]%andb_true_iff in_match. cbn [remove_urls].
  destruct (in_match && negb (is_space c)); [by apply IH|].
  destruct (url_starts (String c s)); [by apply IH|].
  cbn [all_chars]. by rewrite Hc, IH.
Qed.

Lemma remove_mentions_all_chars P s :
  all_chars P s = true → ∀ in_match, all_chars P (remove_mentions in_match s) = true.
Proof.
  induction s as [|c s IH]; [done|].
  cbn [all_chars]. intros [Hc Hs]%andb_true_iff in_match. cbn [remove_mentions].
  destruct (in_match && is_word c); [by apply IH|].
  destruct (mention_starts (String c s)); [by apply IH|].
  cbn [all_chars]. by rewrite Hc, IH.
Qed.

Lemma remove_special_chars s :
  all_chars (λ c, negb (is_upper_letter c)) s = true →
  all_chars (λ c, is_lower_letter c || is_space c) (remove_special s) = true.
Proof.
  induction s as [|c s IH]; [done|].
  cbn [all_chars]. intros [Hc Hs]%andb_true_iff. cbn [remove_special].
  destruct (is_letter c || is_space c) eqn:Hkeep; [|by apply IH].
  cbn [all_chars]. rewrite IH by done.
  apply negb_true_iff in Hc. by rewrite (letter_not_upper c Hc Hkeep).
Qed.

Lemma all_chars_app P s1 s2 :
  all_chars P (s1 +:+ s2) = all_chars P s1 && all_chars P s2.
Proof.
  induction s1 as [|c s1 IH]; [done|].
  simpl. by rewrite IH, andb_assoc.
Qed.

Lemma split_from_clean s :
  all_chars (λ c, is_lower_letter c || is_space c) s = true →
  ∀ word, all_chars is_lower_letter word = true →
    Forall clean_word (split_from word s).
Proof.
  induction s as [|c s IH]; intros Hs word Hword; cbn [split_from].
  - destruct word; [done|]. by repeat constructor.
  - cbn [all_chars] in Hs. apply andb_true_iff in Hs as [Hc Hs].
    destruct (is_space c) eqn:Hspace.
    + destruct word; [by apply IH|].
      constructor; [done | by apply IH].
    + apply IH; [done|].
      rewrite all_chars_app, Hword. cbn [all_chars].
      rewrite orb_false_r in Hc. by rewrite Hc.
Qed.

(** X23. Whatever the text, [clean_text] returns words of lowercase letters
    a to z joined by single spaces: no other character, no empty word, so no
    space at either end and no two spaces in a row. *)
Theorem clean_text_words text :
  ∃ words, clean_text text = join " " words ∧ Forall clean_word words.
Proof.
  unfold clean_text. destruct (String.eqb text "").
  - by exists [].
  - eexists. split; [reflexivity|].
    apply split_from_clean; [|done].
    apply remove_special_chars, remove_mentions_all_chars, remove_urls_all_chars,
      lower_no_upper.
Qed.

(** ** The performance monitor *)

Lemma log_calls_snoc calls c :
  log_calls (calls ++ [c]) = log_call (log_calls calls) c.
Proof. unfold log_calls. by rewrite foldl_app. Qed.

(** X24. The monitor remembers the last 100 measurements: after any
    sequence of calls on a fresh monitor, the list holds the entries of the
    last 100 calls, or of all of them when there are fewer, in the order of
    the calls. *)
Theorem processing_times_are_last_hundred calls :
  log_calls calls = drop (length calls - 100) (timing_of <$> calls) ∧
  (length (log_calls calls) ≤ 100)%nat.
Proof.
  assert (Heq : log_calls calls = drop (length calls - 100) (timing_of <$> calls)).
  { induction calls as [|c calls IH] using rev_ind; [done|].
    rewrite log_calls_snoc, IH, fmap_app, length_app. cbn [length fmap list_fmap].
    unfold log_call, log_processing_time. fold (timing_of c).
    rewrite length_app, length_drop, length_fmap. cbn [length].
    destruct (Nat.ltb_spec 100 (length calls - (length calls - 100) + 1)) as [Hlt|Hle].
    - rewrite drop_app_le by (rewrite length_drop, length_fmap; lia).
      rewrite drop_drop.
      rewrite drop_app_le by (rewrite length_fmap; lia).
      do 2 f_equal. lia.
    - rewrite drop_app_le by (rewrite length_fmap; lia).
      do 2 f_equal. lia. }
  split; [done|].
  rewrite Heq, length_drop, length_fmap. lia.
Qed.

Lemma Qgt_bool_false x y : Qgt_bool x y = false ↔ (x <= y)%Q.
Proof.
  unfold Qgt_bool. rewrite negb_false_iff. apply Qle_bool_iff.
Qed.

(** Both directions of an equivalence between a status and a condition on
    the readings, the comparisons being among the hypotheses. *)
Ltac solve_status :=
  split;
  [ intros Heq; try discriminate Heq;
    first [ left; lra | right; left; lra | right; right; lra | repeat split; lra ]
  | intros Hp; try reflexivity; exfalso;
    first [ destruct Hp as [?|[?|?]]; lra | destruct Hp as (? & ? & ?); lra ] ].

(** X25. The health status follows the worst of the three readings: it is
    critical exactly when CPU or memory is above 90 percent or the disk
    above 95, healthy exactly when CPU and memory are at most 75 and the
    disk at most 85, and a warning in between; each reading gives at most
    one line. *)
Theorem check_system_health_status m :
  let h := check_system_health (Some m) in
  (h_status h = critical ↔
     (90 < cpu_percent m ∨ 90 < memory_percent m ∨ 95 < disk_usage m)%Q) ∧
  (h_status h = healthy ↔
     (cpu_percent m <= 75 ∧ memory_percent m <= 75 ∧ disk_usage m <= 85)%Q) ∧
  (h_status h = warning ∨ h_status h = critical ∨ h_status h = healthy) ∧
  (length (h_issues h) + length (h_warnings h) ≤ 3)%nat.
Proof.
  cbn zeta. unfold check_system_health, check_usage.
  destruct (Qgt_bool (cpu_percent m) 90) eqn:C1;
    [|destruct (Qgt_bool (cpu_percent m) 75) eqn:C2];
  (destruct (Qgt_bool (memory_percent m) 90) eqn:M1;
    [|destruct (Qgt_bool (memory_percent m) 75) eqn:M2]);
  (destruct (Qgt_bool (disk_usage m) 95) eqn:D1;
    [|destruct (Qgt_bool (disk_usage m) 85) eqn:D2]);
  cbn [fst snd app nonempty h_status h_issues h_warnings length];
  rewrite ?Qgt_bool_spec, ?Qgt_bool_false in *;
  (split; [solve_status | split; [solve_status | split; [auto | lia]]]).
Qed.

(** ** The pipeline mode of the application *)

(** An interrupted iteration: the events of a stop request that falls in
    the cycle, and the interrupt. *)
Lemma iteration_interrupted_spec `{Externals} it w :
  keyboard_interrupt it = true →
  ∃ w',
    iteration it w = (Returns Break, w') ∧
    spark w' = spark w ∧ client w' = client w ∧
    events w' = events w ++ [CycleStart] ++ stop_events StopDuringCycle it w
                  ++ [Interrupted].
Proof.
  intros Hki. unfold iteration. run. rewrite Hki.
  destruct (external_stop_spec StopDuringCycle it (add_event CycleStart w))
    as (w1 & -> & _ & Hs & Hc & _ & _ & Hev).
  eexists. split; [reflexivity|]. cbn in *.
  rewrite Hev. unfold stop_events. cbn. by rewrite <- !app_assoc.
Qed.

Lemma count_stop_events P here it w :
  spark w = true → client w = true →
  count P (stop_events here it w) =
  if decide (stop_request it = here)
  then (Nat.b2n (P StopRequested) + Nat.b2n (P SparkStop) + Nat.b2n (P ClientClose))%nat
  else 0%nat.
Proof.
  intros Hs Hc. unfold stop_events. rewrite Hs, Hc.
  case_decide; [|done].
  unfold count. cbn [app]. rewrite !filter_cons, filter_nil.
  destruct (P StopRequested), (P SparkStop), (P ClientClose); reflexivity.
Qed.

(** A loop that meets a stop request or an interrupt returns, and up to
    there each stop request has released the two resources once. *)
Lemma streaming_loop_releases `{Externals} schedule :
  ∀ w, is_running w = true → spark w = true → client w = true →
  ¬ Forall undisturbed schedule →
  ∃ w' new,
    streaming_loop schedule w = Some (Returns tt, w') ∧
    spark w' = true ∧ client w' = true ∧
    events w' = events w ++ new ∧
    (count is_stop_requested new ≤ 1)%nat ∧
    count is_spark_stop new = count is_stop_requested new ∧
    count is_client_close new = count is_stop_requested new.
Proof.
  induction schedule as [|it rest IH]; intros w Hrun Hs Hc Hdist.
  { destruct Hdist. constructor. }
  cbn [streaming_loop]. rewrite Hrun.
  destruct (keyboard_interrupt it) eqn:Hki.
  - destruct (iteration_interrupted_spec it w Hki) as (w1 & -> & Hs1 & Hc1 & Hev1).
    eexists w1, _. split; [done|]. split; [congruence|]. split; [congruence|].
    split; [exact Hev1|].
    rewrite !count_app, !count_singleton, !(count_stop_events _ _ _ _ Hs Hc).
    case_decide; cbn; lia.
  - destruct (iteration_spec it w Hki)
      as (w1 & cyc & -> & Hcyc & Hev1 & Hrun1 & Hs1 & Hc1 & _).
    destruct (decide (stop_request it = NoStop)) as [Hstop|Hstop].
    + destruct (IH w1) as (w2 & new2 & Hloop & Hs2 & Hc2 & Hev2 & Hle & Hsp & Hcl);
        [congruence..| |].
      { intros Hrest. apply Hdist. by constructor. }
      eexists w2, _. split; [done|]. split; [done|]. split; [done|].
      split; [rewrite Hev2, Hev1, <- app_assoc; reflexivity|].
      rewrite !(count_app _ _ new2),
        (count_iteration _ _ _ _ is_stop_requested_kind Hcyc),
        (count_iteration _ _ _ _ is_spark_stop_kind Hcyc),
        (count_iteration _ _ _ _ is_client_close_kind Hcyc),
        !(count_stop_events _ _ _ _ Hs Hc).
      rewrite Hstop, !decide_False by done. cbn. lia.
    + rewrite (streaming_loop_stopped rest w1) by done.
      eexists w1, _. split; [done|]. split; [congruence|]. split; [congruence|].
      split; [exact Hev1|].
      rewrite (count_iteration _ _ _ _ is_stop_requested_kind Hcyc),
        (count_iteration _ _ _ _ is_spark_stop_kind Hcyc),
        (count_iteration _ _ _ _ is_client_close_kind Hcyc).
      pose proof (count_stop_iteration is_stop_requested it w Hstop Hs Hc).
      pose proof (count_stop_iteration is_spark_stop it w Hstop Hs Hc).
      pose proof (count_stop_iteration is_client_close it w Hstop Hs Hc).
      cbn in *. lia.
Qed.

Lemma RealTimePipeline_init_success ie raw results :
  construction_error ie = None →
  RealTimePipeline_init ie (unborn raw results) =
    (Returns tt,
     World false true true false 30 raw results
       (MongoConnect ::
          match index_error ie with
          | Some _ => [LogError "Error creating indexes"]
          | None => []
          end ++ [SparkCreate])).
Proof.
  destruct ie as [tw pr ga sw mc pg ix sp].
  unfold construction_error, first_error.
  cbn [tweepy_error praw_error googleapi_error stopwords_error mongo_client_error
       ping_error index_error spark_session_error foldr].
  destruct tw; [done|]. destruct pr; [done|]. destruct ga; [done|].
  destruct sw; [done|]. destruct mc; [done|]. destruct pg; [done|].
  destruct sp; [done|]. intros _.
  destruct ix; reflexivity.
Qed.

(** X26. When construction of the pipeline fails, the pipeline mode logs
    the error and returns without raising; no cycle runs and the database
    is untouched. Nothing is released: the application never got hold of
    the pipeline, so a storage connection that was opened before a later
    step failed (the ping, or the Spark session) is left open. *)
Theorem failed_construction_releases_nothing `{Externals} ie schedule raw results e :
  construction_error ie = Some e →
  ∃ w',
    run_pipeline_only ie schedule (unborn raw results) = Some (Returns tt, w') ∧
    client w' = connection_opened ie ∧
    count is_client_close (events w') = 0%nat ∧
    count is_spark_stop (events w') = 0%nat ∧
    count is_cycle_start (events w') = 0%nat ∧
    db_raw_posts w' = raw ∧ db_sentiment_results w' = results.
Proof.
  intros Hfail. destruct ie as [tw pr ga sw mc pg ix sp].
  unfold construction_error, first_error in Hfail.
  cbn [tweepy_error praw_error googleapi_error stopwords_error mongo_client_error
       ping_error index_error spark_session_error foldr] in Hfail.
  destruct tw, pr, ga, sw, mc, pg, ix, sp; try discriminate Hfail;
    (eexists; split; [reflexivity|]); vm_compute; repeat split; reflexivity.
Qed.

(** The Spark session cannot be created: the connection stays open. *)
Lemma failed_construction_releases_nothing_witness :
  ∃ w',
    @run_pipeline_only demo_externals spark_down [stop_in_cycle] (unborn [] [])
      = Some (Returns tt, w') ∧
    client w' = connection_opened spark_down ∧
    count is_client_close (events w') = 0%nat ∧
    count is_spark_stop (events w') = 0%nat ∧
    count is_cycle_start (events w') = 0%nat ∧
    db_raw_posts w' = [] ∧ db_sentiment_results w' = [].
Proof.
  apply (@failed_construction_releases_nothing demo_externals spark_down
           [stop_in_cycle] [] [] spark_unavailable).
  reflexivity.
Defined.

Lemma count_construction P logs :
  count P (MongoConnect :: logs ++ [SparkCreate]) =
  (Nat.b2n (P MongoConnect) + count P logs + Nat.b2n (P SparkCreate))%nat.
Proof.
  change (MongoConnect :: logs ++ [SparkCreate])
    with ([MongoConnect] ++ logs ++ [SparkCreate]).
  rewrite !count_app, !count_singleton. lia.
Qed.

(** X27. When construction succeeds and the loop meets a stop request or an
    interrupt, the pipeline mode returns without raising, and it releases
    the Spark session and the storage connection once more than the loop
    did: twice each after an interrupt, three times each after a stop
    request, which is at most one. *)
Theorem pipeline_mode_releases_again `{Externals} ie schedule raw results :
  construction_error ie = None →
  ¬ Forall undisturbed schedule →
  ∃ w',
    run_pipeline_only ie schedule (unborn raw results) = Some (Returns tt, w') ∧
    is_running w' = false ∧
    (count is_stop_requested (events w') ≤ 1)%nat ∧
    count is_spark_stop (events w') = (2 + count is_stop_requested (events w'))%nat ∧
    count is_client_close (events w') = (2 + count is_stop_requested (events w'))%nat.
Proof.
  intros Hok Hdist. unfold run_pipeline_only, start_streaming.
  rewrite (RealTimePipeline_init_success _ _ _ Hok).
  match goal with
  | |- context [streaming_loop schedule ?w0] =>
      destruct (streaming_loop_releases schedule w0 eq_refl eq_refl eq_refl Hdist)
        as (w1 & new & -> & Hs1 & Hc1 & Hev1 & Hle & Hsp & Hcl)
  end.
  destruct (stop_streaming_spec w1) as (w2 & -> & Hrun2 & Hs2 & Hc2 & _ & _ & Hev2).
  destruct (stop_streaming_spec w2) as (w3 & -> & Hrun3 & Hs3 & Hc3 & _ & _ & Hev3).
  exists w3. split; [done|]. split; [done|].
  rewrite Hev3, Hev2, Hev1, Hs2, Hc2, Hs1, Hc1.
  cbn [events set_is_running].
  rewrite !count_app, !count_construction, !count_singleton.
  destruct (index_error ie); rewrite ?count_singleton;
    cbn [is_stop_requested is_spark_stop is_client_close Nat.b2n];
    change (count _ []) with 0%nat; lia.
Qed.

(** A cycle, then a stop requested during the next. *)
Lemma pipeline_mode_releases_again_witness :
  ∃ w',
    @run_pipeline_only demo_externals all_up [overrun_iteration; stop_in_cycle]
      (unborn [] []) = Some (Returns tt, w') ∧
    is_running w' = false ∧
    (count is_stop_requested (events w') ≤ 1)%nat ∧
    count is_spark_stop (events w') = (2 + count is_stop_requested (events w'))%nat ∧
    count is_client_close (events w') = (2 + count is_stop_requested (events w'))%nat.
Proof.
  apply (@pipeline_mode_releases_again demo_externals all_up
           [overrun_iteration; stop_in_cycle] [] []).
  - reflexivity.
  - intros Hall. apply Forall_cons in Hall as [_ Hall].
    apply Forall_cons in Hall as [[Hstop _] _]. discriminate Hstop.
Defined.
